(** * hyperliquid-watcher: the ERC-20 transfer watcher of [hyperliquid.py]

    A shallow embedding of the watcher's poll loop, log decoder, endpoint
    selector, symbol resolver and delivery worker, followed by the
    properties of the specification that were checked against it.

    Conventions of the embedding.
    - A Python [str] is a [string]; the model covers ASCII text, which is
      what JSON-RPC hex strings and endpoint URLs are made of.
    - A Python [int] is a [Z].
    - A raised exception is the [Exc] result of the [res] type below.
    - Wall-clock durations (the probe latency) are finite floats that the
      code only negates and compares; both operations are exact on floats,
      so a latency is a [Z] (the float counted in units of 2^-1074 s). *)

From Stdlib Require Import ZArith Lia Ascii String List.
From stdpp Require Import base gmap strings list.
Import ListNotations.

Local Open Scope Z_scope.

(** ** Exceptions and results *)

Inductive exn : Type :=
  | ValueError
  | TypeError
  | IndexError
  | UnboundLocalError
  | OverflowError.

Inductive res (A : Type) : Type :=
  | Ret (a : A)
  | Exc (e : exn).

Arguments Ret {A} a.
Arguments Exc {A} e.

Definition res_bind {A B : Type} (m : res A) (k : A -> res B) : res B :=
  match m with
  | Ret a => k a
  | Exc e => Exc e
  end.

Notation "'let?' x ':=' m 'in' k" := (res_bind m (fun x => k))
  (at level 10, x pattern, m at level 100, k at level 200).

(** ** The Python built-ins the watcher relies on *)

Module PyStr.

(** [len(s)] as an integer. *)
Definition len (s : string) : Z := Z.of_nat (String.length s).

Fixpoint drop (n : nat) (s : string) : string :=
  match n, s with
  | O, _ => s
  | S n', String _ s' => drop n' s'
  | S _, EmptyString => EmptyString
  end.

Fixpoint take (n : nat) (s : string) : string :=
  match n, s with
  | O, _ => EmptyString
  | S n', String c s' => String c (take n' s')
  | S _, EmptyString => EmptyString
  end.

(** Python's normalisation of a slice bound: a negative bound counts from
    the end, and every bound is clamped to [0, len(s)]. *)
Definition clamp (s : string) (i : Z) : Z :=
  if i <? 0 then Z.max 0 (len s + i) else Z.min i (len s).

(** [s[start:]] *)
Definition slice_from (s : string) (start : Z) : string :=
  drop (Z.to_nat (clamp s start)) s.

(** [s[start:stop]] *)
Definition slice (s : string) (start stop : Z) : string :=
  let a := clamp s start in
  let b := clamp s stop in
  take (Z.to_nat (b - a)) (drop (Z.to_nat a) s).

Definition code (c : ascii) : Z := Z.of_N (N_of_ascii c).

Definition between (lo hi x : Z) : bool := (lo <=? x) && (x <=? hi).

(** [str.lower()] on ASCII text. *)
Definition lower_char (c : ascii) : ascii :=
  if between 65 90 (code c) then ascii_of_N (Z.to_N (code c + 32)) else c.

Fixpoint lower (s : string) : string :=
  match s with
  | EmptyString => EmptyString
  | String c s' => String (lower_char c) (lower s')
  end.

(** C's [Py_ISSPACE]: the white space [int()] and [bytes.fromhex] skip. *)
Definition is_space (c : ascii) : bool :=
  between 9 13 (code c) || (code c =? 32).

(** [str.isspace] on one ASCII character: the white space [str.strip()]
    removes; it has the four separators 0x1c-0x1f on top of [is_space]. *)
Definition is_unicode_space (c : ascii) : bool :=
  is_space c || between 28 31 (code c).

Fixpoint lstrip (p : ascii -> bool) (s : string) : string :=
  match s with
  | EmptyString => EmptyString
  | String c s' => if p c then lstrip p s' else s
  end.

Fixpoint rstrip (p : ascii -> bool) (s : string) : string :=
  match s with
  | EmptyString => EmptyString
  | String c s' =>
      match rstrip p s' with
      | EmptyString => if p c then EmptyString else String c EmptyString
      | r => String c r
      end
  end.

(** [s.strip(chars)] and [s.strip()], with the removed characters given as
    a predicate. *)
Definition strip (p : ascii -> bool) (s : string) : string :=
  rstrip p (lstrip p s).

Definition is_char (a c : ascii) : bool := code a =? code c.

Fixpoint all_chars (p : ascii -> bool) (s : string) : bool :=
  match s with
  | EmptyString => true
  | String c s' => p c && all_chars p s'
  end.

(** [_PyLong_DigitValue]: the value of a digit in bases up to 36. *)
Definition digit_value (c : ascii) : option Z :=
  let n := code c in
  if between 48 57 n then Some (n - 48)
  else if between 97 122 n then Some (n - 87)
  else if between 65 90 n then Some (n - 55)
  else None.

Definition hex_digit (c : ascii) : option Z :=
  match digit_value c with
  | Some d => if d <? 16 then Some d else None
  | None => None
  end.

Definition is_hex_digit (c : ascii) : bool :=
  match hex_digit c with Some _ => true | None => false end.

Definition underscore : ascii := "_"%char.

(** The digit loop of [int(s, 16)]: hex digits with single underscores
    between them. [prev] is the previous character of the loop, [None]
    before the first one. The result is the value read and the unread
    rest; no digit at all and a trailing underscore are errors. *)
Definition scan_stop (acc : Z) (prev : option ascii) (rest : string)
  : option (Z * string) :=
  match prev with
  | None => None
  | Some c => if is_char underscore c then None else Some (acc, rest)
  end.

Fixpoint scan_digits (acc : Z) (prev : option ascii) (s : string)
  : option (Z * string) :=
  match s with
  | EmptyString => scan_stop acc prev s
  | String c s' =>
      if is_char underscore c then
        match prev with
        | Some p => if is_char underscore p then None
                    else scan_digits acc (Some c) s'
        | None => scan_digits acc (Some c) s'
        end
      else
        match hex_digit c with
        | Some d => scan_digits (acc * 16 + d) (Some c) s'
        | None => scan_stop acc prev s
        end
  end.

(** The optional sign of a numeral. *)
Definition split_sign (s : string) : bool * string :=
  match s with
  | String c s' =>
      if is_char "+"%char c then (false, s')
      else if is_char "-"%char c then (true, s')
      else (false, s)
  | EmptyString => (false, s)
  end.

(** The optional [0x]/[0X] prefix; one underscore may follow it. *)
Definition skip_prefix (s : string) : string :=
  match s with
  | String c0 (String c1 s') =>
      if is_char "0"%char c0 && (is_char "x"%char c1 || is_char "X"%char c1)
      then match s' with
           | String c2 s'' => if is_char underscore c2 then s'' else s'
           | EmptyString => s'
           end
      else s
  | _ => s
  end.

(** [int(s, 16)] for a [str] argument. *)
Definition int16 (s : string) : res Z :=
  let (neg, body) := split_sign (lstrip is_space s) in
  let digits := skip_prefix body in
  match digits with
  | String c _ =>
      if is_char underscore c then Exc ValueError
      else
        match scan_digits 0 None digits with
        | Some (v, rest) =>
            if all_chars is_space rest
            then Ret (if neg then - v else v)
            else Exc ValueError
        | None => Exc ValueError
        end
  | EmptyString => Exc ValueError
  end.

(** [bytes.fromhex(s)]: pairs of hex digits, white space allowed before
    each pair. The recursion is on [fuel], which [fromhex] sets to the
    length of the text. *)
Fixpoint fromhex_loop (fuel : nat) (s : string) : res (list Byte.byte) :=
  match fuel with
  | O => match s with EmptyString => Ret [] | _ => Exc ValueError end
  | S fuel' =>
      match lstrip is_space s with
      | EmptyString => Ret []
      | String c0 (String c1 s') =>
          match hex_digit c0, hex_digit c1 with
          | Some hi, Some lo =>
              match Byte.of_N (Z.to_N (hi * 16 + lo)) with
              | Some b =>
                  let? bs := fromhex_loop fuel' s' in Ret (b :: bs)
              | None => Exc ValueError
              end
          | _, _ => Exc ValueError
          end
      | String _ EmptyString => Exc ValueError
      end
  end.

Definition fromhex (s : string) : res (list Byte.byte) :=
  fromhex_loop (S (String.length s)) s.

(** [s.count("/")] *)
Fixpoint count_char (a : ascii) (s : string) : nat :=
  match s with
  | EmptyString => O
  | String c s' => (if is_char a c then 1 else 0)%nat + count_char a s'
  end.

End PyStr.

(** ** Configuration constants *)

Definition ERC20_SIG : string :=
  "0xddf252ad1be2c89b69c2b068fc378daa952ba7f163c4a11628f55a4df523b3ef".

Definition WATCH_ADDRESS : string :=
  PyStr.lower "0x07c249fa3902fd243ad0fa58047bE8A3262B7104".

Definition MAX_BLOCK_GAP : Z := 10.
Definition BATCH_SIZE : Z := 100.

(** ** LogDecoder: [decode_log] *)

Module Decoder.

(** A log as [eth_getLogs] returns it: a JSON object whose fields, when
    present, are strings ([topics] a list of strings). *)
Record RawLog : Type := mkLog {
  log_topics : option (list string);
  log_data : option string;
  log_address : option string;
  log_transactionHash : option string;
  log_blockNumber : option string
}.

(** The dict [decode_log] returns. *)
Record TransferEvent : Type := mkEvent {
  ev_from : string;
  ev_to : string;
  ev_value : Z;
  ev_token : string;
  ev_txHash : string;
  ev_blockNumber : Z
}.

(** [d.get(key, default)] *)
Definition get {A : Type} (field : option A) (dflt : A) : A :=
  match field with
  | Some a => a
  | None => dflt
  end.

Definition decode_log (log : RawLog) : res (option TransferEvent) :=
  match get (log_topics log) [] with
  | [] => Ret None
  | t0 :: rest0 =>
      if negb (String.eqb t0 ERC20_SIG) then Ret None
      else
        match rest0 with
        | t1 :: t2 :: rest =>
            let from_addr := "0x" +:+ PyStr.lower (PyStr.slice_from t1 (-40)) in
            let to_addr := "0x" +:+ PyStr.lower (PyStr.slice_from t2 (-40)) in
            let? val :=
              match rest with
              | t3 :: _ => PyStr.int16 t3
              | [] => PyStr.int16 (get (log_data log) "0x0")
              end in
            let token := PyStr.lower (get (log_address log) "") in
            let tx_hash := get (log_transactionHash log) "" in
            let? blk := PyStr.int16 (get (log_blockNumber log) "0x0") in
            Ret (Some {| ev_from := from_addr;
                         ev_to := to_addr;
                         ev_value := val;
                         ev_token := token;
                         ev_txHash := tx_hash;
                         ev_blockNumber := blk |})
        | _ => Ret None
        end
  end.

(** *** Reference notions the decoder is compared with *)

(** The number a string of hex digits denotes, most significant first. *)
Fixpoint hex_value_from (acc : Z) (s : string) : Z :=
  match s with
  | EmptyString => acc
  | String c s' =>
      hex_value_from (acc * 16 + match PyStr.hex_digit c with
                                 | Some d => d
                                 | None => 0
                                 end) s'
  end.

Definition hex_value (s : string) : Z := hex_value_from 0 s.

(** A JSON-RPC hex string: [0x] followed by at least one hex digit. *)
Definition is_hex_string (s : string) : bool :=
  match s with
  | String c0 (String c1 (String c d)) =>
      PyStr.is_char "0"%char c0 && PyStr.is_char "x"%char c1 &&
      PyStr.all_chars PyStr.is_hex_digit (String c d)
  | _ => false
  end.

(** The unsigned big-endian integer of the bytes behind the [0x]. *)
Definition payload_value (s : string) : Z := hex_value (PyStr.drop 2 s).

(** A topic: a 32-byte word, written as [0x] and 64 hex digits. *)
Definition is_word32 (s : string) : bool :=
  is_hex_string s && (String.length s =? 66)%nat.

(** The low 20 bytes of a 32-byte word, as a number. *)
Definition low20 (word : Z) : Z := word mod 2 ^ 160.

(** An address as the decoder writes it: [0x] and 40 lower-case hex
    digits. *)
Definition is_lower_hex (c : ascii) : bool :=
  PyStr.is_hex_digit c && negb (PyStr.between 65 90 (PyStr.code c)).

Definition is_address (s : string) : bool :=
  match s with
  | String c0 (String c1 d) =>
      PyStr.is_char "0"%char c0 && PyStr.is_char "x"%char c1 &&
      PyStr.all_chars is_lower_hex d && (String.length d =? 40)%nat
  | _ => false
  end.

(** The field the transferred value is read from. *)
Definition value_field (log : RawLog) (extra : list string) : string :=
  match extra with
  | t3 :: _ => t3
  | [] => get (log_data log) "0x0"
  end.

End Decoder.

(** ** JSON-RPC replies *)

(** What [rpc(...)] gives its caller, as far as the caller looks at it:
    [NoReply] when [rpc] returned [None] (retries exhausted) or a dict
    without the key [result]; [Null] when the key is there with the JSON
    value [null]; [Reply a] when the result is [a]. *)
Inductive rpc_reply (A : Type) : Type :=
  | NoReply
  | Null
  | Reply (a : A).

Arguments NoReply {A}.
Arguments Null {A}.
Arguments Reply {A} a.

(** ** EndpointHealthProbe and EndpointSelector: [get_best_rpc] *)

Module Selector.

Definition get_latest_block (r : rpc_reply string) : res Z :=
  match r with
  | NoReply => Ret 0
  | Null => Exc TypeError
  | Reply s => PyStr.int16 s
  end.

(** What one probe observes: the endpoint's reply to [eth_blockNumber] and
    the measured latency. *)
Definition Probe : Type := (rpc_reply string * Z)%type.

Definition check_rpc (n : string) (p : Probe) : res (string * Z * Z) :=
  let? blk := get_latest_block (fst p) in
  Ret (n, blk, snd p).

(** [results[n] = v] on an insertion-ordered dict. *)
Fixpoint dict_set {V : Type} (d : list (string * V)) (k : string) (v : V)
  : list (string * V) :=
  match d with
  | [] => [(k, v)]
  | (k', v') :: d' =>
      if String.eqb k' k then (k, v) :: d' else (k', v') :: dict_set d' k v
  end.

(** The sort key [(x[1][0], -x[1][1])] and Python's [>] on such pairs. *)
Definition item_key (x : string * (Z * Z)) : Z * Z :=
  (fst (snd x), - snd (snd x)).

Definition key_gt (a b : Z * Z) : bool :=
  if negb (fst a =? fst b) then fst b <? fst a else snd b <? snd a.

(** [max(items, key=...)]: the first item is the candidate, a later item
    replaces it only when its key is greater. *)
Fixpoint max_from (best : string * (Z * Z)) (items : list (string * (Z * Z)))
  : string * (Z * Z) :=
  match items with
  | [] => best
  | x :: xs =>
      max_from (if key_gt (item_key x) (item_key best) then x else best) xs
  end.

(** Lines 65-67: a probe result enters the dict when its height is
    positive. *)
Definition record (results : list (string * (Z * Z))) (r : string * Z * Z)
  : list (string * (Z * Z)) :=
  let '(n, blk, latency) := r in
  if 0 <? blk then dict_set results n (blk, latency) else results.

Section WithEndpoints.

(** The configured endpoint list; the published file has it blanked out. *)
Variable RPCS : list string.

(** [probe i n] is what the [i]-th probe task observes at endpoint [n]. *)
Variable probe : nat -> string -> Probe.

(** The loop over the futures: results are read in the order of [RPCS],
    an exception of a probe surfaces at its [future.result()]. *)
Fixpoint collect (i : nat) (nodes : list string)
    (results : list (string * (Z * Z))) : res (list (string * (Z * Z))) :=
  match nodes with
  | [] => Ret results
  | n :: nodes' =>
      let? r := check_rpc n (probe i n) in
      collect (S i) nodes' (record results r)
  end.

Definition get_best_rpc : res (string * Z) :=
  match RPCS with
  | [] => Exc ValueError (* ThreadPoolExecutor(max_workers=0) *)
  | first :: _ =>
      let? results := collect 0 RPCS [] in
      match results with
      | [] => Ret (first, 0)
      | x :: xs =>
          let best := max_from x xs in
          (* the log line evaluates best[0].split('/')[2] *)
          if (PyStr.count_char "/"%char (fst best) <? 2)%nat
          then Exc IndexError
          else Ret (fst best, fst (snd best))
      end
  end.

End WithEndpoints.

(** The probe results of a whole selection, one triple (endpoint, height,
    latency) per configured endpoint, when no probe raises. *)
Fixpoint probe_results (probe : nat -> string -> Probe) (i : nat)
    (nodes : list string) : res (list (string * Z * Z)) :=
  match nodes with
  | [] => Ret []
  | n :: nodes' =>
      let? r := check_rpc n (probe i n) in
      let? rs := probe_results probe (S i) nodes' in
      Ret (r :: rs)
  end.

Definition name (r : string * Z * Z) : string := fst (fst r).

(** An endpoint URL with a scheme, as in [https://host/path]: the text has
    at least two slashes, so [n.split('/')[2]] is defined. *)
Definition has_host (n : string) : bool :=
  (2 <=? PyStr.count_char "/"%char n)%nat.

End Selector.

(** ** SymbolResolver: [get_symbol] *)

Module Symbol.

Section WithDecoder.

(** [bytes.decode("utf-8", errors="ignore")], a library function the model
    does not spell out. *)
Variable utf8_decode_ignore : list Byte.byte -> string.

(** The body of the [try] once the reply passed the test of line 139. *)
Definition decode_symbol (result : string) : res string :=
  let hexstr := PyStr.slice_from result 2 in
  let? sym_hex :=
    if 128 <? PyStr.len hexstr then
      let? word0 := PyStr.int16 (PyStr.slice hexstr 0 64) in
      let offset := word0 * 2 in
      let? length := PyStr.int16 (PyStr.slice hexstr offset (offset + 64)) in
      Ret (PyStr.slice hexstr (offset + 64) (offset + 64 + length * 2))
    else
      Ret (PyStr.rstrip (PyStr.is_char "0"%char) (PyStr.slice_from hexstr 128)) in
  let? raw := PyStr.fromhex sym_hex in
  Ret (PyStr.strip PyStr.is_unicode_space
         (PyStr.strip (PyStr.is_char Ascii.zero) (utf8_decode_ignore raw))).

(** [reply] is the answer to the [eth_call]; it is looked at only when the
    token is not cached. The result is the returned symbol and the cache
    after the call. *)
Definition get_symbol (reply : rpc_reply string) (token_addr : string)
    (symbol_cache : gmap string string) : string * gmap string string :=
  match symbol_cache !! token_addr with
  | Some sym => (sym, symbol_cache)
  | None =>
      let unk := ("UNK", <[token_addr := "UNK"]> symbol_cache) in
      match reply with
      | Reply result =>
          if negb (String.eqb result "") && negb (String.eqb result "0x") then
            match decode_symbol result with
            | Ret sym =>
                let shown := if String.eqb sym "" then "UNK" else sym in
                (shown, <[token_addr := shown]> symbol_cache)
            | Exc _ => unk
            end
          else unk
      | _ => unk
      end
  end.

End WithDecoder.

(** A decoder for ASCII bytes, to run [get_symbol] on examples: it agrees
    with UTF-8 on bytes below 0x80 and drops the others. *)
Definition decode_ascii_only (raw : list Byte.byte) : string :=
  string_of_list_ascii
    (List.map ascii_of_byte
       (List.filter (fun b => N.ltb (Byte.to_N b) 128) raw)).

End Symbol.

(** ** DeliveryQueue: [send_to_zapier] and [zapier_worker] *)

Module Delivery.

(** The JSON object sent to the sink. [amount_of] is the integer the
    [amount] field is rendered from, [round(value / 1e18, 6)]; the float
    itself is not part of the model. *)
Record Payload : Type := mkPayload {
  direction : string;
  symbol : string;
  amount_of : Z;
  txHash : string;
  block : Z;
  timestamp : Z;
  from : string;
  to : string;
  token : string
}.

(** The worker takes the lock twice per payload, first to pop the head and
    later to put it back when the POST raised; the POST itself runs
    without the lock, so the producer can append in between. The state is
    the shared list, the payload the worker holds, and the POSTs that got
    a response, with their status codes. *)
Record State : Type := mkState {
  zapier_queue : list Payload;
  in_flight : option Payload;
  answered : list (Payload * Z)
}.

Inductive event : Type :=
  | Produce (p : Payload)     (* send_to_zapier(p), under the lock *)
  | Pop                       (* zapier_queue.pop(0), under the lock *)
  | PostReturns (status : Z)  (* requests.post gave a response *)
  | PostRaises.               (* requests.post raised *)

Definition step (s : State) (e : event) : State :=
  match e with
  | Produce p =>
      {| zapier_queue := zapier_queue s ++ [p];
         in_flight := in_flight s;
         answered := answered s |}
  | Pop =>
      match in_flight s, zapier_queue s with
      | None, p :: q =>
          {| zapier_queue := q; in_flight := Some p; answered := answered s |}
      | _, _ => s
      end
  | PostReturns status =>
      match in_flight s with
      | Some p =>
          {| zapier_queue := zapier_queue s;
             in_flight := None;
             answered := answered s ++ [(p, status)] |}
      | None => s
      end
  | PostRaises =>
      match in_flight s with
      | Some p =>
          {| zapier_queue := p :: zapier_queue s;
             in_flight := None;
             answered := answered s |}
      | None => s
      end
  end.

Definition run (s : State) (trace : list event) : State :=
  fold_left step trace s.

(** Every payload the system holds, oldest first. *)
Definition pending (s : State) : list Payload :=
  match in_flight s with
  | Some p => p :: zapier_queue s
  | None => zapier_queue s
  end.

Definition in_order (s : State) : list Payload :=
  List.map fst (answered s) ++ pending s.

Fixpoint produced (trace : list event) : list Payload :=
  match trace with
  | [] => []
  | Produce p :: trace' => p :: produced trace'
  | _ :: trace' => produced trace'
  end.

(** One turn of the worker on a non-empty queue while the producer appends
    [during]: the pop, the appends, then the outcome of the POST. *)
Definition turn (during : list Payload) (outcome : event) : list event :=
  Pop :: List.map Produce during ++ [outcome].

End Delivery.

(** ** PollLoop and BlockRangeTracker: [main] *)

Module PollLoop.

Import Decoder.

(** The variables of [main] that live across iterations, the module-level
    containers it mutates, and [requested], a history variable that is not
    in the program: the block ranges of the [eth_getLogs] calls made so
    far, oldest first. [blocks_behind] is [None] while the local variable
    is unbound. The timer variable [last_rpc_check] is represented by the
    flag [refresh_due] of the environment. [zapier_queue] is the queue as
    the producer sees it; the worker that empties it is the subject of
    [Delivery]. A keyboard interrupt, which ends the loop, is not part of
    the model. *)
Record State : Type := mkState {
  node : string;
  last_block : Z;
  consecutive_errors : Z;
  blocks_behind : option Z;
  symbol_cache : gmap string string;
  processed_txs : list string;
  zapier_queue : list Delivery.Payload;
  requested : list (Z * Z)
}.

Definition set_node (v : string) (s : State) : State :=
  mkState v (last_block s) (consecutive_errors s) (blocks_behind s)
    (symbol_cache s) (processed_txs s) (zapier_queue s) (requested s).

Definition set_last_block (v : Z) (s : State) : State :=
  mkState (node s) v (consecutive_errors s) (blocks_behind s)
    (symbol_cache s) (processed_txs s) (zapier_queue s) (requested s).

Definition set_consecutive_errors (v : Z) (s : State) : State :=
  mkState (node s) (last_block s) v (blocks_behind s)
    (symbol_cache s) (processed_txs s) (zapier_queue s) (requested s).

Definition set_blocks_behind (v : option Z) (s : State) : State :=
  mkState (node s) (last_block s) (consecutive_errors s) v
    (symbol_cache s) (processed_txs s) (zapier_queue s) (requested s).

Definition set_symbol_cache (v : gmap string string) (s : State) : State :=
  mkState (node s) (last_block s) (consecutive_errors s) (blocks_behind s)
    v (processed_txs s) (zapier_queue s) (requested s).

Definition set_processed_txs (v : list string) (s : State) : State :=
  mkState (node s) (last_block s) (consecutive_errors s) (blocks_behind s)
    (symbol_cache s) v (zapier_queue s) (requested s).

Definition set_zapier_queue (v : list Delivery.Payload) (s : State) : State :=
  mkState (node s) (last_block s) (consecutive_errors s) (blocks_behind s)
    (symbol_cache s) (processed_txs s) v (requested s).

Definition set_requested (v : list (Z * Z)) (s : State) : State :=
  mkState (node s) (last_block s) (consecutive_errors s) (blocks_behind s)
    (symbol_cache s) (processed_txs s) (zapier_queue s) v.

(** What the outside world answers during one iteration of the loop. *)
Record Env : Type := mkEnv {
  refresh_due : bool;      (* time.time() - last_rpc_check > 30 *)
  probe_refresh : nat -> string -> Selector.Probe;   (* line 215 *)
  probe_failover : nat -> string -> Selector.Probe;  (* line 225 *)
  probe_handler : nat -> string -> Selector.Probe;   (* line 311 *)
  block_number : string -> rpc_reply string;         (* line 221 *)
  get_logs : string -> Z -> Z -> rpc_reply (list RawLog);
  eth_call : string -> string -> rpc_reply string;
  now : nat -> Z           (* int(time.time()) at the i-th log *)
}.

(** Statements that read and write the state and may raise; the state a
    raising statement leaves behind is kept. *)
Definition M (A : Type) : Type := State -> res A * State.

Definition pure {A : Type} (a : A) : M A := fun s => (Ret a, s).
Definition raise {A : Type} (e : exn) : M A := fun s => (Exc e, s).
Definition lift {A : Type} (r : res A) : M A := fun s => (r, s).
Definition read {A : Type} (f : State -> A) : M A := fun s => (Ret (f s), s).
Definition update (f : State -> State) : M unit := fun s => (Ret tt, f s).

Definition bind {A B : Type} (m : M A) (k : A -> M B) : M B :=
  fun s =>
    match m s with
    | (Ret a, s') => k a s'
    | (Exc e, s') => (Exc e, s')
    end.

Notation "'let*' x ':=' m 'in' k" := (bind m (fun x => k))
  (at level 10, x pattern, m at level 100, k at level 200).

(** The sleeps that end an iteration. *)
Inductive sleep : Type :=
  | Backoff      (* time.sleep(1) after a failed height query *)
  | FastCatchUp  (* 0.1 *)
  | Base         (* SLEEP_BASE *)
  | Jitter.      (* SLEEP_BASE + random.random() * 0.2 *)

(** How an iteration ends: with its sleep, in the [except Exception]
    handler, or with an exception that left the handler and ends [main]. *)
Inductive tick_end : Type :=
  | Normal (k : sleep)
  | Recovered (e : exn)
  | Crashed (e : exn).

(** [processed_txs.append(tx_id)] on [deque(maxlen=1000)]. *)
Definition deque_append (d : list string) (x : string) : list string :=
  let d' := d ++ [x] in
  if (1000 <? length d')%nat then List.tl d' else d'.

(** [value / 1e18] converts the integer to a float first and raises when
    it rounds beyond the largest double. *)
Definition true_div (value : Z) : res unit :=
  if 2 ^ 1024 - 2 ^ 970 <=? Z.abs value then Exc OverflowError else Ret tt.

(** The evaluation of [n.split('/')[2]] in a log line. *)
Definition host_of (n : string) : res unit :=
  if (PyStr.count_char "/"%char n <? 2)%nat then Exc IndexError else Ret tt.

Definition direction_of (decoded : TransferEvent) : string :=
  if String.eqb WATCH_ADDRESS (ev_to decoded) then "BUY" else "SELL".

Definition relevant (decoded : TransferEvent) : bool :=
  String.eqb WATCH_ADDRESS (ev_from decoded) ||
  String.eqb WATCH_ADDRESS (ev_to decoded).

(** The [if]/[elif]/[else] of lines 294-299 on a bound [blocks_behind]. *)
Definition sleep_for (b : Z) : sleep :=
  if 5 <? b then FastCatchUp else if 1 <? b then Base else Jitter.

(** Block [b] lies in the range of an [eth_getLogs] call. *)
Definition covers (r : Z * Z) (b : Z) : Prop := fst r <= b <= snd r.

Section WithConfiguration.

Variable RPCS : list string.
Variable utf8_decode_ignore : list Byte.byte -> string.

(** [main] before the loop. *)
Definition start (probe : nat -> string -> Selector.Probe) : res State :=
  let? best := Selector.get_best_rpc RPCS probe in
  Ret (mkState (fst best) (snd best) 0 None ∅ [] [] []).

Section OneIteration.

Variable env : Env.

(** [get_transfer_logs_batch]. The [while] loop runs on [fuel], set to the
    number of blocks in the range, which each round shortens by at least
    one. *)
Fixpoint fetch_loop (fuel : nat) (n : string) (current end_block : Z)
    (all_logs : list RawLog) : M (list RawLog) :=
  match fuel with
  | O => pure all_logs
  | S fuel' =>
      if current <=? end_block then
        let batch_end := Z.min (current + BATCH_SIZE - 1) end_block in
        let* _ := update (fun s =>
                    set_requested (requested s ++ [(current, batch_end)]) s) in
        let* all_logs' :=
          match get_logs env n current batch_end with
          | Reply logs => pure (all_logs ++ logs)
          | Null => raise TypeError (* all_logs.extend(None) *)
          | NoReply => pure all_logs
          end in
        fetch_loop fuel' n (batch_end + 1) end_block all_logs'
      else pure all_logs
  end.

Definition get_transfer_logs_batch (n : string) (start_block end_block : Z)
  : M (list RawLog) :=
  fetch_loop (Z.to_nat (end_block - start_block + 1)) n start_block end_block [].

Definition get_symbol (token_addr : string) : M string :=
  fun s =>
    let (sym, cache) :=
      Symbol.get_symbol utf8_decode_ignore
        (eth_call env (node s) token_addr) token_addr (symbol_cache s) in
    (Ret sym, set_symbol_cache cache s).

Definition send_to_zapier (payload : Delivery.Payload) : M unit :=
  update (fun s => set_zapier_queue (zapier_queue s ++ [payload]) s).

Definition make_payload (i : nat) (decoded : TransferEvent) (sym : string)
  : Delivery.Payload :=
  {| Delivery.direction := direction_of decoded;
     Delivery.symbol := sym;
     Delivery.amount_of := ev_value decoded;
     Delivery.txHash := ev_txHash decoded;
     Delivery.block := ev_blockNumber decoded;
     Delivery.timestamp := now env i;
     Delivery.from := ev_from decoded;
     Delivery.to := ev_to decoded;
     Delivery.token := ev_token decoded |}.

(** The [for lg in logs] loop of lines 249-286; [i] counts the logs. *)
Fixpoint process_logs (i : nat) (logs : list RawLog) (relevant_count : Z)
  : M Z :=
  match logs with
  | [] => pure relevant_count
  | lg :: logs' =>
      let* decoded := lift (decode_log lg) in
      match decoded with
      | None => process_logs (S i) logs' relevant_count
      | Some decoded =>
          if negb (relevant decoded) then
            process_logs (S i) logs' relevant_count
          else
            let tx_id := ev_txHash decoded in
            let* seen := read (fun s =>
                           existsb (String.eqb tx_id) (processed_txs s)) in
            if seen : bool then process_logs (S i) logs' relevant_count
            else
              let* _ := update (fun s =>
                          set_processed_txs
                            (deque_append (processed_txs s) tx_id) s) in
              let* sym := get_symbol (ev_token decoded) in
              let* _ := lift (true_div (ev_value decoded)) in
              let* _ := send_to_zapier (make_payload i decoded sym) in
              process_logs (S i) logs' (relevant_count + 1)
      end
  end.

(** Lines 214-219. *)
Definition periodic_check : M unit :=
  if refresh_due env then
    let* best := lift (Selector.get_best_rpc RPCS (probe_refresh env)) in
    let* current := read node in
    if negb (String.eqb (fst best) current) then
      let* _ := update (set_node (fst best)) in
      lift (host_of (fst best))
    else pure tt
  else pure tt.

(** Lines 223-228, the branch [latest == 0]. *)
Definition failed_query : M sleep :=
  let* _ := update (fun s =>
              set_consecutive_errors (consecutive_errors s + 1) s) in
  let* errors := read consecutive_errors in
  let* _ :=
    if 3 <? errors then
      let* best := lift (Selector.get_best_rpc RPCS (probe_failover env)) in
      let* _ := update (set_node (fst best)) in
      update (set_consecutive_errors 0)
    else pure tt in
  pure Backoff.

(** Lines 233-291. *)
Definition track_and_process (latest : Z) : M unit :=
  let* last := read last_block in
  if last <? latest then
    let behind := latest - last in
    let* _ := update (set_blocks_behind (Some behind)) in
    let* _ :=
      if MAX_BLOCK_GAP <? behind
      then update (set_last_block (latest - 2))
      else pure tt in
    let* last' := read last_block in
    let process_from := last' + 1 in
    let process_to := latest in
    let* n := read node in
    let* logs := get_transfer_logs_batch n process_from process_to in
    let* _ := process_logs 0 logs 0 in
    update (set_last_block latest)
  else pure tt.

(** Lines 294-301. *)
Definition choose_sleep : M sleep :=
  let* behind := read blocks_behind in
  match behind with
  | None => raise UnboundLocalError
  | Some b => pure (sleep_for b)
  end.

(** The [try] block of the loop. *)
Definition body : M sleep :=
  let* _ := periodic_check in
  let* n := read node in
  let* latest := lift (Selector.get_latest_block (block_number env n)) in
  if latest =? 0 then failed_query
  else
    let* _ := update (set_consecutive_errors 0) in
    let* _ := track_and_process latest in
    choose_sleep.

(** The [except Exception] block, lines 306-313. *)
Definition handler : M unit :=
  let* _ := update (fun s =>
              set_consecutive_errors (consecutive_errors s + 1) s) in
  let* errors := read consecutive_errors in
  if 5 <? errors then
    let* best := lift (Selector.get_best_rpc RPCS (probe_handler env)) in
    let* _ := update (fun s => set_last_block (snd best) (set_node (fst best) s)) in
    update (set_consecutive_errors 0)
  else pure tt.

Definition tick (s : State) : tick_end * State :=
  match body s with
  | (Ret k, s') => (Normal k, s')
  | (Exc e, s') =>
      match handler s' with
      | (Ret _, s'') => (Recovered e, s'')
      | (Exc e', s'') => (Crashed e', s'')
      end
  end.

(** The height the iteration works with, when it gets that far: the
    periodic check did not raise and the height query gave a number other
    than 0, so the iteration goes on to line 230. *)
Definition observed_height (s : State) : option Z :=
  match periodic_check s with
  | (Ret _, s1) =>
      match Selector.get_latest_block (block_number env (node s1)) with
      | Ret latest => if latest =? 0 then None else Some latest
      | Exc _ => None
      end
  | (Exc _, _) => None
  end.

(** The iteration runs line 311: its body raises and the error count
    passes 5. *)
Definition reselects_in_handler (s : State) : bool :=
  match body s with
  | (Exc _, s') => 5 <? consecutive_errors s' + 1
  | (Ret _, _) => false
  end.

End OneIteration.

(** No iteration of the run gets to line 311. *)
Fixpoint no_handler_reselection (envs : list Env) (s : State) : bool :=
  match envs with
  | [] => true
  | env :: envs' =>
      negb (reselects_in_handler env s) &&
      no_handler_reselection envs' (snd (tick env s))
  end.

(** A payload made from a decoded log of the batch that involves the
    watched address. *)
Definition made_from (logs : list RawLog) (p : Delivery.Payload) : Prop :=
  exists lg ev,
    In lg logs /\ decode_log lg = Ret (Some ev) /\ relevant ev = true /\
    Delivery.from p = ev_from ev /\ Delivery.to p = ev_to ev /\
    Delivery.direction p = direction_of ev.

(** The loop over a finite prefix of the environment's answers; it stops
    when an exception ends [main]. The flag tells whether the loop is
    still running. *)
Fixpoint run (envs : list Env) (s : State) : bool * State :=
  match envs with
  | [] => (true, s)
  | env :: envs' =>
      match tick env s with
      | (Crashed _, s') => (false, s')
      | (_, s') => run envs' s'
      end
  end.

End WithConfiguration.

End PollLoop.

(** ** Concrete logs, endpoints and environments *)

Module Scenarios.

Import Decoder.

Definition endpoint_a : string := "https://rpc-a.example/evm".
Definition endpoint_b : string := "https://rpc-b.example/evm".
Definition endpoints : list string := [endpoint_a; endpoint_b].

(** The watched address as a topic, in upper case, and another holder. *)
Definition topic_watch : string :=
  "0x00000000000000000000000007C249FA3902FD243AD0FA58047BE8A3262B7104".
Definition topic_other : string :=
  "0x0000000000000000000000001111111111111111111111111111111111111111".

(** 10^18 as a 32-byte data payload. *)
Definition one_token : string :=
  "0x0000000000000000000000000000000000000000000000000de0b6b3a7640000".

Definition token_contract : string :=
  "0x5555555555555555555555555555555555555555".

Definition transfer_log : RawLog :=
  {| log_topics := Some [ERC20_SIG; topic_other; topic_watch];
     log_data := Some one_token;
     log_address := Some token_contract;
     log_transactionHash := Some "0xaaaa";
     log_blockNumber := Some "0x65" |}.

(** The same transfer in a log whose data payload has no bytes. *)
Definition empty_data_log : RawLog :=
  {| log_topics := Some [ERC20_SIG; topic_other; topic_watch];
     log_data := Some "0x";
     log_address := Some token_contract;
     log_transactionHash := Some "0xbbbb";
     log_blockNumber := Some "0x65" |}.

(** The same transfer in a log whose block number has no digits. *)
Definition empty_block_number_log : RawLog :=
  {| log_topics := Some [ERC20_SIG; topic_other; topic_watch];
     log_data := Some one_token;
     log_address := Some token_contract;
     log_transactionHash := Some "0xeeee";
     log_blockNumber := Some "0x" |}.

(** A log with the signature and one more topic, and an Approval log. *)
Definition two_topic_log : RawLog :=
  {| log_topics := Some [ERC20_SIG; topic_other];
     log_data := Some one_token;
     log_address := Some token_contract;
     log_transactionHash := Some "0xcccc";
     log_blockNumber := Some "0x65" |}.

Definition approval_log : RawLog :=
  {| log_topics :=
       Some ["0x8c5be1e5ebec7d5bd14f71427d1e84f3dd0314c0f7b2291e5b200ac8c7c3b925";
             topic_other; topic_watch];
     log_data := Some one_token;
     log_address := Some token_contract;
     log_transactionHash := Some "0xdddd";
     log_blockNumber := Some "0x65" |}.

(** [symbol()] returning HYPE in one 32-byte slot, and as a dynamic ABI
    string (offset word, length word, bytes). *)
Definition hype_static : string :=
  "0x4859504500000000000000000000000000000000000000000000000000000000".
Definition hype_dynamic : string :=
  "0x0000000000000000000000000000000000000000000000000000000000000020"
  +:+ "0000000000000000000000000000000000000000000000000000000000000004"
  +:+ "4859504500000000000000000000000000000000000000000000000000000000".

(** Probes: nobody answers; only [endpoint_b] answers, with height 145. *)
Definition silent : nat -> string -> Selector.Probe :=
  fun _ _ => (NoReply, 0).
Definition only_b_at_145 : nat -> string -> Selector.Probe :=
  fun _ n => if String.eqb n endpoint_b then (Reply "0x91", 3) else (NoReply, 0).

(** [endpoint_a] at height 100 with latency 50, [endpoint_b] at height 105
    with latency 10. *)
Definition b_ahead : nat -> string -> Selector.Probe :=
  fun _ n => if String.eqb n endpoint_a then (Reply "0x64", 50)
             else (Reply "0x69", 10).

(** An iteration in which the active endpoint answers [eth_blockNumber]
    with [height] and every [eth_getLogs] with [logs]. *)
Definition answering (refresh : bool) (height : rpc_reply string)
    (logs : list RawLog) (reselect : nat -> string -> Selector.Probe)
  : PollLoop.Env :=
  {| PollLoop.refresh_due := refresh;
     PollLoop.probe_refresh := reselect;
     PollLoop.probe_failover := reselect;
     PollLoop.probe_handler := reselect;
     PollLoop.block_number := fun _ => height;
     PollLoop.get_logs := fun _ _ _ => Reply logs;
     PollLoop.eth_call := fun _ _ => Reply hype_dynamic;
     PollLoop.now := fun _ => 1700000000 |}.

Definition watching (n : string) (last : Z) : PollLoop.State :=
  PollLoop.mkState n last 0 None ∅ [] [] [].

Definition tick := PollLoop.tick endpoints Symbol.decode_ascii_only.
Definition run := PollLoop.run endpoints Symbol.decode_ascii_only.

(** The chain head is at 150 while the cursor is at 100; then the active
    endpoint answers [eth_blockNumber] with the result [null] six times in
    a row, the re-selection of the sixth handler finds only the lagging
    [endpoint_b] at 145, and the next query gives 146. *)
Definition far_behind : PollLoop.Env := answering false (Reply "0x96") [] silent.
Definition bad_height : PollLoop.Env := answering false Null [] only_b_at_145.
Definition head_146 : PollLoop.Env := answering false (Reply "0x92") [] silent.

Definition outage : list PollLoop.Env :=
  far_behind :: repeat bad_height 6.

End Scenarios.

(** ** The JSON-RPC helper: [rpc] *)

Module Rpc.

Definition MAX_RETRIES : nat := 3.

(** One pass through the [try] block of [rpc]: [Fails] when anything in it
    raises (the POST, [r.json()], or the explicit raise on an [error]
    field), [Answers d] when it returns the dict [d]. *)
Inductive attempt (A : Type) : Type :=
  | Fails
  | Answers (d : A).

Arguments Fails {A}.
Arguments Answers {A} d.

Section WithOracle.

Context {A : Type}.

(** [oracle k] is the outcome of the attempt made with [retry_count = k]. *)
Variable oracle : nat -> attempt A.

(** [rpc(node, method, params, timeout, retry_count)]: the value returned
    ([None] once the retries are used up) and the sleeps made on the way,
    in units of half a second ([0.5 * (retry_count + 1)] seconds each).
    The recursion is on [budget], the retries left; [retry_count <
    MAX_RETRIES] holds exactly when it is not 0. *)
Fixpoint rpc_from (budget : nat) (retry_count : nat) : option A * list nat :=
  match oracle retry_count with
  | Answers d => (Some d, [])
  | Fails =>
      match budget with
      | S budget' =>
          let (r, sleeps) := rpc_from budget' (S retry_count) in
          (r, (retry_count + 1)%nat :: sleeps)
      | O => (None, [])
      end
  end.

Definition rpc (retry_count : nat) : option A * list nat :=
  rpc_from (MAX_RETRIES - retry_count) retry_count.

End WithOracle.

End Rpc.

(** ** Block ranges *)

Module Ranges.

(** The ranges [rs] follow one another without gap or overlap, from block
    [next] up to block [last]. *)
Fixpoint contiguous (next : Z) (rs : list (Z * Z)) (last : Z) : Prop :=
  match rs with
  | [] => last = next - 1
  | r :: rs' => fst r = next /\ next <= snd r /\ contiguous (snd r + 1) rs' last
  end.

(** The logs a list of [eth_getLogs] calls brings in: those of the calls
    that got a list, in the order of the calls. *)
Definition gathered (get : Z -> Z -> rpc_reply (list Decoder.RawLog))
    (rs : list (Z * Z)) : list Decoder.RawLog :=
  List.flat_map (fun r => match get (fst r) (snd r) with
                          | Reply logs => logs
                          | _ => []
                          end) rs.

End Ranges.

(** ** Relations kept by a computation *)

Module Frame.

(** [keeps P m]: whatever the result of [m], normal or exceptional, the
    state after is related by [P] to the state before. *)
Definition keeps (P : PollLoop.State -> PollLoop.State -> Prop) {A : Type}
    (m : PollLoop.M A) : Prop :=
  forall s, P s (snd (m s)).

End Frame.

(** ** Iterations that keep up with the chain *)

Module Coverage.

Import PollLoop.

Section WithConfiguration.

Variable RPCS : list string.
Variable utf8_decode_ignore : list Byte.byte -> string.

(** Every iteration of the run ends with the sleep of line 227 or 301, and
    none finds the chain more than [MAX_BLOCK_GAP] blocks ahead of the
    cursor. *)
Fixpoint steady (envs : list Env) (s : State) : bool :=
  match envs with
  | [] => true
  | env :: envs' =>
      match tick RPCS utf8_decode_ignore env s with
      | (Normal _, s') =>
          match observed_height RPCS env s with
          | Some latest => latest - last_block s <=? MAX_BLOCK_GAP
          | None => true
          end && steady envs' s'
      | _ => false
      end
  end.

End WithConfiguration.

End Coverage.

(** ** More concrete inputs *)

Module MoreScenarios.

Import Decoder.

Fixpoint zeros (n : nat) : string :=
  match n with
  | O => EmptyString
  | S n' => String "0" (zeros n')
  end.

(** A transfer to the watched address whose data payload is the number
    2^1024, written with 257 hex digits. *)
Definition huge_value_log : RawLog :=
  {| log_topics :=
       Some [ERC20_SIG; Scenarios.topic_other; Scenarios.topic_watch];
     log_data := Some ("0x1" +:+ zeros 256);
     log_address := Some Scenarios.token_contract;
     log_transactionHash := Some "0xffff";
     log_blockNumber := Some "0x65" |}.

Definition huge_value_event : TransferEvent :=
  {| ev_from := "0x1111111111111111111111111111111111111111";
     ev_to := "0x07c249fa3902fd243ad0fa58047be8a3262b7104";
     ev_value := 2 ^ 1024;
     ev_token := Scenarios.token_contract;
     ev_txHash := "0xffff";
     ev_blockNumber := 101 |}.

(** Probes: [endpoint_a] is at height 100, [endpoint_b] answers with the
    result [null]. *)
Definition b_null : nat -> string -> Selector.Probe :=
  fun _ n => if String.eqb n Scenarios.endpoint_b then (Null, 3)
             else (Reply "0x64", 3).

(** Probes: both endpoints are at height 105, [endpoint_a] with latency 50
    and [endpoint_b] with latency 10. *)
Definition tied : nat -> string -> Selector.Probe :=
  fun _ n => if String.eqb n Scenarios.endpoint_a then (Reply "0x69", 50)
             else (Reply "0x69", 10).

(** An endpoint list that names [endpoint_a] twice; its first probe finds
    height 100, the probe of [endpoint_b] height 95, and the second probe
    of [endpoint_a] height 90. *)
Definition a_twice : list string :=
  [Scenarios.endpoint_a; Scenarios.endpoint_b; Scenarios.endpoint_a].
Definition a_falls_back : nat -> string -> Selector.Probe :=
  fun i _ => match i with
             | O => (Reply "0x64", 3)
             | S O => (Reply "0x5f", 3)
             | _ => (Reply "0x5a", 3)
             end.

(** Probes: every endpoint answers with the result [null]. *)
Definition null_probes : nat -> string -> Selector.Probe :=
  fun _ _ => (Null, 3).

(** An iteration in which the height query and every probe get the result
    [null]. *)
Definition all_null : PollLoop.Env :=
  Scenarios.answering false Null [] (fun _ _ => (Null, 3)).

End MoreScenarios.

(** * Properties *)

(** ** Facts about the built-ins *)

Module PyStrFacts.

Import PyStr.

Lemma is_char_true (a c : ascii) : is_char a c = true -> a = c.
Proof.
  unfold is_char, code. intros H.
  apply Z.eqb_eq, N2Z.inj in H.
  rewrite <- (ascii_N_embedding a), <- (ascii_N_embedding c).
  now f_equal.
Qed.

Lemma is_char_refl (a : ascii) : is_char a a = true.
Proof. unfold is_char. apply Z.eqb_refl. Qed.

Ltac each_ascii c :=
  destruct c as [[] [] [] [] [] [] [] []]; try reflexivity; try discriminate.

Lemma hex_digit_not_underscore (c : ascii) :
  is_hex_digit c = true -> is_char underscore c = false.
Proof. each_ascii c. Qed.

Lemma hex_digit_range (c : ascii) (d : Z) :
  hex_digit c = Some d -> 0 <= d < 16.
Proof.
  unfold hex_digit. destruct (digit_value c) as [v|] eqn:Hv; [|discriminate].
  destruct (v <? 16) eqn:Hlt; [|discriminate].
  intros [= <-]. apply Z.ltb_lt in Hlt. split; [|assumption].
  unfold digit_value, between in Hv.
  repeat match type of Hv with
         | (if ?b then _ else _) = _ => destruct b eqn:?; [injection Hv as <-|]
         end; try discriminate; lia.
Qed.

Lemma hex_digit_lower (c : ascii) : hex_digit (lower_char c) = hex_digit c.
Proof. each_ascii c. Qed.

Lemma hex_digit_is_hex (c : ascii) :
  is_hex_digit c = true -> exists d, hex_digit c = Some d.
Proof.
  unfold is_hex_digit. destruct (hex_digit c) as [d|]; [eauto|discriminate].
Qed.

Lemma length_drop (n : nat) (s : string) :
  String.length (drop n s) = (String.length s - n)%nat.
Proof.
  revert s. induction n as [|n IH]; intros [|c s]; simpl; auto with arith.
Qed.

Lemma take_drop (n : nat) (s : string) : take n s +:+ drop n s = s.
Proof.
  revert s. induction n as [|n IH]; intros [|c s]; try reflexivity.
  change (String c (take n s +:+ drop n s) = String c s). now rewrite IH.
Qed.

Lemma length_take (n : nat) (s : string) :
  (n <= String.length s)%nat -> String.length (take n s) = n.
Proof.
  revert s. induction n as [|n IH]; intros [|c s]; simpl; intros H;
    try reflexivity; try lia.
  rewrite IH; [reflexivity|lia].
Qed.

Lemma all_chars_drop (p : ascii -> bool) (n : nat) (s : string) :
  all_chars p s = true -> all_chars p (drop n s) = true.
Proof.
  revert s. induction n as [|n IH]; intros [|c s]; simpl; auto.
  intros H. apply andb_prop in H as [_ H]. now apply IH.
Qed.

Lemma length_lower (s : string) : String.length (lower s) = String.length s.
Proof. induction s as [|c s IH]; simpl; congruence. Qed.



(** A slice bound that is beyond the end leaves nothing. *)
Lemma slice_from_beyond (s : string) (i : Z) :
  len s <= i -> slice_from s i = "".
Proof.
  intros H. unfold slice_from, clamp, len in *.
  destruct (i <? 0) eqn:Hneg; [apply Z.ltb_lt in Hneg; lia|].
  rewrite Z.min_r by lia. rewrite Nat2Z.id.
  generalize (length_drop (String.length s) s).
  rewrite Nat.sub_diag. now destruct (drop (String.length s) s).
Qed.

(** [s[-k:]] of a text that has at least [k] characters. *)
Lemma slice_from_last (s : string) (k : nat) :
  (0 < k <= String.length s)%nat ->
  slice_from s (- Z.of_nat k) = drop (String.length s - k) s.
Proof.
  intros H. unfold slice_from, clamp, len.
  destruct (- Z.of_nat k <? 0) eqn:Hneg.
  - rewrite Z.max_r by lia. f_equal. lia.
  - apply Z.ltb_ge in Hneg. lia.
Qed.

(** The built-ins on the inputs that matter below. *)
Example int16_examples :
  PyStr.int16 "0x" = Exc ValueError /\ PyStr.int16 "0x0" = Ret 0 /\
  PyStr.int16 "-0x1" = Ret (-1) /\ PyStr.int16 " 0x1f " = Ret 31 /\
  PyStr.int16 "0x_1f" = Ret 31 /\ PyStr.int16 "_1" = Exc ValueError /\
  PyStr.int16 "1__2" = Exc ValueError /\ PyStr.int16 "1_" = Exc ValueError /\
  PyStr.int16 "0X1F" = Ret 31 /\ PyStr.int16 "0x 1" = Exc ValueError /\
  PyStr.int16 "" = Exc ValueError /\ PyStr.int16 "x" = Exc ValueError.
Proof. repeat split; vm_compute; reflexivity. Qed.

Example slice_examples :
  PyStr.slice_from "abc" (-40) = "abc" /\ PyStr.slice_from "abc" 128 = "" /\
  PyStr.slice_from "abcdef" (-2) = "ef" /\ PyStr.slice "abcdef" 4 2 = "" /\
  PyStr.slice "abcdef" 1 3 = "bc" /\
  PyStr.strip PyStr.is_unicode_space " a b  " = "a b".
Proof. repeat split; vm_compute; reflexivity. Qed.

Example fromhex_examples :
  PyStr.fromhex "" = Ret [] /\
  PyStr.fromhex "4a 4b" = Ret [Byte.x4a; Byte.x4b] /\
  PyStr.fromhex "4 a" = Exc ValueError /\ PyStr.fromhex "4a " = Ret [Byte.x4a] /\
  PyStr.fromhex "4" = Exc ValueError.
Proof. repeat split; vm_compute; reflexivity. Qed.

End PyStrFacts.

(** ** LogDecoder *)

Module DecoderFacts.

Import PyStr PyStrFacts Decoder.

Lemma hex_value_from_app (acc : Z) (a b : string) :
  hex_value_from acc (a +:+ b) = hex_value_from (hex_value_from acc a) b.
Proof.
  revert acc. induction a as [|c a IH]; intros acc; [reflexivity|].
  simpl. apply IH.
Qed.

Lemma hex_value_from_shift (acc : Z) (s : string) :
  hex_value_from acc s = acc * 16 ^ len s + hex_value s.
Proof.
  unfold hex_value, len. revert acc.
  induction s as [|c s IH]; intros acc.
  - simpl. lia.
  - cbn [hex_value_from String.length]. rewrite IH.
    rewrite (IH (0 * 16 + _)). rewrite Nat2Z.inj_succ, Z.pow_succ_r by lia.
    ring.
Qed.

Lemma hex_value_range (s : string) : 0 <= hex_value s < 16 ^ len s.
Proof.
  induction s as [|c s IH].
  - unfold hex_value, len. simpl. lia.
  - unfold hex_value. cbn [hex_value_from]. rewrite hex_value_from_shift.
    assert (0 <= match hex_digit c with Some d => d | None => 0 end < 16) as Hd.
    { destruct (hex_digit c) as [d|] eqn:E; [now apply hex_digit_range in E|lia]. }
    unfold len in *. cbn [String.length].
    rewrite Nat2Z.inj_succ, Z.pow_succ_r by lia. nia.
Qed.

Lemma hex_value_from_lower (acc : Z) (s : string) :
  hex_value_from acc (lower s) = hex_value_from acc s.
Proof.
  revert acc. induction s as [|c s IH]; intros acc; [reflexivity|].
  simpl. now rewrite hex_digit_lower, IH.
Qed.

(** The low digits of a hex text are its value modulo a power of 16. *)
Lemma hex_value_drop (n : nat) (s : string) :
  (n <= String.length s)%nat ->
  hex_value (drop n s) = hex_value s mod 16 ^ Z.of_nat (String.length s - n).
Proof.
  intros Hn. rewrite <- (take_drop n s) at 2.
  unfold hex_value at 2. rewrite hex_value_from_app, hex_value_from_shift.
  unfold len. rewrite length_drop.
  rewrite Z.add_comm, Z.mod_add by lia.
  symmetry. apply Z.mod_small.
  rewrite <- length_drop. apply hex_value_range.
Qed.

Lemma scan_digits_hex (s : string) (acc : Z) (p : ascii) :
  all_chars is_hex_digit s = true ->
  is_char underscore p = false ->
  scan_digits acc (Some p) s = Some (hex_value_from acc s, "").
Proof.
  revert acc p. induction s as [|c s IH]; intros acc p Hs Hp.
  - simpl. now rewrite Hp.
  - simpl in Hs. apply andb_prop in Hs as [Hc Hs].
    cbn [scan_digits hex_value_from].
    rewrite (hex_digit_not_underscore c Hc).
    destruct (hex_digit_is_hex c Hc) as [d ->].
    apply IH; [assumption|now apply hex_digit_not_underscore].
Qed.

Lemma hex_string_inv (s : string) :
  is_hex_string s = true ->
  exists c d, s = String "0" (String "x" (String c d)) /\
              all_chars is_hex_digit (String c d) = true.
Proof.
  destruct s as [|c0 [|c1 [|c d]]]; try discriminate.
  unfold is_hex_string. intros H.
  apply andb_prop in H as [H Hd]. apply andb_prop in H as [H0 H1].
  apply is_char_true in H0 as <-. apply is_char_true in H1 as <-. eauto.
Qed.

(** [int(s, 16)] on a JSON-RPC hex string is the number it denotes. *)
Lemma int16_hex_string (s : string) :
  is_hex_string s = true -> int16 s = Ret (payload_value s).
Proof.
  intros H. destruct (hex_string_inv s H) as (c & d & -> & Hd).
  unfold int16, payload_value, hex_value.
  cbn [lstrip drop]. change (is_space "0") with false. cbv iota.
  unfold split_sign. change (is_char "+" "0") with false.
  change (is_char "-" "0") with false. cbv iota.
  unfold skip_prefix. change (is_char "0" "0") with true.
  change (is_char "x" "x") with true. cbn [andb orb].
  pose proof Hd as Hd'. simpl in Hd'. apply andb_prop in Hd' as [Hc Hs].
  rewrite (hex_digit_not_underscore c Hc). cbv iota.
  cbn [scan_digits]. rewrite (hex_digit_not_underscore c Hc).
  destruct (hex_digit_is_hex c Hc) as [v Hv]. rewrite Hv.
  rewrite scan_digits_hex by (auto using hex_digit_not_underscore).
  cbn [hex_value_from all_chars]. now rewrite Hv.
Qed.

Lemma payload_value_nonneg (s : string) : 0 <= payload_value s.
Proof. unfold payload_value. apply hex_value_range. Qed.

Lemma word32_inv (t : string) :
  is_word32 t = true ->
  exists h, t = String "0" (String "x" h) /\
            all_chars is_hex_digit h = true /\ String.length h = 64%nat.
Proof.
  unfold is_word32. intros H. apply andb_prop in H as [H Hlen].
  destruct (hex_string_inv t H) as (c & d & -> & Hd).
  exists (String c d). repeat split; [assumption|].
  apply Nat.eqb_eq in Hlen. simpl in Hlen. simpl. lia.
Qed.

Lemma lower_hex_all (s : string) :
  all_chars is_hex_digit s = true ->
  all_chars is_lower_hex (lower s) = true.
Proof.
  induction s as [|c s IH]; [reflexivity|].
  simpl. intros H. apply andb_prop in H as [Hc Hs].
  rewrite (IH Hs), andb_true_r. clear -Hc. revert Hc. each_ascii c.
Qed.

(** The address the decoder cuts out of a topic: well formed, and the low
    20 bytes of the word. *)
Lemma address_of_word (t : string) :
  is_word32 t = true ->
  let a := "0x" +:+ lower (slice_from t (-40)) in
  is_address a = true /\ payload_value a = low20 (payload_value t).
Proof.
  intros H. destruct (word32_inv t H) as (h & -> & Hh & Hlen).
  change (-40) with (- Z.of_nat 40).
  rewrite slice_from_last by (simpl; lia).
  cbn [String.length]. rewrite Hlen.
  change (drop (S (S 64) - 40) (String "0" (String "x" h))) with (drop 24 h).
  cbv zeta. split.
  - change ("0x" +:+ lower (drop 24 h))
      with (String "0" (String "x" (lower (drop 24 h)))).
    unfold is_address. rewrite !is_char_refl. cbn [andb].
    rewrite lower_hex_all by now apply all_chars_drop.
    rewrite length_lower, length_drop, Hlen. reflexivity.
  - unfold payload_value, low20.
    change (drop 2 ("0x" +:+ lower (drop 24 h))) with (lower (drop 24 h)).
    change (drop 2 (String "0" (String "x" h))) with h.
    unfold hex_value at 1. rewrite hex_value_from_lower.
    fold (hex_value (drop 24 h)). rewrite hex_value_drop by lia.
    rewrite Hlen. reflexivity.
Qed.


(** C2, as amended. A log whose first topic is the Transfer signature, whose
    next two topics are 32-byte words, and whose value field (the fourth
    topic when there is one, the data payload otherwise) and block number
    are hex strings with at least one digit, decodes to an event: [from]
    and [to] are the low 20 bytes of topics 1 and 2, the value is the
    unsigned big-endian integer of the value field and is not negative.
    A log with at most two topics, or with another first topic, gives no
    event. *)
Theorem decode_log_transfer :
  (forall log t1 t2 extra,
      log_topics log = Some (ERC20_SIG :: t1 :: t2 :: extra) ->
      is_word32 t1 = true ->
      is_word32 t2 = true ->
      is_hex_string (value_field log extra) = true ->
      is_hex_string (get (log_blockNumber log) "0x0") = true ->
      exists ev,
        decode_log log = Ret (Some ev) /\
        is_address (ev_from ev) = true /\
        payload_value (ev_from ev) = low20 (payload_value t1) /\
        is_address (ev_to ev) = true /\
        payload_value (ev_to ev) = low20 (payload_value t2) /\
        ev_value ev = match extra with
                      | t3 :: _ => payload_value t3
                      | [] => payload_value (get (log_data log) "0x0")
                      end /\
        0 <= ev_value ev) /\
  (forall log,
      (length (get (log_topics log) []) <= 2)%nat ->
      decode_log log = Ret None) /\
  (forall log t0 rest,
      log_topics log = Some (t0 :: rest) ->
      t0 <> ERC20_SIG ->
      decode_log log = Ret None).
Proof.
  split; [|split].
  - intros log t1 t2 extra Ht H1 H2 Hv Hb.
    destruct (address_of_word t1 H1) as [Ha1 Hl1].
    destruct (address_of_word t2 H2) as [Ha2 Hl2].
    unfold decode_log. rewrite Ht. cbn [get].
    rewrite String.eqb_refl. cbn [negb].
    assert (match extra with
            | t3 :: _ => int16 t3
            | [] => int16 (get (log_data log) "0x0")
            end = Ret (payload_value (value_field log extra))) as ->.
    { unfold value_field in *. destruct extra; now apply int16_hex_string. }
    rewrite (int16_hex_string _ Hb). cbn [res_bind].
    eexists. split; [reflexivity|]. cbn [ev_from ev_to ev_value].
    repeat split; try assumption.
    + unfold value_field. now destruct extra.
    + apply payload_value_nonneg.
  - intros log Hlen. unfold decode_log.
    destruct (get (log_topics log) []) as [|t0 [|t1 [|t2 rest]]];
      try reflexivity.
    + now destruct (negb (String.eqb t0 ERC20_SIG)).
    + now destruct (negb (String.eqb t0 ERC20_SIG)).
    + simpl in Hlen. lia.
  - intros log t0 rest Ht Hne. unfold decode_log. rewrite Ht. cbn [get].
    destruct (String.eqb_spec t0 ERC20_SIG) as [->|_]; [contradiction|].
    reflexivity.
Qed.

(** The theorem at a standard transfer of 10^18 units to the watched
    address, at a log with two topics, and at an Approval log. *)
Lemma decode_log_transfer_witness :
  (exists ev,
      decode_log Scenarios.transfer_log = Ret (Some ev) /\
      payload_value (ev_from ev) = low20 (payload_value Scenarios.topic_other) /\
      payload_value (ev_to ev) = low20 (payload_value Scenarios.topic_watch) /\
      ev_value ev = 10 ^ 18) /\
  decode_log Scenarios.two_topic_log = Ret None /\
  decode_log Scenarios.approval_log = Ret None.
Proof.
  destruct decode_log_transfer as (Hevent & Hshort & Hother).
  split; [|split].
  - destruct (Hevent Scenarios.transfer_log Scenarios.topic_other
                Scenarios.topic_watch [])
      as (ev & Hev & _ & Hfrom & _ & Hto & Hval & _); try reflexivity.
    exists ev. repeat split; assumption.
  - apply Hshort. simpl. lia.
  - eapply Hother; [reflexivity|]. intros H. discriminate H.
Defined.

(** C2 as stated fails: a log with the Transfer signature and three topics
    whose data payload is empty ([0x]) does not decode to an event;
    [int("0x", 16)] raises. The same happens when the payload is a number
    and the block number is [0x]. *)
Lemma decode_log_empty_data_no_event :
  (log_topics Scenarios.empty_data_log
   = Some [ERC20_SIG; Scenarios.topic_other; Scenarios.topic_watch] /\
   ~ exists ev, decode_log Scenarios.empty_data_log = Ret (Some ev)) /\
  (log_topics Scenarios.empty_block_number_log
   = Some [ERC20_SIG; Scenarios.topic_other; Scenarios.topic_watch] /\
   ~ exists ev, decode_log Scenarios.empty_block_number_log = Ret (Some ev)).
Proof.
  split; (split; [reflexivity|]); intros [ev Hev];
    vm_compute in Hev; discriminate.
Qed.

End DecoderFacts.

(** ** EndpointSelector *)

Module SelectorFacts.

Import Selector.

Lemma key_gt_false (a b : Z * Z) :
  key_gt a b = false <->
  fst a < fst b \/ (fst a = fst b /\ snd a <= snd b).
Proof.
  unfold key_gt. destruct (Z.eqb_spec (fst a) (fst b)) as [E|E]; cbn [negb].
  - rewrite Z.ltb_ge. lia.
  - rewrite Z.ltb_ge. lia.
Qed.

Lemma max_from_in (best : string * (Z * Z)) items :
  In (max_from best items) (best :: items).
Proof.
  revert best. induction items as [|x xs IH]; intros best; [now left|].
  cbn [max_from].
  destruct (IH (if key_gt (item_key x) (item_key best) then x else best))
    as [<-|H].
  - destruct (key_gt (item_key x) (item_key best)); simpl; auto.
  - right. now right.
Qed.

Lemma max_from_start (best : string * (Z * Z)) items :
  key_gt (item_key best) (item_key (max_from best items)) = false.
Proof.
  revert best. induction items as [|x xs IH]; intros best.
  - apply key_gt_false. simpl. lia.
  - cbn [max_from].
    specialize (IH (if key_gt (item_key x) (item_key best) then x else best)).
    destruct (key_gt (item_key x) (item_key best)) eqn:E; [|exact IH].
    apply key_gt_false in IH. apply key_gt_false.
    unfold key_gt in E.
    destruct (Z.eqb_spec (fst (item_key x)) (fst (item_key best)));
      cbn [negb] in E; apply Z.ltb_lt in E; lia.
Qed.

(** No item has a key above the one [max] returns. *)
Lemma max_from_max (best : string * (Z * Z)) items y :
  In y (best :: items) ->
  key_gt (item_key y) (item_key (max_from best items)) = false.
Proof.
  revert best. induction items as [|x xs IH]; intros best Hy.
  - destruct Hy as [<-|[]]. apply max_from_start.
  - cbn [max_from]. destruct Hy as [<-|[<-|Hy]].
    + pose proof (max_from_start
        (if key_gt (item_key x) (item_key best) then x else best) xs) as H.
      destruct (key_gt (item_key x) (item_key best)) eqn:E; [|exact H].
      apply key_gt_false in H. apply key_gt_false.
      unfold key_gt in E.
      destruct (Z.eqb_spec (fst (item_key x)) (fst (item_key best)));
        cbn [negb] in E; apply Z.ltb_lt in E; lia.
    + pose proof (max_from_start
        (if key_gt (item_key x) (item_key best) then x else best) xs) as H.
      destruct (key_gt (item_key x) (item_key best)) eqn:E; [exact H|].
      apply key_gt_false in H, E. apply key_gt_false. lia.
    + apply IH. now right.
Qed.

Lemma dict_set_fresh {V : Type} (d : list (string * V)) (k : string) (v : V) :
  ~ In k (List.map fst d) -> dict_set d k v = d ++ [(k, v)].
Proof.
  induction d as [|[k' v'] d IH]; intros Hk; [reflexivity|].
  cbn [dict_set]. destruct (String.eqb_spec k' k) as [->|_].
  - exfalso. apply Hk. now left.
  - cbn [app]. f_equal. apply IH. intros H. apply Hk. now right.
Qed.

(** With no endpoint listed twice, the dict holds exactly the probe
    results with a positive height. *)
Lemma record_all (ps : list (string * Z * Z)) (d : list (string * (Z * Z))) :
  List.NoDup (List.map name ps) ->
  (forall p, In p ps -> ~ In (name p) (List.map fst d)) ->
  forall n h lat,
    In (n, (h, lat)) (fold_left record ps d) <->
    In (n, (h, lat)) d \/ (In (n, h, lat) ps /\ 0 < h).
Proof.
  revert d. induction ps as [|[[n0 h0] l0] ps IH]; intros d Hnd Hfresh n h lat.
  - simpl. tauto.
  - cbn [fold_left]. inversion Hnd as [|? ? Hn0 Hnd']; subst.
    assert (~ In n0 (List.map fst d)) as Hd.
    { apply (Hfresh (n0, h0, l0)). now left. }
    rewrite IH; [| assumption |].
    + unfold record. destruct (Z.ltb_spec 0 h0) as [Hpos|Hneg].
      * rewrite dict_set_fresh by assumption. rewrite in_app_iff. simpl.
        split.
        -- intros [[H|[[= <- <- <-]|[]]]|[H Hh]]; auto.
        -- intros [H|[[[= <- <- <-]|H] Hh]]; auto.
      * simpl. split.
        -- intros [H|[H Hh]]; auto.
        -- intros [H|[[[= <- <- <-]|H] Hh]]; auto. lia.
    + intros p Hp Hin. unfold record in Hin.
      destruct (0 <? h0).
      * rewrite dict_set_fresh in Hin by assumption.
        rewrite map_app, in_app_iff in Hin. destruct Hin as [Hin|[Hin|[]]].
        -- apply (Hfresh p); [now right|assumption].
        -- apply Hn0. change (In n0 (List.map name ps)).
           simpl in Hin. rewrite Hin. exact (in_map name ps p Hp).
      * apply (Hfresh p); [now right|assumption].
Qed.

Lemma probe_results_names probe i nodes ps :
  probe_results probe i nodes = Ret ps -> List.map name ps = nodes.
Proof.
  revert i ps. induction nodes as [|n nodes IH]; intros i ps H.
  - injection H as <-. reflexivity.
  - cbn [probe_results] in H. unfold check_rpc in H.
    destruct (get_latest_block (fst (probe i n))) as [blk|]; [|discriminate].
    cbn [res_bind] in H.
    destruct (probe_results probe (S i) nodes) as [rs|] eqn:E; [|discriminate].
    injection H as <-. simpl. f_equal. now apply (IH (S i)).
Qed.

Lemma collect_results probe i nodes ps d :
  probe_results probe i nodes = Ret ps ->
  collect probe i nodes d = Ret (fold_left record ps d).
Proof.
  revert i ps d. induction nodes as [|n nodes IH]; intros i ps d H.
  - injection H as <-. reflexivity.
  - cbn [probe_results collect] in *.
    destruct (check_rpc n (probe i n)) as [r|]; [|discriminate].
    cbn [res_bind] in *.
    destruct (probe_results probe (S i) nodes) as [rs|] eqn:E; [|discriminate].
    injection H as <-. cbn [fold_left]. now apply IH.
Qed.

Lemma record_nothing (ps : list (string * Z * Z)) (d : list (string * (Z * Z))) :
  (forall n h lat, In (n, h, lat) ps -> h <= 0) ->
  fold_left record ps d = d.
Proof.
  revert d. induction ps as [|[[n h] lat] ps IH]; intros d Hps; [reflexivity|].
  cbn [fold_left]. unfold record at 2.
  destruct (Z.ltb_spec 0 h) as [Hpos|_].
  - specialize (Hps n h lat (or_introl eq_refl)). lia.
  - apply IH. intros n' h' lat' Hin. apply (Hps n' h' lat'). now right.
Qed.

(** Without a positive height the selection is the first configured
    endpoint, at height 0. *)
Lemma get_best_rpc_none_positive first rest probe ps :
  probe_results probe 0 (first :: rest) = Ret ps ->
  (forall n h lat, In (n, h, lat) ps -> h <= 0) ->
  get_best_rpc (first :: rest) probe = Ret (first, 0).
Proof.
  intros Hps Hnone. unfold get_best_rpc.
  rewrite (collect_results _ _ _ _ _ Hps), record_nothing by assumption.
  reflexivity.
Qed.

(** The selection in terms of the list of probe results. *)
Lemma best_of_probe_results
    (RPCS : list string) (probe : nat -> string -> Probe)
    (ps : list (string * Z * Z)) :
  List.NoDup RPCS ->
  probe_results probe 0 RPCS = Ret ps ->
  (forall n h lat, In (n, h, lat) ps -> 0 < h -> has_host n = true) ->
  (exists n h lat, In (n, h, lat) ps /\ 0 < h) ->
  exists n h lat,
    get_best_rpc RPCS probe = Ret (n, h) /\
    In (n, h, lat) ps /\
    forall n' h' lat',
      In (n', h', lat') ps -> h' <= h /\ (h' = h -> lat <= lat').
Proof.
  intros Hnd Hps Hurl (n1 & h1 & l1 & Hin1 & Hpos1).
  pose proof (probe_results_names _ _ _ _ Hps) as Hnames.
  assert (forall n h lat,
             In (n, (h, lat)) (fold_left record ps []) <->
             In (n, h, lat) ps /\ 0 < h) as Hdict.
  { intros n h lat. rewrite record_all.
    - simpl. tauto.
    - now rewrite Hnames.
    - intros p _ []. }
  unfold get_best_rpc. destruct RPCS as [|first rest].
  { destruct ps; [destruct Hin1|discriminate]. }
  rewrite (collect_results _ _ _ _ _ Hps). cbn [res_bind].
  destruct (fold_left record ps []) as [|x xs] eqn:Ed.
  { exfalso. apply (proj2 (Hdict n1 h1 l1)). now split. }
  set (best := max_from x xs).
  pose proof (max_from_in x xs) as Hbest. fold best in Hbest.
  destruct best as [n [h lat]] eqn:Eb.
  apply Hdict in Hbest as [Hbest Hpos]. cbn [fst snd].
  assert ((PyStr.count_char "/" n <? 2)%nat = false) as ->.
  { specialize (Hurl n h lat Hbest Hpos). unfold has_host in Hurl.
    apply Nat.leb_le in Hurl. apply Nat.ltb_ge. exact Hurl. }
  exists n, h, lat. split; [reflexivity|]. split; [assumption|].
  intros n' h' lat' Hin'.
  destruct (Z.lt_ge_cases 0 h') as [Hpos'|Hneg']; [|lia].
  assert (In (n', (h', lat')) (x :: xs)) as Hx by (apply Hdict; now split).
  pose proof (max_from_max x xs _ Hx) as Hmax. fold best in Hmax.
  rewrite Eb in Hmax. apply key_gt_false in Hmax. simpl in Hmax. lia.
Qed.

(** The probe results, when every probe returns, are the heights and
    latencies that the probes observed, in the order of the list. *)
Lemma probe_results_total probe i nodes :
  (forall j n, nth_error nodes j = Some n ->
               exists h, get_latest_block (fst (probe (i + j)%nat n)) = Ret h) ->
  exists ps, probe_results probe i nodes = Ret ps.
Proof.
  revert i. induction nodes as [|m nodes IH]; intros i Hall.
  - exists []. reflexivity.
  - cbn [probe_results]. unfold check_rpc.
    destruct (Hall 0%nat m eq_refl) as [h Hh]. rewrite Nat.add_0_r in Hh.
    rewrite Hh. cbn [res_bind].
    destruct (IH (S i)) as [ps ->].
    + intros j n Hj. destruct (Hall (S j) n Hj) as [h' Hh'].
      rewrite Nat.add_succ_r in Hh'. eauto.
    + cbn [res_bind]. eauto.
Qed.

Lemma probe_results_in probe i nodes ps :
  probe_results probe i nodes = Ret ps ->
  forall n h lat,
    In (n, h, lat) ps <->
    exists j, nth_error nodes j = Some n /\
              get_latest_block (fst (probe (i + j)%nat n)) = Ret h /\
              snd (probe (i + j)%nat n) = lat.
Proof.
  revert i ps. induction nodes as [|m nodes IH]; intros i ps H n h lat.
  - injection H as <-. split; [intros []|].
    intros (j & Hj & _). destruct j; discriminate.
  - cbn [probe_results] in H. unfold check_rpc in H.
    destruct (get_latest_block (fst (probe i m))) as [blk|e] eqn:Hb;
      [|discriminate].
    cbn [res_bind] in H.
    destruct (probe_results probe (S i) nodes) as [rs|e] eqn:Hrs;
      [|discriminate].
    cbn [res_bind] in H. injection H as <-.
    specialize (IH (S i) rs Hrs n h lat). split.
    + intros [E|Hin].
      * injection E as <- <- <-. exists 0%nat. rewrite Nat.add_0_r. auto.
      * apply IH in Hin. destruct Hin as (j & Hj & Hh & Hl).
        exists (S j). rewrite Nat.add_succ_r. auto.
    + intros (j & Hj & Hh & Hl). destruct j as [|j].
      * injection Hj as ->. rewrite Nat.add_0_r in Hh, Hl.
        rewrite Hb in Hh. injection Hh as ->. left. now rewrite Hl.
      * right. apply IH. exists j. rewrite Nat.add_succ_r in Hh, Hl. auto.
Qed.

(** A probe that raises makes the collection raise. *)
Lemma collect_raises probe i nodes d j n e :
  nth_error nodes j = Some n ->
  get_latest_block (fst (probe (i + j)%nat n)) = Exc e ->
  exists e', collect probe i nodes d = Exc e'.
Proof.
  revert i d j. induction nodes as [|m nodes IH]; intros i d j Hj He.
  - destruct j; discriminate.
  - cbn [collect]. unfold check_rpc.
    destruct j as [|j].
    + injection Hj as ->. rewrite Nat.add_0_r in He. rewrite He.
      cbn [res_bind]. eauto.
    + destruct (get_latest_block (fst (probe i m))) as [blk|e0];
        cbn [res_bind]; [|eauto].
      apply (IH (S i) _ j); [exact Hj|].
      now rewrite Nat.add_succ_r in He.
Qed.

(** C4, as amended. The configured endpoints are pairwise distinct, every
    probe returned a height, and at least one height is positive. Then
    the selection returns an endpoint together with the height its probe
    reported; no probe reported a greater height, and no probe that
    reported the same height measured a smaller latency. [probe j n] is
    what the probe of the [j]-th endpoint observed: the reply and the
    measured latency. The third hypothesis is about the HTTP library: a
    URL without scheme and host part gets no reply, since the POST raises
    and [rpc] returns [None]; so an endpoint with a positive height has a
    host part, which the log line of line 74 relies on. *)
Theorem get_best_rpc_highest_then_fastest
    (RPCS : list string) (probe : nat -> string -> Probe) :
  List.NoDup RPCS ->
  (forall j n, nth_error RPCS j = Some n ->
               exists h, get_latest_block (fst (probe j n)) = Ret h) ->
  (forall j n, nth_error RPCS j = Some n -> has_host n = false ->
               fst (probe j n) = NoReply) ->
  (exists j n h,
      nth_error RPCS j = Some n /\
      get_latest_block (fst (probe j n)) = Ret h /\ 0 < h) ->
  exists j n h,
    get_best_rpc RPCS probe = Ret (n, h) /\
    nth_error RPCS j = Some n /\
    get_latest_block (fst (probe j n)) = Ret h /\
    forall j' n' h',
      nth_error RPCS j' = Some n' ->
      get_latest_block (fst (probe j' n')) = Ret h' ->
      h' <= h /\ (h' = h -> snd (probe j n) <= snd (probe j' n')).
Proof.
  intros Hnd Hall Hreach (j1 & n1 & h1 & Hj1 & Hh1 & Hpos1).
  assert (forall j n h,
             nth_error RPCS j = Some n ->
             get_latest_block (fst (probe j n)) = Ret h -> 0 < h ->
             has_host n = true) as Hurl.
  { intros j n h Hj Hh Hpos. destruct (has_host n) eqn:E; [reflexivity|].
    rewrite (Hreach j n Hj E) in Hh. cbn in Hh. injection Hh as <-. lia. }
  destruct (probe_results_total probe 0 RPCS Hall) as [ps Hps].
  pose proof (probe_results_in probe 0 RPCS ps Hps) as Hin.
  destruct (best_of_probe_results RPCS probe ps Hnd Hps)
    as (n & h & lat & Hsel & Hbest & Hmax).
  - intros n h lat Hn Hpos. apply Hin in Hn. destruct Hn as (j & Hj & Hh & _).
    now apply (Hurl j n h).
  - exists n1, h1, (snd (probe j1 n1)). split; [|assumption].
    apply Hin. exists j1. auto.
  - apply Hin in Hbest. destruct Hbest as (j & Hj & Hh & Hl).
    cbn [Nat.add] in Hh, Hl.
    exists j, n, h. repeat split; try assumption.
    + apply (Hmax n' h' (snd (probe j' n'))). apply Hin. exists j'. auto.
    + intros E. rewrite Hl.
      apply (Hmax n' h' (snd (probe j' n'))); [|exact E].
      apply Hin. exists j'. auto.
Qed.

(** The theorem at two endpoints that are both at height 105, A with
    latency 50 and B with latency 10: B is selected, although A comes
    first in the list. *)
Lemma get_best_rpc_highest_then_fastest_witness :
  get_best_rpc Scenarios.endpoints MoreScenarios.tied
  = Ret (Scenarios.endpoint_b, 105) /\
  exists j n h,
    get_best_rpc Scenarios.endpoints MoreScenarios.tied = Ret (n, h) /\
    nth_error Scenarios.endpoints j = Some n /\
    get_latest_block (fst (MoreScenarios.tied j n)) = Ret h /\
    forall j' n' h',
      nth_error Scenarios.endpoints j' = Some n' ->
      get_latest_block (fst (MoreScenarios.tied j' n')) = Ret h' ->
      h' <= h /\
      (h' = h -> snd (MoreScenarios.tied j n) <= snd (MoreScenarios.tied j' n')).
Proof.
  split; [reflexivity|].
  apply (get_best_rpc_highest_then_fastest Scenarios.endpoints
           MoreScenarios.tied).
  - repeat constructor; simpl; intuition discriminate.
  - intros j n Hj. destruct j as [|[|j]]; cbn in Hj.
    + injection Hj as <-. exists 105. reflexivity.
    + injection Hj as <-. exists 105. reflexivity.
    + destruct j; discriminate.
  - intros j n Hj Hn. destruct j as [|[|j]]; cbn in Hj.
    + injection Hj as <-. discriminate Hn.
    + injection Hj as <-. discriminate Hn.
    + destruct j; discriminate.
  - exists 0%nat, Scenarios.endpoint_a, 105.
    split; [reflexivity|]. split; [reflexivity|]. lia.
Defined.

(** C4 as stated fails. With [endpoint_a] at height 100 and [endpoint_b]
    answering with the result [null], an endpoint reports a positive
    height and the selection raises. And in a list that names
    [endpoint_a] twice, the later probe of [endpoint_a] replaces the
    earlier one: [endpoint_a] reported height 100, the greatest, and the
    selection returns [endpoint_b] at height 95. *)
Lemma one_reply_defeats_selection :
  (get_latest_block (fst (MoreScenarios.b_null 0 Scenarios.endpoint_a))
   = Ret 100 /\
   get_best_rpc Scenarios.endpoints MoreScenarios.b_null = Exc TypeError) /\
  (get_latest_block (fst (MoreScenarios.a_falls_back 0 Scenarios.endpoint_a))
   = Ret 100 /\
   get_latest_block (fst (MoreScenarios.a_falls_back 1 Scenarios.endpoint_b))
   = Ret 95 /\
   get_latest_block (fst (MoreScenarios.a_falls_back 2 Scenarios.endpoint_a))
   = Ret 90 /\
   get_best_rpc MoreScenarios.a_twice MoreScenarios.a_falls_back
   = Ret (Scenarios.endpoint_b, 95)).
Proof. repeat split. Qed.

End SelectorFacts.

(** ** SymbolResolver *)

Module SymbolFacts.

Import PyStr PyStrFacts Symbol.

(** The static branch never looks at the reply: [hexstr[128:]] of a text
    of at most 128 characters is empty. *)
Lemma decode_symbol_static utf8_decode_ignore (result : string) :
  utf8_decode_ignore [] = "" ->
  (String.length result <= 130)%nat ->
  decode_symbol utf8_decode_ignore result = Ret "".
Proof.
  intros Hempty Hlen. unfold decode_symbol.
  set (hexstr := slice_from result 2).
  assert (len hexstr <= 128) as Hshort.
  { unfold hexstr, slice_from, len. rewrite length_drop.
    unfold clamp, len. cbn [Z.ltb Z.compare]. lia. }
  destruct (Z.ltb_spec 128 (len hexstr)) as [Hlong|_]; [lia|].
  rewrite slice_from_beyond by assumption.
  cbn [res_bind rstrip]. change (fromhex "") with (@Ret (list Byte.byte) []).
  cbn [res_bind]. rewrite Hempty. reflexivity.
Qed.

(** C7 fails on the code. For every token that is not cached yet and every
    reply of at most 128 hex characters after the [0x], [get_symbol]
    returns and caches the sentinel [UNK], whatever symbol the reply
    holds. *)
Theorem get_symbol_static_gives_UNK utf8_decode_ignore
    (result token_addr : string) (symbol_cache : gmap string string) :
  utf8_decode_ignore [] = "" ->
  symbol_cache !! token_addr = None ->
  (String.length result <= 130)%nat ->
  get_symbol utf8_decode_ignore (Reply result) token_addr symbol_cache
  = ("UNK", <[token_addr := "UNK"]> symbol_cache).
Proof.
  intros Hempty Hmiss Hlen. unfold get_symbol. rewrite Hmiss.
  destruct (negb (String.eqb result "") && negb (String.eqb result "0x"));
    [|reflexivity].
  now rewrite decode_symbol_static.
Qed.

(** The theorem at a reply that holds HYPE in one 32-byte slot. *)
Lemma get_symbol_static_gives_UNK_witness :
  get_symbol decode_ascii_only (Reply Scenarios.hype_static)
    Scenarios.token_contract ∅
  = ("UNK", <[Scenarios.token_contract := "UNK"]> ∅).
Proof.
  apply get_symbol_static_gives_UNK.
  - reflexivity.
  - apply lookup_empty.
  - apply Nat.leb_le. vm_compute. reflexivity.
Defined.

(** The other branch does decode: the same symbol in the dynamic layout
    is returned. *)
Example get_symbol_dynamic_HYPE :
  fst (get_symbol decode_ascii_only (Reply Scenarios.hype_dynamic)
         Scenarios.token_contract ∅) = "HYPE".
Proof. vm_compute. reflexivity. Qed.

End SymbolFacts.

(** ** DeliveryQueue *)

Module DeliveryFacts.

Import Delivery.

Lemma run_app (s : State) (t1 t2 : list event) :
  run s (t1 ++ t2) = run (run s t1) t2.
Proof. apply fold_left_app. Qed.

Lemma run_produce (s : State) (ps : list Payload) :
  run s (List.map Produce ps)
  = mkState (zapier_queue s ++ ps) (in_flight s) (answered s).
Proof.
  revert s. induction ps as [|p ps IH]; intros s.
  - destruct s. simpl. now rewrite app_nil_r.
  - cbn [List.map run fold_left]. fold (run (step s (Produce p)) (List.map Produce ps)).
    rewrite IH. simpl. now rewrite <- app_assoc.
Qed.

(** A failed turn puts the head back in front of everything else. *)
Lemma turn_raises p rest done during :
  run (mkState (p :: rest) None done) (turn during PostRaises)
  = mkState (p :: rest ++ during) None done.
Proof.
  unfold turn. cbn [run fold_left step in_flight zapier_queue answered].
  fold (run (mkState rest (Some p) done) (List.map Produce during ++ [PostRaises])).
  rewrite run_app, run_produce. reflexivity.
Qed.

(** An answered turn removes the head, whatever the status code. *)
Lemma turn_returns p rest done during status :
  run (mkState (p :: rest) None done) (turn during (PostReturns status))
  = mkState (rest ++ during) None (done ++ [(p, status)]).
Proof.
  unfold turn. cbn [run fold_left step in_flight zapier_queue answered].
  fold (run (mkState rest (Some p) done)
          (List.map Produce during ++ [PostReturns status])).
  rewrite run_app, run_produce. reflexivity.
Qed.

Lemma in_order_step (s : State) (e : event) :
  in_order (step s e) = in_order s ++ produced [e].
Proof.
  destruct s as [q [p|] done]; destruct e as [p'| |status|];
    unfold in_order, pending; simpl; rewrite ?app_nil_r; try reflexivity.
  - now rewrite <- app_assoc.
  - rewrite map_app, <- app_assoc. reflexivity.
  - now rewrite <- app_assoc.
  - destruct q; reflexivity.
Qed.

Lemma produced_app (t1 t2 : list event) :
  produced (t1 ++ t2) = produced t1 ++ produced t2.
Proof.
  induction t1 as [|e t1 IH]; [reflexivity|].
  destruct e; simpl; now rewrite IH.
Qed.

(** C8. One turn of the worker on a queue with head [p], while the
    producer appends [during]: when the POST raises, [p] is back at the
    head and nothing was answered; when the POST returns a response, with
    any status code, [p] has left the queue for good. After any number of
    failed turns the first answered turn delivers [p], ahead of everything
    queued behind it. And under every interleaving of producer and
    worker steps the payloads keep their order of arrival: the answered
    ones, then the one in flight, then the queue. *)
Theorem zapier_worker_retry_and_order :
  (forall p rest done during,
      run (mkState (p :: rest) None done) (turn during PostRaises)
      = mkState (p :: rest ++ during) None done) /\
  (forall p rest done during status,
      run (mkState (p :: rest) None done) (turn during (PostReturns status))
      = mkState (rest ++ during) None (done ++ [(p, status)])) /\
  (forall p rest done (failed : list (list Payload)) during status,
      run (mkState (p :: rest) None done)
        (concat (List.map (fun d => turn d PostRaises) failed)
         ++ turn during (PostReturns status))
      = mkState (rest ++ concat failed ++ during) None
          (done ++ [(p, status)])) /\
  (forall s trace, in_order (run s trace) = in_order s ++ produced trace).
Proof.
  split; [exact turn_raises|]. split; [exact turn_returns|]. split.
  - intros p rest done failed. revert rest.
    induction failed as [|d failed IH]; intros rest during status.
    + cbn [List.map concat app]. now rewrite turn_returns.
    + cbn [List.map concat]. rewrite <- app_assoc, run_app, turn_raises.
      rewrite IH. now rewrite <- !app_assoc.
  - intros s trace. revert s.
    induction trace as [|e trace IH]; intros s.
    + simpl. now rewrite app_nil_r.
    + change (run s (e :: trace)) with (run (step s e) trace).
      rewrite IH, in_order_step.
      change (e :: trace) with ([e] ++ trace).
      now rewrite produced_app, app_assoc.
Qed.

End DeliveryFacts.

(** ** PollLoop and BlockRangeTracker *)

Module PollLoopFacts.

Import Decoder PollLoop.

(** The equations of the statement monad. *)
Lemma bind_lift {A B : Type} (r : res A) (k : A -> M B) (s : State) :
  bind (lift r) k s = match r with Ret a => k a s | Exc e => (Exc e, s) end.
Proof. now destruct r. Qed.

Lemma bind_read {A B : Type} (f : State -> A) (k : A -> M B) (s : State) :
  bind (read f) k s = k (f s) s.
Proof. reflexivity. Qed.

Lemma bind_update {B : Type} (f : State -> State) (k : unit -> M B) (s : State) :
  bind (update f) k s = k tt (f s).
Proof. reflexivity. Qed.

Lemma bind_pure {A B : Type} (a : A) (k : A -> M B) (s : State) :
  bind (pure a) k s = k a s.
Proof. reflexivity. Qed.

Lemma bind_raise {A B : Type} (e : exn) (k : A -> M B) (s : State) :
  bind (raise e) k s = (Exc e, s).
Proof. reflexivity. Qed.

Lemma bind_bind {A B C : Type} (m : M A) (k : A -> M B) (h : B -> M C)
    (s : State) :
  bind (bind m k) h s = bind m (fun a => bind (k a) h) s.
Proof. unfold bind. destruct (m s) as [[a|e] s']; reflexivity. Qed.

Section Iteration.

Variable RPCS : list string.
Variable utf8_decode_ignore : list Byte.byte -> string.
Variable env : Env.

Abbreviation process_logs := (PollLoop.process_logs utf8_decode_ignore env).
Abbreviation fetch_loop := (PollLoop.fetch_loop env).
Abbreviation periodic_check := (PollLoop.periodic_check RPCS env).
Abbreviation failed_query := (PollLoop.failed_query RPCS env).
Abbreviation track_and_process :=
  (PollLoop.track_and_process utf8_decode_ignore env).
Abbreviation body := (PollLoop.body RPCS utf8_decode_ignore env).
Abbreviation handler := (PollLoop.handler RPCS env).
Abbreviation tick := (PollLoop.tick RPCS utf8_decode_ignore env).

Lemma bind_get_symbol {B : Type} (token_addr : string) (k : string -> M B)
    (s : State) :
  let found := Symbol.get_symbol utf8_decode_ignore
                 (eth_call env (node s) token_addr) token_addr
                 (symbol_cache s) in
  bind (get_symbol utf8_decode_ignore env token_addr) k s
  = k (fst found) (set_symbol_cache (snd found) s).
Proof.
  cbv zeta. unfold bind, get_symbol.
  now destruct (Symbol.get_symbol _ _ _ _).
Qed.

Lemma made_from_cons lg logs p : made_from logs p -> made_from (lg :: logs) p.
Proof.
  intros (lg' & ev & Hin & H). exists lg', ev. split; [now right|exact H].
Qed.

(** The log loop writes the three containers and nothing else; what it
    adds to the queue was made from relevant logs of the batch. *)
Lemma process_logs_effect i logs count s :
  let s' := snd (process_logs i logs count s) in
  node s' = node s /\ last_block s' = last_block s /\
  consecutive_errors s' = consecutive_errors s /\
  blocks_behind s' = blocks_behind s /\ requested s' = requested s /\
  exists sent,
    zapier_queue s' = zapier_queue s ++ sent /\ Forall (made_from logs) sent.
Proof.
  revert i count s. induction logs as [|lg logs IH]; intros i count s.
  { simpl. repeat split; try reflexivity. exists []. now rewrite app_nil_r. }
  assert (forall s0 : State,
             node s0 = node s -> last_block s0 = last_block s ->
             consecutive_errors s0 = consecutive_errors s ->
             blocks_behind s0 = blocks_behind s -> requested s0 = requested s ->
             forall sent0, zapier_queue s0 = zapier_queue s ++ sent0 ->
             Forall (made_from (lg :: logs)) sent0 ->
             forall i' count',
             let s' := snd (process_logs i' logs count' s0) in
             node s' = node s /\ last_block s' = last_block s /\
             consecutive_errors s' = consecutive_errors s /\
             blocks_behind s' = blocks_behind s /\ requested s' = requested s /\
             exists sent,
               zapier_queue s' = zapier_queue s ++ sent /\
               Forall (made_from (lg :: logs)) sent) as Hrest.
  { intros s0 H1 H2 H3 H4 H5 sent0 Hq Hsent0 i' count'.
    destruct (IH i' count' s0) as (G1 & G2 & G3 & G4 & G5 & sent & Gq & Gs).
    cbv zeta. repeat split; try congruence.
    exists (sent0 ++ sent). split.
    - rewrite Gq, Hq. now rewrite app_assoc.
    - apply List.Forall_app. split; [assumption|].
      eapply List.Forall_impl; [|exact Gs]. apply made_from_cons. }
  assert (forall s0 : State,
             node s0 = node s -> last_block s0 = last_block s ->
             consecutive_errors s0 = consecutive_errors s ->
             blocks_behind s0 = blocks_behind s -> requested s0 = requested s ->
             zapier_queue s0 = zapier_queue s ->
             node s0 = node s /\ last_block s0 = last_block s /\
             consecutive_errors s0 = consecutive_errors s /\
             blocks_behind s0 = blocks_behind s /\ requested s0 = requested s /\
             exists sent,
               zapier_queue s0 = zapier_queue s ++ sent /\
               Forall (made_from (lg :: logs)) sent) as Hstop.
  { intros s0 H1 H2 H3 H4 H5 Hq. repeat split; try assumption.
    exists []. rewrite app_nil_r. split; [assumption|constructor]. }
  cbn [PollLoop.process_logs]. rewrite bind_lift.
  destruct (decode_log lg) as [[ev|]|e] eqn:Hdec.
  - destruct (relevant ev) eqn:Hrel; cbn [negb].
    + rewrite bind_read.
      destruct (existsb (String.eqb (ev_txHash ev)) (processed_txs s)).
      * apply (Hrest s) with (sent0 := []); try reflexivity;
          [now rewrite app_nil_r|constructor].
      * rewrite bind_update, bind_get_symbol.
        match goal with
        | |- context [make_payload env i ev ?x] => set (sym := x)
        end.
        rewrite bind_lift. destruct (true_div (ev_value ev)).
        -- unfold send_to_zapier. rewrite bind_update.
           apply Hrest with
             (sent0 := [make_payload env i ev sym]); try reflexivity.
           constructor; [|constructor].
           exists lg, ev. repeat split; try assumption. now left.
        -- apply Hstop; reflexivity.
    + apply (Hrest s) with (sent0 := []); try reflexivity;
          [now rewrite app_nil_r|constructor].
  - apply (Hrest s) with (sent0 := []); try reflexivity;
          [now rewrite app_nil_r|constructor].
  - apply Hstop; reflexivity.
Qed.

(** [get_transfer_logs_batch] writes nothing but the history, and asks
    for no block below the one it starts at. *)
Lemma fetch_loop_effect fuel n current end_block acc s :
  let s' := snd (fetch_loop fuel n current end_block acc s) in
  node s' = node s /\ last_block s' = last_block s /\
  consecutive_errors s' = consecutive_errors s /\
  blocks_behind s' = blocks_behind s /\ zapier_queue s' = zapier_queue s /\
  exists new,
    requested s' = requested s ++ new /\
    Forall (fun r => current <= fst r) new.
Proof.
  revert current acc s. induction fuel as [|fuel IH]; intros current acc s.
  { simpl. repeat split; try reflexivity. exists []. now rewrite app_nil_r. }
  cbn [PollLoop.fetch_loop].
  destruct (Z.leb_spec current end_block) as [Hle|Hgt].
  2: { simpl. repeat split; try reflexivity. exists []. now rewrite app_nil_r. }
  rewrite bind_update.
  set (batch_end := Z.min (current + BATCH_SIZE - 1) end_block).
  assert (current <= batch_end) as Hbe by (unfold batch_end, BATCH_SIZE; lia).
  set (s1 := set_requested (requested s ++ [(current, batch_end)]) s).
  assert (forall acc',
    let s' := snd (fetch_loop fuel n (batch_end + 1) end_block acc' s1) in
    node s' = node s /\ last_block s' = last_block s /\
    consecutive_errors s' = consecutive_errors s /\
    blocks_behind s' = blocks_behind s /\ zapier_queue s' = zapier_queue s /\
    exists new,
      requested s' = requested s ++ new /\
      Forall (fun r => current <= fst r) new) as Hnext.
  { intros acc'.
    destruct (IH (batch_end + 1) acc' s1) as (G1 & G2 & G3 & G4 & G5 & new & Gr & Gn).
    cbv zeta. repeat split; try assumption.
    exists ((current, batch_end) :: new). split.
    - rewrite Gr. unfold s1. simpl. now rewrite <- app_assoc.
    - constructor; [simpl; lia|].
      eapply List.Forall_impl; [|exact Gn]. simpl. intros r Hr. lia. }
  destruct (get_logs env n current batch_end) as [| |logs].
  - rewrite bind_pure. apply Hnext.
  - rewrite bind_raise. simpl. repeat split; try reflexivity.
    exists [(current, batch_end)]. split; [reflexivity|].
    constructor; [simpl; lia|constructor].
  - rewrite bind_pure. apply Hnext.
Qed.

(** The fuel of [get_transfer_logs_batch] is enough: the loop ends because
    its condition fails, and more fuel changes nothing. *)
Lemma fetch_loop_fuel fuel1 fuel2 n current end_block acc s :
  (Z.to_nat (end_block - current + 1) <= fuel1)%nat ->
  (Z.to_nat (end_block - current + 1) <= fuel2)%nat ->
  fetch_loop fuel1 n current end_block acc s
  = fetch_loop fuel2 n current end_block acc s.
Proof.
  revert fuel2 current acc s.
  induction fuel1 as [|fuel1 IH]; intros fuel2 current acc s H1 H2.
  - destruct fuel2 as [|fuel2]; [reflexivity|].
    cbn [PollLoop.fetch_loop].
    destruct (Z.leb_spec current end_block); [lia|reflexivity].
  - cbn [PollLoop.fetch_loop].
    destruct (Z.leb_spec current end_block) as [Hle|Hgt].
    + destruct fuel2 as [|fuel2]; [lia|]. cbn [PollLoop.fetch_loop].
      destruct (Z.leb_spec current end_block) as [_|]; [|lia].
      rewrite !bind_update.
      set (batch_end := Z.min (current + BATCH_SIZE - 1) end_block).
      assert (current <= batch_end)
        by (unfold batch_end, BATCH_SIZE; lia).
      destruct (get_logs env n current batch_end) as [| |logs];
        rewrite ?bind_pure, ?bind_raise; try reflexivity; apply IH; lia.
    + destruct fuel2 as [|fuel2]; [reflexivity|].
      cbn [PollLoop.fetch_loop].
      destruct (Z.leb_spec current end_block); [lia|reflexivity].
Qed.

(** The range [1, 250] is asked for in three calls. *)
Example get_transfer_logs_batch_chunks :
  requested
    (snd (get_transfer_logs_batch Scenarios.far_behind Scenarios.endpoint_a
            1 250 (Scenarios.watching Scenarios.endpoint_a 0)))
  = [(1, 100); (101, 200); (201, 250)].
Proof. vm_compute. reflexivity. Qed.

(** A range of at most [BATCH_SIZE] blocks is asked for in one call. *)
Lemma get_transfer_logs_batch_single n a b s :
  a <= b -> b - a + 1 <= BATCH_SIZE ->
  requested (snd (get_transfer_logs_batch env n a b s))
  = requested s ++ [(a, b)].
Proof.
  intros Hab Hsize. unfold get_transfer_logs_batch.
  destruct (Z.to_nat (b - a + 1)) as [|fuel] eqn:Hfuel; [lia|].
  cbn [PollLoop.fetch_loop].
  destruct (Z.leb_spec a b) as [_|Hgt]; [|lia].
  rewrite bind_update. rewrite Z.min_r by lia.
  assert (forall acc s1,
             snd (fetch_loop fuel n (b + 1) b acc s1) = s1) as Hdone.
  { intros acc s1. destruct fuel as [|fuel']; [reflexivity|].
    cbn [PollLoop.fetch_loop].
    destruct (Z.leb_spec (b + 1) b) as [Hle|_]; [lia|reflexivity]. }
  destruct (get_logs env n a b) as [| |logs].
  - rewrite bind_pure, Hdone. reflexivity.
  - rewrite bind_raise. reflexivity.
  - rewrite bind_pure, Hdone. reflexivity.
Qed.

(** The periodic check writes nothing but [node]. *)
Lemma periodic_check_effect s :
  let s' := snd (periodic_check s) in
  last_block s' = last_block s /\
  consecutive_errors s' = consecutive_errors s /\
  blocks_behind s' = blocks_behind s /\ zapier_queue s' = zapier_queue s /\
  requested s' = requested s.
Proof.
  unfold PollLoop.periodic_check.
  destruct (refresh_due env); [|simpl; tauto].
  rewrite bind_lift.
  destruct (Selector.get_best_rpc RPCS (probe_refresh env)) as [best|e];
    [|simpl; tauto].
  rewrite bind_read.
  destruct (negb (String.eqb (fst best) (node s))); [|simpl; tauto].
  rewrite bind_update. unfold lift. simpl. tauto.
Qed.

(** The branch of a failed height query writes [node] and the error
    count. *)
Lemma failed_query_effect s :
  let s' := snd (failed_query s) in
  last_block s' = last_block s /\
  blocks_behind s' = blocks_behind s /\ zapier_queue s' = zapier_queue s /\
  requested s' = requested s.
Proof.
  unfold PollLoop.failed_query. rewrite bind_update, bind_read.
  cbn [consecutive_errors set_consecutive_errors].
  destruct (3 <? consecutive_errors s + 1).
  - rewrite bind_bind, bind_lift.
    destruct (Selector.get_best_rpc RPCS (probe_failover env)) as [best|e];
      [|simpl; tauto].
    rewrite bind_bind, bind_update, bind_update. simpl. tauto.
  - rewrite bind_pure. simpl. tauto.
Qed.

(** The handler leaves [last_block] alone unless it gets to line 311. *)
Lemma handler_effect s :
  let s' := snd (handler s) in
  blocks_behind s' = blocks_behind s /\ zapier_queue s' = zapier_queue s /\
  requested s' = requested s /\
  ((5 <? consecutive_errors s + 1) = false ->
   last_block s' = last_block s /\ node s' = node s /\
   fst (handler s) = Ret tt).
Proof.
  unfold PollLoop.handler. rewrite bind_update, bind_read.
  cbn [consecutive_errors set_consecutive_errors].
  destruct (5 <? consecutive_errors s + 1).
  - rewrite bind_lift.
    destruct (Selector.get_best_rpc RPCS (probe_handler env)) as [best|e].
    + rewrite bind_update. simpl. repeat split; discriminate.
    + simpl. repeat split; discriminate.
  - simpl. tauto.
Qed.

Lemma snd_bind {A B : Type} (m : M A) (k : A -> M B) (s : State) :
  snd (bind m k s) = match fst (m s) with
                     | Ret a => snd (k a (snd (m s)))
                     | Exc _ => snd (m s)
                     end.
Proof. unfold bind. now destruct (m s) as [[a|e] s']. Qed.

Lemma fst_bind {A B : Type} (m : M A) (k : A -> M B) (s : State) :
  fst (bind m k s) = match fst (m s) with
                     | Ret a => fst (k a (snd (m s)))
                     | Exc e => Exc e
                     end.
Proof. unfold bind. now destruct (m s) as [[a|e] s']. Qed.

Lemma track_no_new_blocks latest s :
  latest <= last_block s -> track_and_process latest s = (Ret tt, s).
Proof.
  intros H. unfold PollLoop.track_and_process. rewrite bind_read.
  destruct (Z.ltb_spec (last_block s) latest); [lia|reflexivity].
Qed.

(** Lines 233-291 when there are new blocks. [base] is the cursor the
    range is computed from: [latest - 2] after a jump, the old cursor
    otherwise. *)
Lemma track_and_process_effect latest s :
  last_block s < latest ->
  let base := if MAX_BLOCK_GAP <? latest - last_block s
              then latest - 2 else last_block s in
  let r := fst (track_and_process latest s) in
  let s' := snd (track_and_process latest s) in
  node s' = node s /\
  consecutive_errors s' = consecutive_errors s /\
  blocks_behind s' = Some (latest - last_block s) /\
  requested s' = requested s ++ [(base + 1, latest)] /\
  last_block s' = match r with Ret _ => latest | Exc _ => base end /\
  exists logs sent,
    zapier_queue s' = zapier_queue s ++ sent /\ Forall (made_from logs) sent.
Proof.
  intros Hnew. cbv zeta.
  set (base := if MAX_BLOCK_GAP <? latest - last_block s
               then latest - 2 else last_block s).
  unfold PollLoop.track_and_process. rewrite bind_read.
  destruct (Z.ltb_spec (last_block s) latest) as [_|]; [|lia].
  rewrite bind_update.
  set (s0 := set_blocks_behind (Some (latest - last_block s)) s).
  set (s1 := set_last_block base s0).
  assert (forall (k : unit -> M unit),
             bind (if MAX_BLOCK_GAP <? latest - last_block s
                   then update (set_last_block (latest - 2))
                   else pure tt) k s0 = k tt s1) as ->.
  { intros k. unfold s1, base.
    destruct (MAX_BLOCK_GAP <? latest - last_block s).
    - now rewrite bind_update.
    - rewrite bind_pure. reflexivity. }
  rewrite !bind_read.
  change (last_block s1) with base. change (node s1) with (node s).
  assert (base + 1 <= latest /\ latest - (base + 1) + 1 <= BATCH_SIZE) as [Hlo Hhi].
  { unfold base, MAX_BLOCK_GAP, BATCH_SIZE in *.
    destruct (Z.ltb_spec 10 (latest - last_block s)); lia. }
  pose proof (get_transfer_logs_batch_single (node s) (base + 1) latest s1
                Hlo Hhi) as Hreq.
  destruct (fetch_loop_effect (Z.to_nat (latest - (base + 1) + 1)) (node s)
              (base + 1) latest [] s1) as (F1 & F2 & F3 & F4 & F5 & _).
  fold (get_transfer_logs_batch env (node s) (base + 1) latest) in F1, F2, F3, F4, F5.
  assert (node s1 = node s /\ consecutive_errors s1 = consecutive_errors s /\
          blocks_behind s1 = Some (latest - last_block s) /\
          requested s1 = requested s /\ last_block s1 = base /\
          zapier_queue s1 = zapier_queue s)
    as (E1 & E2 & E3 & E4 & E5 & E6) by (repeat split; reflexivity).
  clearbody s1. clear s0.
  rewrite !snd_bind, !fst_bind.
  destruct (get_transfer_logs_batch env (node s) (base + 1) latest s1)
    as [[logs|e] s2]; cbn [fst snd] in *.
  - destruct (process_logs_effect 0 logs 0 s2)
      as (P1 & P2 & P3 & P4 & P5 & sent & P6 & P7).
    rewrite !snd_bind, !fst_bind.
    destruct (process_logs 0 logs 0 s2) as [[count|e] s3]; cbn [fst snd] in *.
    + unfold update. cbn [fst snd]. simpl.
      repeat split; try congruence.
      exists logs, sent. split; [congruence|assumption].
    + repeat split; try congruence.
      exists logs, sent. split; [congruence|assumption].
  - repeat split; try congruence.
    exists [], []. rewrite app_nil_r. split; [congruence|constructor].
Qed.

Lemma choose_sleep_state s : snd (choose_sleep s) = s.
Proof.
  unfold choose_sleep. rewrite bind_read. now destruct (blocks_behind s).
Qed.

(** The [try] block never lowers the cursor, asks only for blocks above
    the cursor it started with, and queues only payloads made from
    relevant logs. *)
Lemma body_effect s :
  let s' := snd (body s) in
  last_block s <= last_block s' /\
  (exists new,
      requested s' = requested s ++ new /\
      Forall (fun r => last_block s < fst r) new) /\
  (exists sent,
      zapier_queue s' = zapier_queue s ++ sent /\
      Forall (fun p => exists logs, made_from logs p) sent).
Proof.
  assert (forall s0 : State,
             last_block s0 = last_block s -> requested s0 = requested s ->
             zapier_queue s0 = zapier_queue s ->
             last_block s <= last_block s0 /\
             (exists new,
                 requested s0 = requested s ++ new /\
                 Forall (fun r => last_block s < fst r) new) /\
             (exists sent,
                 zapier_queue s0 = zapier_queue s ++ sent /\
                 Forall (fun p => exists logs, made_from logs p) sent)) as Hsame.
  { intros s0 H1 H2 H3. split; [lia|]. split.
    - exists []. rewrite app_nil_r. split; [assumption|constructor].
    - exists []. rewrite app_nil_r. split; [assumption|constructor]. }
  cbv zeta. unfold PollLoop.body. rewrite snd_bind.
  destruct (periodic_check_effect s) as (C1 & C2 & C3 & C4 & C5).
  destruct (periodic_check s) as [[u|e] s1]; cbn [fst snd] in *;
    [|now apply Hsame].
  rewrite bind_read, bind_lift.
  destruct (Selector.get_latest_block (block_number env (node s1)))
    as [latest|e]; [|now apply Hsame].
  destruct (latest =? 0).
  { destruct (failed_query_effect s1) as (Q1 & Q2 & Q3 & Q4).
    apply Hsame; congruence. }
  rewrite bind_update, snd_bind.
  set (s2 := set_consecutive_errors 0 s1).
  assert (last_block s2 = last_block s /\ requested s2 = requested s /\
          zapier_queue s2 = zapier_queue s) as (E1 & E2 & E3) by (simpl; auto).
  destruct (Z.lt_ge_cases (last_block s2) latest) as [Hnew|Hold].
  - destruct (track_and_process_effect latest s2 Hnew)
      as (_ & _ & _ & T4 & T5 & logs & sent & T6 & T7).
    assert (last_block s
            <= last_block (snd (track_and_process latest s2)) /\
            (exists new,
                requested (snd (track_and_process latest s2))
                = requested s ++ new /\
                Forall (fun r => last_block s < fst r) new) /\
            (exists sent,
                zapier_queue (snd (track_and_process latest s2))
                = zapier_queue s ++ sent /\
                Forall (fun p => exists logs, made_from logs p) sent)) as Hgoal.
    { split; [|split].
      - rewrite T5. unfold MAX_BLOCK_GAP in *.
        destruct (fst (track_and_process latest s2));
          destruct (Z.ltb_spec 10 (latest - last_block s2)); lia.
      - eexists. split; [rewrite T4, E2; reflexivity|].
        constructor; [|constructor]. cbn [fst]. unfold MAX_BLOCK_GAP in *.
        destruct (Z.ltb_spec 10 (latest - last_block s2)); lia.
      - exists sent. split; [congruence|].
        eapply List.Forall_impl; [|exact T7]. intros p Hp. now exists logs. }
    destruct (fst (track_and_process latest s2));
      [rewrite choose_sleep_state|]; exact Hgoal.
  - rewrite (track_no_new_blocks latest s2 Hold). cbn [fst snd].
    rewrite choose_sleep_state. now apply Hsame.
Qed.

(** One iteration. The requests it makes are above the cursor it started
    with; the payloads it queues were made from relevant logs; and the
    cursor does not go down unless the handler re-selects. *)
Lemma tick_effect s :
  let s' := snd (tick s) in
  (exists new,
      requested s' = requested s ++ new /\
      Forall (fun r => last_block s < fst r) new) /\
  (exists sent,
      zapier_queue s' = zapier_queue s ++ sent /\
      Forall (fun p => exists logs, made_from logs p) sent) /\
  (reselects_in_handler RPCS utf8_decode_ignore env s = false ->
   last_block s <= last_block s').
Proof.
  cbv zeta. unfold PollLoop.tick, reselects_in_handler.
  destruct (body_effect s) as (B1 & B2 & B3).
  destruct (body s) as [[k|e] s1]; cbn [fst snd] in *.
  - repeat split; try assumption. intros _. exact B1.
  - destruct (handler_effect s1) as (H1 & H2 & H3 & H4).
    destruct (handler s1) as [[u|e'] s2]; cbn [fst snd] in *;
      (split; [rewrite H3; exact B2|]);
      (split; [rewrite H2; exact B3|]);
      intros Hq; destruct (H4 Hq) as (H5 & _); lia.
Qed.

Abbreviation observed_height := (PollLoop.observed_height RPCS env).

(** With a height in hand the body is lines 230-301, run from a state that
    differs from the initial one in [node] and the error count at most. *)
Lemma body_observed s latest :
  observed_height s = Some latest ->
  exists s1,
    body s = bind (track_and_process latest) (fun _ => choose_sleep) s1 /\
    last_block s1 = last_block s /\ consecutive_errors s1 = 0 /\
    blocks_behind s1 = blocks_behind s /\ requested s1 = requested s /\
    zapier_queue s1 = zapier_queue s.
Proof.
  unfold PollLoop.observed_height, PollLoop.body. intros Hobs.
  destruct (periodic_check_effect s) as (C1 & C2 & C3 & C4 & C5).
  unfold bind at 1.
  destruct (periodic_check s) as [[u|e] s1]; [|discriminate].
  cbn [fst snd] in *. rewrite bind_read, bind_lift.
  destruct (Selector.get_latest_block (block_number env (node s1)))
    as [h|e]; [|discriminate].
  destruct (h =? 0); [discriminate|]. injection Hobs as ->.
  rewrite bind_update. exists (set_consecutive_errors 0 s1).
  split; [reflexivity|]. simpl. auto.
Qed.

Lemma tick_observed s latest :
  observed_height s = Some latest ->
  exists s1,
    last_block s1 = last_block s /\ consecutive_errors s1 = 0 /\
    blocks_behind s1 = blocks_behind s /\ requested s1 = requested s /\
    zapier_queue s1 = zapier_queue s /\
    tick s =
      match track_and_process latest s1 with
      | (Ret _, s2) =>
          match blocks_behind s2 with
          | Some b => (Normal (sleep_for b), s2)
          | None =>
              match handler s2 with
              | (Ret _, s3) => (Recovered UnboundLocalError, s3)
              | (Exc e', s3) => (Crashed e', s3)
              end
          end
      | (Exc e, s2) =>
          match handler s2 with
          | (Ret _, s3) => (Recovered e, s3)
          | (Exc e', s3) => (Crashed e', s3)
          end
      end.
Proof.
  intros Hobs.
  destruct (body_observed s latest Hobs) as (s1 & Hb & E).
  exists s1. repeat (split; [apply E|]).
  unfold PollLoop.tick. rewrite Hb. unfold bind.
  destruct (track_and_process latest s1) as [[u|e] s2]; [|reflexivity].
  unfold choose_sleep, bind, read.
  now destruct (blocks_behind s2).
Qed.

(** An iteration that sees new blocks. *)
Lemma tick_new_blocks s latest :
  observed_height s = Some latest ->
  last_block s < latest ->
  let base := if MAX_BLOCK_GAP <? latest - last_block s
              then latest - 2 else last_block s in
  let s' := snd (tick s) in
  requested s' = requested s ++ [(base + 1, latest)] /\
  blocks_behind s' = Some (latest - last_block s) /\
  ((fst (tick s) = Normal (sleep_for (latest - last_block s)) /\
    last_block s' = latest) \/
   ((exists e, fst (tick s) = Recovered e) /\ last_block s' = base)).
Proof.
  intros Hobs Hnew. cbv zeta.
  destruct (tick_observed s latest Hobs)
    as (s1 & E1 & E2 & E3 & E4 & E5 & Htick).
  assert (last_block s1 < latest) as Hnew1 by lia.
  destruct (track_and_process_effect latest s1 Hnew1)
    as (T1 & T2 & T3 & T4 & T5 & _).
  rewrite E1, E4 in *. rewrite Htick.
  destruct (track_and_process latest s1) as [[u|e] s2]; cbn [fst snd] in *.
  - rewrite T3. cbn [fst snd]. repeat split; try assumption. left. now split.
  - destruct (handler_effect s2) as (H1 & H2 & H3 & H4).
    rewrite T2, E2 in H4. destruct (H4 eq_refl) as (H5 & H6 & H7).
    destruct (handler s2) as [[u|e'] s3]; cbn [fst snd] in *;
      [|discriminate].
    repeat split; try congruence. right. split; [eauto|congruence].
Qed.

(** An iteration that sees no new block. *)
Lemma tick_no_new_blocks s latest :
  observed_height s = Some latest ->
  latest <= last_block s ->
  let s' := snd (tick s) in
  blocks_behind s' = blocks_behind s /\ last_block s' = last_block s /\
  requested s' = requested s /\
  fst (tick s) = match blocks_behind s with
                 | None => Recovered UnboundLocalError
                 | Some b => Normal (sleep_for b)
                 end.
Proof.
  intros Hobs Hold. cbv zeta.
  destruct (tick_observed s latest Hobs)
    as (s1 & E1 & E2 & E3 & E4 & E5 & Htick).
  rewrite Htick, (track_no_new_blocks latest s1) by lia. rewrite E3.
  destruct (blocks_behind s) as [b|].
  - cbn [fst snd]. auto.
  - destruct (handler_effect s1) as (H1 & H2 & H3 & H4).
    rewrite E2 in H4. destruct (H4 eq_refl) as (H5 & H6 & H7).
    destruct (handler s1) as [[u|e'] s3]; cbn [fst snd] in *;
      [|discriminate].
    repeat split; congruence.
Qed.


End Iteration.

Section Runs.

Variable RPCS : list string.
Variable utf8_decode_ignore : list Byte.byte -> string.

Abbreviation run := (PollLoop.run RPCS utf8_decode_ignore).
Abbreviation quiet :=
  (PollLoop.no_handler_reselection RPCS utf8_decode_ignore).

(** While no iteration gets to line 311 the cursor does not go down, and
    no block at or below it is asked for again. *)
Lemma run_effect envs s :
  quiet envs s = true ->
  last_block s <= last_block (snd (run envs s)) /\
  exists new,
    requested (snd (run envs s)) = requested s ++ new /\
    Forall (fun r => last_block s < fst r) new.
Proof.
  revert s. induction envs as [|env envs IH]; intros s Hq.
  { simpl. split; [lia|]. exists []. now rewrite app_nil_r. }
  cbn [PollLoop.no_handler_reselection] in Hq.
  apply andb_prop in Hq as [Hq1 Hq2]. apply negb_true_iff in Hq1.
  destruct (tick_effect RPCS utf8_decode_ignore env s)
    as ((new & Hr & Hn) & _ & Hm).
  specialize (Hm Hq1).
  assert (last_block s
          <= last_block (snd (PollLoop.tick RPCS utf8_decode_ignore env s)) /\
          exists new0,
            requested (snd (PollLoop.tick RPCS utf8_decode_ignore env s))
            = requested s ++ new0 /\
            Forall (fun r => last_block s < fst r) new0) as Hone.
  { split; [assumption|]. now exists new. }
  cbn [PollLoop.run].
  destruct (PollLoop.tick RPCS utf8_decode_ignore env s) as [[k|e|e] s1];
    cbn [fst snd] in *; try exact Hone.
  - destruct (IH s1 Hq2) as (I1 & new' & I2 & I3). split; [lia|].
    exists (new ++ new'). split; [rewrite I2, Hr; now rewrite app_assoc|].
    apply List.Forall_app. split; [assumption|].
    eapply List.Forall_impl; [|exact I3]. simpl. intros r Hr'. lia.
  - destruct (IH s1 Hq2) as (I1 & new' & I2 & I3). split; [lia|].
    exists (new ++ new'). split; [rewrite I2, Hr; now rewrite app_assoc|].
    apply List.Forall_app. split; [assumption|].
    eapply List.Forall_impl; [|exact I3]. simpl. intros r Hr'. lia.
Qed.

End Runs.


(** C5, as amended. No probe reports a positive height. When every
    probe returns, the selection does not fail: it is the first configured
    endpoint at height 0, and each of the three callers makes that
    endpoint the active one, whichever endpoint was active before. When
    the reply of some endpoint makes its probe raise, the selection
    raises, and none of the three call sites changes the active
    endpoint. *)
Theorem selection_falls_back_to_first_endpoint
    (first : string) (rest : list string)
    (probe : nat -> string -> Selector.Probe) :
  (forall j n h,
      nth_error (first :: rest) j = Some n ->
      Selector.get_latest_block (fst (probe j n)) = Ret h -> h <= 0) ->
  ((forall j n,
       nth_error (first :: rest) j = Some n ->
       exists h, Selector.get_latest_block (fst (probe j n)) = Ret h) ->
   Selector.get_best_rpc (first :: rest) probe = Ret (first, 0) /\
   (forall env s,
       refresh_due env = true -> probe_refresh env = probe ->
       node (snd (periodic_check (first :: rest) env s)) = first) /\
   (forall env s,
       probe_failover env = probe -> 3 < consecutive_errors s + 1 ->
       node (snd (failed_query (first :: rest) env s)) = first) /\
   (forall env s,
       probe_handler env = probe -> 5 < consecutive_errors s + 1 ->
       node (snd (handler (first :: rest) env s)) = first)) /\
  ((exists j n e,
       nth_error (first :: rest) j = Some n /\
       Selector.get_latest_block (fst (probe j n)) = Exc e) ->
   (exists e, Selector.get_best_rpc (first :: rest) probe = Exc e) /\
   (forall env s,
       refresh_due env = true -> probe_refresh env = probe ->
       node (snd (periodic_check (first :: rest) env s)) = node s) /\
   (forall env s,
       probe_failover env = probe -> 3 < consecutive_errors s + 1 ->
       node (snd (failed_query (first :: rest) env s)) = node s) /\
   (forall env s,
       probe_handler env = probe -> 5 < consecutive_errors s + 1 ->
       node (snd (handler (first :: rest) env s)) = node s)).
Proof.
  intros Hnone. split.
  - intros Hall.
    destruct (SelectorFacts.probe_results_total probe 0 (first :: rest) Hall)
      as [ps Hps].
    assert (Selector.get_best_rpc (first :: rest) probe = Ret (first, 0))
      as Hbest.
    { apply (SelectorFacts.get_best_rpc_none_positive _ _ _ _ Hps).
      intros n h lat Hin.
      apply (SelectorFacts.probe_results_in _ _ _ _ Hps) in Hin.
      destruct Hin as (j & Hj & Hh & _). now apply (Hnone j n h). }
    split; [exact Hbest|]. split; [|split].
    + intros env s Hdue <-. unfold periodic_check.
      rewrite Hdue, bind_lift, Hbest, bind_read. cbn [fst].
      destruct (String.eqb_spec first (node s)) as [->|Hne]; cbn [negb].
      * reflexivity.
      * rewrite bind_update. unfold lift. reflexivity.
    + intros env s <- Herr. unfold failed_query.
      rewrite bind_update, bind_read.
      cbn [consecutive_errors set_consecutive_errors].
      apply Z.ltb_lt in Herr. rewrite Herr.
      rewrite bind_bind, bind_lift, Hbest, bind_bind, !bind_update.
      reflexivity.
    + intros env s <- Herr. unfold handler.
      rewrite bind_update, bind_read.
      cbn [consecutive_errors set_consecutive_errors].
      apply Z.ltb_lt in Herr. rewrite Herr.
      rewrite bind_lift, Hbest, bind_update. reflexivity.
  - intros (j & n & e & Hj & He).
    assert (exists e', Selector.get_best_rpc (first :: rest) probe = Exc e')
      as [e' Hexc].
    { unfold Selector.get_best_rpc.
      destruct (SelectorFacts.collect_raises probe 0 (first :: rest) [] j n e
                  Hj He) as [e' ->].
      cbn [res_bind]. eauto. }
    split; [eauto|]. split; [|split].
    + intros env s Hdue <-. unfold periodic_check.
      rewrite Hdue, bind_lift, Hexc. reflexivity.
    + intros env s <- Herr. unfold failed_query.
      rewrite bind_update, bind_read.
      cbn [consecutive_errors set_consecutive_errors].
      apply Z.ltb_lt in Herr. rewrite Herr.
      rewrite bind_bind, bind_lift, Hexc. reflexivity.
    + intros env s <- Herr. unfold handler.
      rewrite bind_update, bind_read.
      cbn [consecutive_errors set_consecutive_errors].
      apply Z.ltb_lt in Herr. rewrite Herr.
      rewrite bind_lift, Hexc. reflexivity.
Qed.

(** The theorem at two endpoints with [endpoint_b] active at each of the
    three call sites: when the endpoints do not answer, [endpoint_a]
    becomes the active one; when they answer with the result [null],
    [endpoint_b] stays. *)
Lemma selection_falls_back_to_first_endpoint_witness :
  let s := Scenarios.watching Scenarios.endpoint_b 100 in
  (let env := Scenarios.answering true (Reply "0x65") [] Scenarios.silent in
   Selector.get_best_rpc Scenarios.endpoints Scenarios.silent
   = Ret (Scenarios.endpoint_a, 0) /\
   node (snd (periodic_check Scenarios.endpoints env s))
   = Scenarios.endpoint_a /\
   node (snd (failed_query Scenarios.endpoints env
                (set_consecutive_errors 3 s))) = Scenarios.endpoint_a /\
   node (snd (handler Scenarios.endpoints env
                (set_consecutive_errors 5 s))) = Scenarios.endpoint_a) /\
  (let env :=
     Scenarios.answering true (Reply "0x65") [] MoreScenarios.null_probes in
   (exists e,
       Selector.get_best_rpc Scenarios.endpoints MoreScenarios.null_probes
       = Exc e) /\
   node (snd (periodic_check Scenarios.endpoints env s))
   = Scenarios.endpoint_b /\
   node (snd (failed_query Scenarios.endpoints env
                (set_consecutive_errors 3 s))) = Scenarios.endpoint_b /\
   node (snd (handler Scenarios.endpoints env
                (set_consecutive_errors 5 s))) = Scenarios.endpoint_b).
Proof.
  cbv zeta. split.
  - destruct (selection_falls_back_to_first_endpoint Scenarios.endpoint_a
                [Scenarios.endpoint_b] Scenarios.silent)
      as ((Hbest & Hperiodic & Hfailover & Hhandler) & _).
    + intros j n h _ Hh. cbn in Hh. injection Hh as <-. lia.
    + intros j n _. exists 0. reflexivity.
    + split; [exact Hbest|]. split; [|split].
      * apply Hperiodic; reflexivity.
      * apply Hfailover; [reflexivity|simpl; lia].
      * apply Hhandler; [reflexivity|simpl; lia].
  - destruct (selection_falls_back_to_first_endpoint Scenarios.endpoint_a
                [Scenarios.endpoint_b] MoreScenarios.null_probes)
      as (_ & Hraises).
    + intros j n h _ Hh. cbn in Hh. discriminate Hh.
    + destruct Hraises as (Hexc & Hperiodic & Hfailover & Hhandler).
      * exists 0%nat, Scenarios.endpoint_a, TypeError. split; reflexivity.
      * split; [exact Hexc|]. split; [|split].
        -- apply (Hperiodic _ (Scenarios.watching Scenarios.endpoint_b 100));
             reflexivity.
        -- apply (Hfailover _
                    (set_consecutive_errors 3
                       (Scenarios.watching Scenarios.endpoint_b 100)));
             [reflexivity|simpl; lia].
        -- apply (Hhandler _
                    (set_consecutive_errors 5
                       (Scenarios.watching Scenarios.endpoint_b 100)));
             [reflexivity|simpl; lia].
Defined.

(** C5 as stated fails: with [endpoint_b] active and no endpoint
    answering the periodic probes, the selection returns [endpoint_a] and
    the loop goes on with [endpoint_a]. *)
Lemma silent_probes_switch_endpoint :
  let env := Scenarios.answering true (Reply "0x65") [] Scenarios.silent in
  let s := Scenarios.watching Scenarios.endpoint_b 100 in
  Selector.get_best_rpc Scenarios.endpoints (probe_refresh env)
  = Ret (Scenarios.endpoint_a, 0) /\
  node s = Scenarios.endpoint_b /\
  node (snd (Scenarios.tick env s)) = Scenarios.endpoint_a /\
  Scenarios.endpoint_a <> Scenarios.endpoint_b.
Proof.
  cbv zeta. repeat split; try (vm_compute; reflexivity). discriminate.
Qed.

(** C6 fails on the code. The log [empty_data_log] passes the topic checks
    and makes [decode_log] raise; in a batch the exception leaves the
    loop, so the transfer behind it is not processed, nothing is queued,
    and the iteration ends in the handler with the cursor where it was.
    The same batch without that log queues the transfer and advances. *)
Theorem malformed_log_aborts_batch :
  let s := Scenarios.watching Scenarios.endpoint_a 100 in
  let poisoned :=
    Scenarios.answering false (Reply "0x65")
      [Scenarios.empty_data_log; Scenarios.transfer_log] Scenarios.silent in
  let clean :=
    Scenarios.answering false (Reply "0x65")
      [Scenarios.transfer_log] Scenarios.silent in
  decode_log Scenarios.empty_data_log = Exc ValueError /\
  fst (Scenarios.tick poisoned s) = Recovered ValueError /\
  zapier_queue (snd (Scenarios.tick poisoned s)) = [] /\
  last_block (snd (Scenarios.tick poisoned s)) = 100 /\
  fst (Scenarios.tick clean s) = Normal Jitter /\
  List.map Delivery.txHash (zapier_queue (snd (Scenarios.tick clean s)))
  = ["0xaaaa"] /\
  last_block (snd (Scenarios.tick clean s)) = 101.
Proof. cbv zeta. repeat split; vm_compute; reflexivity. Qed.

(** C1 fails on the code. After a jump to block 150 and five iterations
    whose height query raised, the sixth such iteration runs line 311
    and takes the height 145 of the re-selected endpoint as the cursor. *)
Theorem handler_reselection_lowers_cursor :
  let before :=
    snd (Scenarios.run (Scenarios.far_behind :: repeat Scenarios.bad_height 5)
           (Scenarios.watching Scenarios.endpoint_a 100)) in
  last_block before = 150 /\
  consecutive_errors before = 5 /\
  fst (Scenarios.tick Scenarios.bad_height before) = Recovered TypeError /\
  last_block (snd (Scenarios.tick Scenarios.bad_height before)) = 145.
Proof. cbv zeta. repeat split; vm_compute; reflexivity. Qed.

(** C3, as amended. When the height is more than [MAX_BLOCK_GAP] above the
    cursor, the iteration asks for [height - 1, height] only, with the
    cursor at [height - 2] before the fetch and at [height] once the
    iteration completes; no block from [old cursor + 1] to [height - 2]
    is asked for in that iteration, nor in any later one as long as no
    iteration gets to the re-selection of the handler. When the gap is
    within the cap, the iteration asks for [cursor + 1, height], and the
    cursor is [height] once the iteration completes. *)
Theorem catch_up_policy
    (RPCS : list string) (utf8_decode_ignore : list Byte.byte -> string) :
  (forall env s latest,
      observed_height RPCS env s = Some latest ->
      MAX_BLOCK_GAP < latest - last_block s ->
      let s' := snd (tick RPCS utf8_decode_ignore env s) in
      requested s' = requested s ++ [(latest - 1, latest)] /\
      (last_block s' = latest - 2 \/ last_block s' = latest) /\
      (forall k,
          fst (tick RPCS utf8_decode_ignore env s) = Normal k ->
          last_block s' = latest) /\
      forall envs,
        no_handler_reselection RPCS utf8_decode_ignore envs s' = true ->
        exists later,
          requested (snd (run RPCS utf8_decode_ignore envs s'))
          = requested s' ++ later /\
          forall r b,
            In r ((latest - 1, latest) :: later) ->
            last_block s + 1 <= b <= latest - 2 ->
            ~ covers r b) /\
  (forall env s latest,
      observed_height RPCS env s = Some latest ->
      last_block s < latest ->
      latest - last_block s <= MAX_BLOCK_GAP ->
      let s' := snd (tick RPCS utf8_decode_ignore env s) in
      requested s' = requested s ++ [(last_block s + 1, latest)] /\
      (forall k,
          fst (tick RPCS utf8_decode_ignore env s) = Normal k ->
          last_block s' = latest)).
Proof.
  split.
  - intros env s latest Hobs Hgap. cbv zeta.
    assert (last_block s < latest) as Hnew by (unfold MAX_BLOCK_GAP in *; lia).
    destruct (tick_new_blocks RPCS utf8_decode_ignore env s latest Hobs Hnew)
      as (Hreq & _ & Hlast).
    apply Z.ltb_lt in Hgap. rewrite Hgap in Hreq, Hlast. apply Z.ltb_lt in Hgap.
    replace (latest - 2 + 1) with (latest - 1) in Hreq by lia.
    split; [exact Hreq|]. split; [|split].
    + destruct Hlast as [[_ H]|[_ H]]; auto.
    + intros k Hk. destruct Hlast as [[_ H]|[[e He] _]]; [exact H|].
      rewrite He in Hk. discriminate.
    + intros envs Hquiet.
      destruct (run_effect RPCS utf8_decode_ignore envs _ Hquiet)
        as (_ & later & Hlater & Habove).
      exists later. split; [exact Hlater|].
      intros r b [<-|Hin] Hb; unfold covers.
      * simpl. lia.
      * rewrite List.Forall_forall in Habove. specialize (Habove r Hin).
        destruct Hlast as [[_ H]|[_ H]]; rewrite H in Habove; lia.
  - intros env s latest Hobs Hnew Hgap. cbv zeta.
    destruct (tick_new_blocks RPCS utf8_decode_ignore env s latest Hobs Hnew)
      as (Hreq & _ & Hlast).
    apply Z.ltb_ge in Hgap. rewrite Hgap in Hreq, Hlast.
    split; [exact Hreq|].
    intros k Hk. destruct Hlast as [[_ H]|[[e He] _]]; [exact H|].
    rewrite He in Hk. discriminate.
Qed.

(** The theorem at a cursor of 100 and a height of 150, followed by an
    iteration at height 151; and at a cursor of 100 and a height of 101. *)
Lemma catch_up_policy_witness :
  let s := Scenarios.watching Scenarios.endpoint_a 100 in
  let next :=
    Scenarios.answering false (Reply "0x97") [] Scenarios.silent in
  let near :=
    Scenarios.answering false (Reply "0x65") [Scenarios.transfer_log]
      Scenarios.silent in
  let s' := snd (Scenarios.tick Scenarios.far_behind s) in
  (requested s' = [(149, 150)] /\
   (last_block s' = 148 \/ last_block s' = 150) /\
   exists later,
     requested (snd (Scenarios.run [next] s')) = requested s' ++ later /\
     forall r b,
       In r ((149, 150) :: later) -> 101 <= b <= 148 -> ~ covers r b) /\
  (requested (snd (Scenarios.tick near s)) = [(101, 101)] /\
   last_block (snd (Scenarios.tick near s)) = 101).
Proof.
  cbv zeta.
  destruct (catch_up_policy Scenarios.endpoints Symbol.decode_ascii_only)
    as [Hjump Hnear].
  split.
  - destruct (Hjump Scenarios.far_behind
                (Scenarios.watching Scenarios.endpoint_a 100) 150)
      as (Hreq & Hlast & _ & Hlater).
    + vm_compute. reflexivity.
    + vm_compute. reflexivity.
    + split; [exact Hreq|]. split; [exact Hlast|].
      apply Hlater. vm_compute. reflexivity.
  - destruct (Hnear
                (Scenarios.answering false (Reply "0x65")
                   [Scenarios.transfer_log] Scenarios.silent)
                (Scenarios.watching Scenarios.endpoint_a 100) 101)
      as (Hreq & Hlast).
    + vm_compute. reflexivity.
    + vm_compute. reflexivity.
    + vm_compute. intros H. discriminate H.
    + split; [exact Hreq|]. apply (Hlast Jitter). vm_compute. reflexivity.
Defined.

(** C3 as stated fails twice. A block of the abandoned range is asked for
    later: with the cursor at 100 and the height at 150, blocks 101 to 147
    are skipped, and after the handler has taken the cursor back to 145
    the range [146, 146] is fetched. And within the cap the cursor is not
    set to the height when the processing raises: at height 101, with a
    log that does not decode, it stays at 100. *)
Lemma abandoned_block_fetched_later :
  let s := Scenarios.watching Scenarios.endpoint_a 100 in
  let final :=
    snd (Scenarios.run (Scenarios.outage ++ [Scenarios.head_146]) s) in
  let poisoned :=
    Scenarios.answering false (Reply "0x65") [Scenarios.empty_data_log]
      Scenarios.silent in
  (observed_height Scenarios.endpoints Scenarios.far_behind s = Some 150 /\
   requested final = [(149, 150); (146, 146)] /\
   covers (146, 146) 146 /\ last_block s + 1 <= 146 <= 150 - 3) /\
  (observed_height Scenarios.endpoints poisoned s = Some 101 /\
   requested (snd (Scenarios.tick poisoned s)) = [(101, 101)] /\
   last_block (snd (Scenarios.tick poisoned s)) = 100).
Proof.
  cbv zeta. unfold covers. repeat split; vm_compute; try reflexivity;
    intros H; discriminate H.
Qed.




End PollLoopFacts.

(** ** The JSON-RPC helper *)

Module RpcFacts.

Import Rpc.

Lemma rpc_from_sleeps {A : Type} (oracle : nat -> attempt A) budget retry_count :
  (length (snd (rpc_from oracle budget retry_count)) <= budget)%nat /\
  forall n, In n (snd (rpc_from oracle budget retry_count)) ->
            (retry_count < n <= retry_count + budget)%nat.
Proof.
  revert retry_count. induction budget as [|budget IH]; intros retry_count.
  - simpl. destruct (oracle retry_count); simpl; split; auto; intros n [].
  - cbn [rpc_from]. destruct (oracle retry_count) as [|d].
    + specialize (IH (S retry_count)).
      destruct (rpc_from oracle budget (S retry_count)) as [r sleeps].
      cbn [snd] in *. destruct IH as [IHlen IHin]. split.
      * simpl. lia.
      * intros n [<-|Hn]; [lia|]. specialize (IHin n Hn). lia.
    + simpl. split; [lia|]. intros n [].
Qed.

(** X1. A call of [rpc] makes at most four attempts. It returns the dict of
    the first attempt that does not raise, after sleeping 0.5 s, 1 s, ...
    once per failed attempt before it; when all four attempts fail it
    returns [None], after 0.5 + 1 + 1.5 seconds of sleep. *)
Theorem rpc_first_answer_or_none {A : Type} (oracle : nat -> attempt A) :
  (forall k d,
      (k <= MAX_RETRIES)%nat ->
      (forall j, (j < k)%nat -> oracle j = Fails) ->
      oracle k = Answers d ->
      rpc oracle 0 = (Some d, seq 1 k)) /\
  ((forall j, (j <= MAX_RETRIES)%nat -> oracle j = Fails) ->
   rpc oracle 0 = (None, [1; 2; 3]%nat)) /\
  (length (snd (rpc oracle 0)) <= MAX_RETRIES)%nat.
Proof.
  unfold rpc, MAX_RETRIES. split; [|split].
  - intros k d Hk Hfail Hans.
    destruct k as [|[|[|[|k]]]]; try lia; cbn [Nat.sub rpc_from seq].
    + now rewrite Hans.
    + rewrite (Hfail 0%nat) by lia. now rewrite Hans.
    + rewrite (Hfail 0%nat), (Hfail 1%nat) by lia. now rewrite Hans.
    + rewrite (Hfail 0%nat), (Hfail 1%nat), (Hfail 2%nat) by lia.
      now rewrite Hans.
  - intros Hfail. cbn [Nat.sub rpc_from].
    now rewrite (Hfail 0%nat), (Hfail 1%nat), (Hfail 2%nat), (Hfail 3%nat)
      by lia.
  - exact (proj1 (rpc_from_sleeps oracle 3 0)).
Qed.

(** The theorem at an endpoint that answers the third attempt, and at one
    that never answers. *)
Lemma rpc_first_answer_or_none_witness :
  rpc (fun k => if (k <? 2)%nat then Fails else Answers (Reply "0x64")) 0
  = (Some (Reply "0x64"), [1; 2]%nat) /\
  rpc (fun _ => @Fails (rpc_reply string)) 0 = (None, [1; 2; 3]%nat).
Proof.
  split.
  - destruct (rpc_first_answer_or_none
                (fun k => if (k <? 2)%nat then Fails
                          else Answers (Reply "0x64"))) as (Hanswer & _ & _).
    apply (Hanswer 2%nat).
    + unfold MAX_RETRIES. lia.
    + intros j Hj. destruct j as [|[|j]]; [reflexivity|reflexivity|lia].
    + reflexivity.
  - destruct (rpc_first_answer_or_none (fun _ => @Fails (rpc_reply string)))
      as (_ & Hnone & _).
    apply Hnone. intros j _. reflexivity.
Defined.

End RpcFacts.

(** ** LogFetcher *)

Module FetchFacts.

Import Decoder PollLoop PollLoopFacts Ranges.

Section Fetch.

Variable env : Env.
Variable n : string.

Hypothesis no_null : forall a b, get_logs env n a b <> Null.

Lemma set_requested_same s : set_requested (requested s ++ []) s = s.
Proof. destruct s. unfold set_requested. simpl. now rewrite app_nil_r. Qed.

Lemma fetch_loop_tiles fuel current end_block acc s :
  (Z.to_nat (end_block - current + 1) <= fuel)%nat ->
  current <= end_block + 1 ->
  exists new,
    fetch_loop env fuel n current end_block acc s
    = (Ret (acc ++ gathered (get_logs env n) new),
       set_requested (requested s ++ new) s) /\
    Forall (fun r => snd r = Z.min (fst r + BATCH_SIZE - 1) end_block) new /\
    contiguous current new end_block.
Proof.
  revert current acc s. induction fuel as [|fuel IH]; intros current acc s Hf Hc.
  - exists []. cbn [PollLoop.fetch_loop gathered flat_map contiguous].
    rewrite app_nil_r, set_requested_same.
    repeat split; [constructor|lia].
  - cbn [PollLoop.fetch_loop].
    destruct (Z.leb_spec current end_block) as [Hle|Hgt].
    + rewrite bind_update.
      set (batch_end := Z.min (current + BATCH_SIZE - 1) end_block).
      assert (current <= batch_end <= end_block) as Hbe
          by (unfold batch_end, BATCH_SIZE; lia).
      set (s1 := set_requested (requested s ++ [(current, batch_end)]) s).
      assert (forall acc',
                 acc' = acc ++ gathered (get_logs env n) [(current, batch_end)] ->
                 exists new,
                   fetch_loop env fuel n (batch_end + 1) end_block acc' s1
                   = (Ret (acc ++ gathered (get_logs env n) new),
                      set_requested (requested s ++ new) s) /\
                   Forall (fun r =>
                             snd r = Z.min (fst r + BATCH_SIZE - 1) end_block)
                          new /\
                   contiguous current new end_block) as Hnext.
      { intros acc' ->.
        destruct (IH (batch_end + 1)
                     (acc ++ gathered (get_logs env n) [(current, batch_end)])
                     s1) as (new & Hrun & Hsize & Hchain); [lia|lia|].
        exists ((current, batch_end) :: new). split; [|split].
        - rewrite Hrun. f_equal.
          + f_equal. cbn [gathered flat_map]. rewrite app_nil_r.
            now rewrite <- app_assoc.
          + unfold s1. destruct s. unfold set_requested. simpl.
            now rewrite <- app_assoc.
        - constructor; [reflexivity|assumption].
        - cbn [contiguous fst snd]. repeat split; [lia|assumption]. }
      cbn [gathered flat_map fst snd] in Hnext. fold batch_end.
      destruct (get_logs env n current batch_end) as [| |logs] eqn:Hreply.
      * rewrite bind_pure. apply Hnext. now rewrite !app_nil_r.
      * exfalso. now apply (no_null current batch_end).
      * rewrite bind_pure. apply Hnext. now rewrite app_nil_r.
    + exists []. cbn [gathered flat_map contiguous].
      rewrite app_nil_r, set_requested_same.
      repeat split; [constructor|lia].
Qed.

(** X2. [get_transfer_logs_batch] on a non-empty range, when no reply has
    a [null] result: the calls it makes cover the range without gap or
    overlap, in ascending order, each of them [BATCH_SIZE] blocks long
    except a shorter last one; it returns the logs of the calls that got
    a list, in that order, and raises nothing when a call gets no reply:
    the logs of that chunk are left out. *)
Theorem get_transfer_logs_batch_covers_range start_block end_block s :
  start_block <= end_block ->
  exists new,
    get_transfer_logs_batch env n start_block end_block s
    = (Ret (gathered (get_logs env n) new),
       set_requested (requested s ++ new) s) /\
    Forall (fun r => snd r = Z.min (fst r + BATCH_SIZE - 1) end_block) new /\
    contiguous start_block new end_block.
Proof.
  intros Hrange. unfold get_transfer_logs_batch.
  destruct (fetch_loop_tiles (Z.to_nat (end_block - start_block + 1))
              start_block end_block [] s) as (new & Hrun & H); [lia|lia|].
  exists new. split; [exact Hrun|exact H].
Qed.

End Fetch.

(** The theorem at the range [1, 250], whose middle chunk gets no reply. *)
Lemma get_transfer_logs_batch_covers_range_witness :
  let env :=
    {| refresh_due := false;
       probe_refresh := Scenarios.silent;
       probe_failover := Scenarios.silent;
       probe_handler := Scenarios.silent;
       block_number := fun _ => NoReply;
       get_logs := fun _ a _ => if a =? 101 then NoReply
                                else Reply [Scenarios.transfer_log];
       eth_call := fun _ _ => NoReply;
       now := fun _ => 0 |} in
  exists new,
    get_transfer_logs_batch env Scenarios.endpoint_a 1 250
      (Scenarios.watching Scenarios.endpoint_a 0)
    = (Ret (gathered (get_logs env Scenarios.endpoint_a) new),
       set_requested new (Scenarios.watching Scenarios.endpoint_a 0)) /\
    new = [(1, 100); (101, 200); (201, 250)] /\
    gathered (get_logs env Scenarios.endpoint_a) new
    = [Scenarios.transfer_log; Scenarios.transfer_log].
Proof.
  cbv zeta.
  match goal with
  | |- exists new, get_transfer_logs_batch ?env _ _ _ _ = _ /\ _ =>
      destruct (get_transfer_logs_batch_covers_range env Scenarios.endpoint_a)
        with (start_block := 1) (end_block := 250)
             (s := Scenarios.watching Scenarios.endpoint_a 0)
        as (new & Hrun & _)
  end.
  - intros a b. simpl. destruct (a =? 101); discriminate.
  - lia.
  - exists new. split; [exact Hrun|].
    vm_compute in Hrun. injection Hrun as _ Hnew.
    subst new. split; reflexivity.
Defined.

End FetchFacts.

(** ** What an iteration leaves alone *)

Module FrameFacts.

Import Decoder PollLoop PollLoopFacts.

Section Frame.

Variable RPCS : list string.
Variable utf8_decode_ignore : list Byte.byte -> string.

(** A relation between the state before and after, kept by every single
    write the loop makes. *)
Variable P : State -> State -> Prop.

Hypothesis P_refl : forall s, P s s.
Hypothesis P_trans : forall s1 s2 s3, P s1 s2 -> P s2 s3 -> P s1 s3.
Hypothesis P_node : forall s v, P s (set_node v s).
Hypothesis P_last_block : forall s v, P s (set_last_block v s).
Hypothesis P_errors : forall s v, P s (set_consecutive_errors v s).
Hypothesis P_blocks_behind : forall s v, P s (set_blocks_behind v s).
Hypothesis P_requested : forall s v, P s (set_requested v s).
Hypothesis P_processed :
  forall s x, P s (set_processed_txs (deque_append (processed_txs s) x) s).
Hypothesis P_cache :
  forall s reply token_addr,
    P s (set_symbol_cache
           (snd (Symbol.get_symbol utf8_decode_ignore reply token_addr
                   (symbol_cache s))) s).
Hypothesis P_queue : forall s p, P s (set_zapier_queue (zapier_queue s ++ [p]) s).

Local Abbreviation keeps := (Frame.keeps P).

Lemma keeps_bind {A B : Type} (m : M A) (k : A -> M B) :
  keeps m -> (forall a, keeps (k a)) -> keeps (bind m k).
Proof.
  intros Hm Hk s. rewrite snd_bind. specialize (Hm s).
  destruct (fst (m s)); [|assumption].
  eapply P_trans; [exact Hm|apply Hk].
Qed.

Lemma keeps_pure {A : Type} (a : A) : keeps (pure a).
Proof. intros s. apply P_refl. Qed.

Lemma keeps_raise {A : Type} (e : exn) : keeps (@raise A e).
Proof. intros s. apply P_refl. Qed.

Lemma keeps_lift {A : Type} (r : res A) : keeps (lift r).
Proof. intros s. apply P_refl. Qed.

Lemma keeps_read {A : Type} (f : State -> A) : keeps (read f).
Proof. intros s. apply P_refl. Qed.

Lemma keeps_update (f : State -> State) :
  (forall s, P s (f s)) -> keeps (update f).
Proof. intros Hf s. apply Hf. Qed.

Ltac keep :=
  repeat first
    [ apply keeps_bind; [|intros ?]
    | apply keeps_pure | apply keeps_raise | apply keeps_lift
    | apply keeps_read
    | apply keeps_update; intros ?; eauto ].

Lemma keeps_fetch_loop env fuel n current end_block acc :
  keeps (fetch_loop env fuel n current end_block acc).
Proof.
  revert current acc. induction fuel as [|fuel IH]; intros current acc.
  - apply keeps_pure.
  - cbn [PollLoop.fetch_loop]. destruct (current <=? end_block); [|keep].
    apply keeps_bind; [keep|intros _].
    apply keeps_bind; [|intros ?; apply IH].
    destruct (get_logs env n current _); keep.
Qed.

Lemma keeps_get_symbol env token_addr :
  keeps (get_symbol utf8_decode_ignore env token_addr).
Proof.
  intros s. unfold get_symbol.
  pose proof (P_cache s (eth_call env (node s) token_addr) token_addr) as H.
  now destruct (Symbol.get_symbol _ _ _ _).
Qed.

Lemma keeps_process_logs env i logs count :
  keeps (process_logs utf8_decode_ignore env i logs count).
Proof.
  revert i count. induction logs as [|lg logs IH]; intros i count.
  - apply keeps_pure.
  - cbn [PollLoop.process_logs]. apply keeps_bind; [keep|intros [ev|]].
    + destruct (negb (relevant ev)); [apply IH|].
      apply keeps_bind; [keep|intros [|]]; [apply IH|].
      apply keeps_bind; [keep|intros _].
      apply keeps_bind; [apply keeps_get_symbol|intros sym].
      apply keeps_bind; [keep|intros _].
      apply keeps_bind; [|intros _; apply IH].
      unfold send_to_zapier. keep.
    + apply IH.
Qed.

Lemma keeps_body env : keeps (body RPCS utf8_decode_ignore env).
Proof.
  unfold body. apply keeps_bind; [|intros _].
  { unfold periodic_check. destruct (refresh_due env); [|keep].
    apply keeps_bind; [keep|intros best].
    apply keeps_bind; [keep|intros current].
    destruct (negb (String.eqb (fst best) current)); keep. }
  apply keeps_bind; [keep|intros n].
  apply keeps_bind; [keep|intros latest].
  destruct (latest =? 0).
  { unfold failed_query. apply keeps_bind; [keep|intros _].
    apply keeps_bind; [keep|intros errors].
    apply keeps_bind; [|keep]. destruct (3 <? errors); keep. }
  apply keeps_bind; [keep|intros _].
  apply keeps_bind; [|intros _].
  { unfold track_and_process. apply keeps_bind; [keep|intros last].
    destruct (last <? latest); [|keep].
    apply keeps_bind; [keep|intros _].
    apply keeps_bind; [destruct (MAX_BLOCK_GAP <? latest - last); keep|intros _].
    apply keeps_bind; [keep|intros last'].
    apply keeps_bind; [keep|intros n'].
    apply keeps_bind; [apply keeps_fetch_loop|intros logs].
    apply keeps_bind; [apply keeps_process_logs|intros _]. keep. }
  unfold choose_sleep. apply keeps_bind; [keep|intros [b|]]; keep.
Qed.

Lemma keeps_handler env : keeps (handler RPCS env).
Proof.
  unfold handler. apply keeps_bind; [keep|intros _].
  apply keeps_bind; [keep|intros errors].
  destruct (5 <? errors); [|keep].
  apply keeps_bind; [keep|intros best].
  apply keeps_bind; [|intros _; keep].
  apply keeps_update. intros s.
  eapply P_trans; [apply P_node|apply P_last_block].
Qed.

(** Whatever every single write of the loop keeps, an iteration keeps. *)
Lemma tick_keeps env s : P s (snd (tick RPCS utf8_decode_ignore env s)).
Proof.
  unfold tick. pose proof (keeps_body env s) as Hb.
  destruct (body RPCS utf8_decode_ignore env s) as [[k|e] s1];
    cbn [snd] in *; [assumption|].
  pose proof (keeps_handler env s1) as Hh.
  destruct (handler RPCS env s1) as [[u|e'] s2]; cbn [snd] in *;
    eapply P_trans; eassumption.
Qed.

Lemma run_keeps envs s : P s (snd (run RPCS utf8_decode_ignore envs s)).
Proof.
  revert s. induction envs as [|env envs IH]; intros s; [apply P_refl|].
  cbn [run]. pose proof (tick_keeps env s) as Ht.
  destruct (tick RPCS utf8_decode_ignore env s) as [[k|e|e] s1];
    cbn [snd] in *; try assumption;
    (eapply P_trans; [exact Ht|apply IH]).
Qed.

End Frame.

End FrameFacts.

(** ** SymbolResolver: the cache and the dynamic layout *)

Module SymbolCacheFacts.

Import PyStr PyStrFacts Decoder DecoderFacts Symbol.

Section WithDecoder.

Variable utf8_decode_ignore : list Byte.byte -> string.

Abbreviation get_symbol := (Symbol.get_symbol utf8_decode_ignore).
Abbreviation decode_symbol := (Symbol.decode_symbol utf8_decode_ignore).

(** A miss stores what it returns, and never the empty text. *)
Lemma get_symbol_miss reply token_addr (cache : gmap string string) :
  cache !! token_addr = None ->
  exists sym,
    get_symbol reply token_addr cache = (sym, <[token_addr := sym]> cache) /\
    sym <> "".
Proof.
  intros Hmiss. unfold Symbol.get_symbol. rewrite Hmiss.
  destruct reply as [| |result]; try (exists "UNK"; split; [reflexivity|discriminate]).
  destruct (negb (String.eqb result "") && negb (String.eqb result "0x"));
    [|exists "UNK"; split; [reflexivity|discriminate]].
  destruct (decode_symbol result) as [sym|e];
    [|exists "UNK"; split; [reflexivity|discriminate]].
  destruct (String.eqb_spec sym "") as [->|Hne].
  - exists "UNK". split; [reflexivity|discriminate].
  - exists sym. split; [reflexivity|assumption].
Qed.

(** X3. After a call of [get_symbol] the token is cached with the symbol
    that was returned, so a second call returns the same symbol without
    looking at the endpoint's reply and leaves the cache as it is. The
    call writes no other entry, overwrites none, and never returns or
    stores the empty text for a token that was not cached. *)
Theorem get_symbol_resolves_once reply token_addr (cache : gmap string string) :
  let r := get_symbol reply token_addr cache in
  snd r !! token_addr = Some (fst r) /\
  (forall reply', get_symbol reply' token_addr (snd r) = r) /\
  (forall t, t <> token_addr -> snd r !! t = cache !! t) /\
  (forall t v, cache !! t = Some v -> snd r !! t = Some v) /\
  (cache !! token_addr = None -> fst r <> "").
Proof.
  cbv zeta. destruct (cache !! token_addr) as [v|] eqn:Hc.
  - assert (get_symbol reply token_addr cache = (v, cache)) as ->.
    { unfold Symbol.get_symbol. now rewrite Hc. }
    cbn [fst snd]. repeat split; auto; try discriminate.
    intros reply'. unfold Symbol.get_symbol. now rewrite Hc.
  - destruct (get_symbol_miss reply token_addr cache Hc) as (sym & -> & Hne).
    cbn [fst snd]. repeat split.
    + apply lookup_insert_eq.
    + intros reply'. unfold Symbol.get_symbol. now rewrite lookup_insert_eq.
    + intros t Ht. now apply lookup_insert_ne.
    + intros t v Hv. destruct (decide (token_addr = t)) as [->|Hne'].
      * congruence.
      * now rewrite lookup_insert_ne.
    + intros _. exact Hne.
Qed.

Lemma length_append (a b : string) :
  String.length (a +:+ b) = (String.length a + String.length b)%nat.
Proof.
  induction a as [|c a IH]; [reflexivity|].
  change (S (String.length (a +:+ b))
          = S (String.length a + String.length b)).
  now rewrite IH.
Qed.

Lemma append_assoc (x y z : string) : (x +:+ y) +:+ z = x +:+ y +:+ z.
Proof.
  induction x as [|c x IH]; [reflexivity|].
  change (String c ((x +:+ y) +:+ z) = String c (x +:+ y +:+ z)).
  now rewrite IH.
Qed.

Lemma drop_append (a b : string) : drop (String.length a) (a +:+ b) = b.
Proof. induction a as [|c a IH]; [reflexivity|exact IH]. Qed.

Lemma take_append (a b : string) : take (String.length a) (a +:+ b) = a.
Proof.
  induction a as [|c a IH]; [reflexivity|].
  change (String c (take (String.length a) (a +:+ b)) = String c a).
  now rewrite IH.
Qed.

(** The text between two positions that lie on the seams of a
    concatenation. *)
Lemma slice_middle (a b c : string) :
  slice (a +:+ b +:+ c) (len a) (len a + len b) = b.
Proof.
  unfold slice, clamp, len.
  rewrite !length_append.
  destruct (Z.ltb_spec (Z.of_nat (String.length a)) 0) as [H|_]; [lia|].
  destruct (Z.ltb_spec (Z.of_nat (String.length a)
                        + Z.of_nat (String.length b)) 0) as [H|_]; [lia|].
  rewrite !Z.min_l by lia. rewrite Nat2Z.id.
  replace (Z.to_nat (Z.of_nat (String.length a) + Z.of_nat (String.length b)
                     - Z.of_nat (String.length a)))
    with (String.length b) by lia.
  now rewrite drop_append, take_append.
Qed.

(** [int(s, 16)] on bare hex digits. *)
Lemma int16_hex_digits (d : string) :
  all_chars is_hex_digit d = true -> d <> "" -> int16 d = Ret (hex_value d).
Proof.
  intros Hd Hne. destruct d as [|c d]; [contradiction|]. clear Hne.
  pose proof Hd as Hd'. simpl in Hd'. apply andb_prop in Hd' as [Hc Hrest].
  assert (is_space c = false) as Hsp by (revert Hc; clear; each_ascii c).
  assert (is_char "+" c = false) as Hplus by (revert Hc; clear; each_ascii c).
  assert (is_char "-" c = false) as Hminus by (revert Hc; clear; each_ascii c).
  assert (skip_prefix (String c d) = String c d) as Hskip.
  { unfold skip_prefix. destruct d as [|c1 d]; [reflexivity|].
    simpl in Hrest. apply andb_prop in Hrest as [Hc1 _].
    assert (is_char "x" c1 || is_char "X" c1 = false) as ->
        by (revert Hc1; clear; each_ascii c1).
    now rewrite andb_false_r. }
  unfold int16. cbn [lstrip]. rewrite Hsp. unfold split_sign.
  rewrite Hplus, Hminus, Hskip, (hex_digit_not_underscore c Hc).
  cbn [scan_digits]. rewrite (hex_digit_not_underscore c Hc).
  destruct (hex_digit_is_hex c Hc) as [v Hv]. rewrite Hv.
  rewrite scan_digits_hex by (auto using hex_digit_not_underscore).
  unfold hex_value. cbn [hex_value_from all_chars]. now rewrite Hv.
Qed.

(** X4. A reply in the dynamic ABI layout: a 32-byte offset word with the
    value 32, a 32-byte length word with the value [n], at least one, and
    then at least [n] bytes, which are ASCII (below 0x80) when they are
    hex at all. [get_symbol] decodes the [n] bytes after the length word,
    whatever follows them, trims NULs and white space, and returns and
    caches the result ([UNK] when nothing is left or the bytes are not
    hex). On ASCII bytes the UTF-8 decoder gives the characters with these
    codes, which is the first hypothesis; the white space that
    [str.strip()] removes from ASCII text is [is_unicode_space]. *)
Theorem get_symbol_dynamic_layout
    (w0 w1 body rest token_addr : string) (cache : gmap string string) (n : Z) :
  (forall raw,
      Forall (fun b => (Byte.to_N b < 128)%N) raw ->
      utf8_decode_ignore raw = decode_ascii_only raw) ->
  cache !! token_addr = None ->
  all_chars is_hex_digit w0 = true -> String.length w0 = 64%nat ->
  hex_value w0 = 32 ->
  all_chars is_hex_digit w1 = true -> String.length w1 = 64%nat ->
  hex_value w1 = n -> 1 <= n ->
  len body = 2 * n ->
  (forall raw, fromhex body = Ret raw ->
               Forall (fun b => (Byte.to_N b < 128)%N) raw) ->
  let found :=
    match fromhex body with
    | Ret raw =>
        let sym := strip is_unicode_space
                     (strip (is_char Ascii.zero) (decode_ascii_only raw)) in
        if String.eqb sym "" then "UNK" else sym
    | Exc _ => "UNK"
    end in
  get_symbol (Reply ("0x" +:+ w0 +:+ w1 +:+ body +:+ rest)) token_addr cache
  = (found, <[token_addr := found]> cache).
Proof.
  intros Hutf8 Hmiss H0 L0 V0 H1 L1 V1 Hn Hbody Hascii. cbv zeta.
  assert (decode_symbol ("0x" +:+ w0 +:+ w1 +:+ body +:+ rest)
          = res_bind (fromhex body)
              (fun raw =>
                 Ret (strip is_unicode_space
                        (strip (is_char Ascii.zero) (utf8_decode_ignore raw)))))
    as Hdec.
  { unfold Symbol.decode_symbol.
    assert (slice_from ("0x" +:+ w0 +:+ w1 +:+ body +:+ rest) 2
            = w0 +:+ w1 +:+ body +:+ rest) as ->.
    { unfold slice_from, clamp, len. cbn [String.append String.length].
      rewrite !length_append, L0, L1.
      destruct (Z.ltb_spec 2 0); [lia|].
      rewrite Z.min_l by lia. reflexivity. }
    assert (128 < len (w0 +:+ w1 +:+ body +:+ rest)) as Hlong.
    { unfold len in *. rewrite !length_append, L0, L1. lia. }
    apply Z.ltb_lt in Hlong. rewrite Hlong.
    assert (slice (w0 +:+ w1 +:+ body +:+ rest) 0 64 = w0) as ->.
    { change (w0 +:+ w1 +:+ body +:+ rest)
        with ("" +:+ w0 +:+ (w1 +:+ body +:+ rest)).
      replace 64 with (len "" + len w0)
        by (unfold len; rewrite L0; reflexivity).
      apply (slice_middle "" w0 (w1 +:+ body +:+ rest)). }
    rewrite (int16_hex_digits w0 H0) by (destruct w0; [discriminate|discriminate]).
    cbn [res_bind]. rewrite V0.
    assert (slice (w0 +:+ w1 +:+ body +:+ rest) (32 * 2) (32 * 2 + 64) = w1) as ->.
    { replace (32 * 2) with (len w0) by (unfold len; rewrite L0; reflexivity).
      replace 64 with (len w1) by (unfold len; rewrite L1; reflexivity).
      apply (slice_middle w0 w1 (body +:+ rest)). }
    rewrite (int16_hex_digits w1 H1) by (destruct w1; [discriminate|discriminate]).
    cbn [res_bind]. rewrite V1.
    assert (slice (w0 +:+ w1 +:+ body +:+ rest) (32 * 2 + 64)
              (32 * 2 + 64 + n * 2) = body) as ->.
    { pose proof (slice_middle (w0 +:+ w1) body rest) as Hs.
      rewrite append_assoc in Hs.
      replace (32 * 2 + 64) with (len (w0 +:+ w1))
        by (unfold len; rewrite length_append, L0, L1; reflexivity).
      replace (n * 2) with (len body) by lia. exact Hs. }
    reflexivity. }
  unfold Symbol.get_symbol. rewrite Hmiss.
  assert (String.eqb ("0x" +:+ w0 +:+ w1 +:+ body +:+ rest) "" = false) as ->
      by reflexivity.
  assert (String.eqb ("0x" +:+ w0 +:+ w1 +:+ body +:+ rest) "0x" = false) as ->.
  { destruct w0; [discriminate|]. reflexivity. }
  cbn [negb andb]. rewrite Hdec.
  destruct (fromhex body) as [raw|e]; [|reflexivity].
  cbn [res_bind]. now rewrite (Hutf8 raw (Hascii raw eq_refl)).
Qed.

End WithDecoder.

(** The theorem at the reply that holds HYPE. *)
Lemma get_symbol_dynamic_layout_witness :
  Symbol.get_symbol Symbol.decode_ascii_only (Reply Scenarios.hype_dynamic)
    Scenarios.token_contract ∅
  = ("HYPE", <[Scenarios.token_contract := "HYPE"]> ∅).
Proof.
  apply (get_symbol_dynamic_layout Symbol.decode_ascii_only
           "0000000000000000000000000000000000000000000000000000000000000020"
           "0000000000000000000000000000000000000000000000000000000000000004"
           "48595045"
           "00000000000000000000000000000000000000000000000000000000"
           Scenarios.token_contract ∅ 4);
    try reflexivity; try apply lookup_empty; try lia.
  intros raw Hraw. vm_compute in Hraw. injection Hraw as <-.
  repeat (constructor; [reflexivity|]). constructor.
Defined.

End SymbolCacheFacts.

(** ** DedupFilter: [processed_txs] *)

Module DedupFacts.

Import Decoder PollLoop PollLoopFacts.

Lemma deque_append_cases (d : list string) (x : string) :
  (length d <= 1000)%nat ->
  deque_append d x
  = List.skipn (length (d ++ [x]) - 1000) (d ++ [x]) /\
  (length (deque_append d x) <= 1000)%nat /\
  ((length d < 1000)%nat -> deque_append d x = d ++ [x]).
Proof.
  intros Hlen. unfold deque_append. rewrite length_app. cbn [length].
  destruct (Nat.ltb_spec 1000 (length d + 1)) as [Hfull|Hroom].
  - assert (length d = 1000%nat) as H1000 by lia.
    destruct d as [|a d]; [discriminate|]. cbn [app List.tl].
    replace (length (a :: d) + 1 - 1000)%nat with 1%nat by lia.
    cbn [List.skipn]. repeat split; [|lia].
    rewrite length_app. cbn [length] in *. lia.
  - replace (length d + 1 - 1000)%nat with 0%nat by lia.
    cbn [List.skipn]. repeat split.
    rewrite length_app. cbn [length]. lia.
Qed.

(** X5. The ring of transaction hashes holds the most recent 1000 of the
    hashes appended to it, oldest first: it never grows beyond 1000
    entries, and once 1000 newer hashes have been appended nothing older
    is left in it. *)
Theorem processed_txs_keeps_last_1000 (d xs : list string) :
  (length d <= 1000)%nat ->
  fold_left deque_append xs d
  = List.skipn (length (d ++ xs) - 1000) (d ++ xs) /\
  (length (fold_left deque_append xs d) <= 1000)%nat /\
  ((1000 <= length xs)%nat ->
   fold_left deque_append xs d = List.skipn (length xs - 1000) xs).
Proof.
  intros Hlen.
  assert (fold_left deque_append xs d
          = List.skipn (length (d ++ xs) - 1000) (d ++ xs)) as Heq.
  { revert d Hlen. induction xs as [|x xs IH]; intros d Hlen.
    - cbn [fold_left]. rewrite app_nil_r.
      replace (length d - 1000)%nat with 0%nat by lia. reflexivity.
    - cbn [fold_left].
      destruct (deque_append_cases d x Hlen) as (_ & Hbound & Hroom).
      destruct (Nat.lt_ge_cases (length d) 1000) as [Hlt|Hge].
      + rewrite (Hroom Hlt) in *. rewrite (IH _ Hbound), <- app_assoc.
        reflexivity.
      + destruct d as [|a d]; [simpl in Hge; lia|].
        assert (deque_append (a :: d) x = d ++ [x]) as Hd.
        { unfold deque_append. cbn [app length]. rewrite length_app.
          cbn [length] in *.
          destruct (Nat.ltb_spec 1000 (S (length d + 1))); [reflexivity|lia]. }
        rewrite Hd in *. rewrite (IH _ Hbound), <- app_assoc. cbn [app length].
        set (l := d ++ x :: xs).
        assert (1000 <= length l)%nat as Hl.
        { unfold l. rewrite length_app. cbn [length] in *. lia. }
        replace (S (length l) - 1000)%nat with (S (length l - 1000)) by lia.
        reflexivity. }
  split; [exact Heq|]. split.
  - rewrite Heq, length_skipn. lia.
  - intros Hmany. rewrite Heq, length_app.
    replace (length d + length xs - 1000)%nat
      with ((length xs - 1000) + length d)%nat by lia.
    rewrite <- List.skipn_skipn.
    rewrite List.skipn_app, List.skipn_all, Nat.sub_diag. reflexivity.
Qed.

Lemma processed_txs_keeps_last_1000_witness :
  fold_left deque_append ["0xbbbb"; "0xcccc"] ["0xaaaa"]
  = ["0xaaaa"; "0xbbbb"; "0xcccc"].
Proof.
  destruct (processed_txs_keeps_last_1000 ["0xaaaa"] ["0xbbbb"; "0xcccc"])
    as (Heq & _ & _).
  - simpl. lia.
  - rewrite Heq. reflexivity.
Defined.

End DedupFacts.

(** ** Invariants of the loop *)

Module InvariantFacts.

Import Decoder PollLoop PollLoopFacts.

Lemma get_symbol_keeps_entries utf8_decode_ignore reply token_addr
    (cache : gmap string string) (t v : string) :
  cache !! t = Some v ->
  snd (Symbol.get_symbol utf8_decode_ignore reply token_addr cache) !! t
  = Some v.
Proof.
  intros Hv. destruct (cache !! token_addr) as [w|] eqn:Hc.
  - unfold Symbol.get_symbol. now rewrite Hc.
  - destruct (SymbolCacheFacts.get_symbol_miss utf8_decode_ignore reply
                token_addr cache Hc) as (sym & -> & _).
    cbn [snd]. rewrite lookup_insert_ne; [assumption|congruence].
Qed.

(** X6. The ring of transaction hashes never holds more than 1000 entries,
    over any number of iterations, whatever the endpoints answer. *)
Theorem processed_txs_bounded
    (RPCS : list string) (utf8_decode_ignore : list Byte.byte -> string)
    (envs : list Env) (s : State) :
  (length (processed_txs s) <= 1000)%nat ->
  (length (processed_txs (snd (run RPCS utf8_decode_ignore envs s))) <= 1000)%nat.
Proof.
  apply (FrameFacts.run_keeps RPCS utf8_decode_ignore
           (fun s s' => (length (processed_txs s) <= 1000)%nat ->
                        (length (processed_txs s') <= 1000)%nat));
    try (intros; simpl; auto; fail).
  intros s0 x H. cbn [processed_txs set_processed_txs].
  now destruct (DedupFacts.deque_append_cases (processed_txs s0) x H)
    as (_ & Hb & _).
Qed.

Lemma processed_txs_bounded_witness :
  (length (processed_txs
             (snd (Scenarios.run
                     [Scenarios.answering false (Reply "0x65")
                        [Scenarios.transfer_log] Scenarios.silent]
                     (Scenarios.watching Scenarios.endpoint_a 100))))
   <= 1000)%nat.
Proof.
  apply processed_txs_bounded. simpl. lia.
Defined.

(** X7. A symbol that is in the cache stays there unchanged, over any
    number of iterations, whatever the endpoints answer. *)
Theorem symbol_cache_entries_persist
    (RPCS : list string) (utf8_decode_ignore : list Byte.byte -> string)
    (envs : list Env) (s : State) (t v : string) :
  symbol_cache s !! t = Some v ->
  symbol_cache (snd (run RPCS utf8_decode_ignore envs s)) !! t = Some v.
Proof.
  revert t v.
  apply (FrameFacts.run_keeps RPCS utf8_decode_ignore
           (fun s s' => forall t v,
                symbol_cache s !! t = Some v ->
                symbol_cache s' !! t = Some v));
    try (intros; simpl; auto; fail).
  intros s0 reply token_addr t v Hv. cbn [symbol_cache set_symbol_cache].
  now apply get_symbol_keeps_entries.
Qed.

Lemma symbol_cache_entries_persist_witness :
  let s := set_symbol_cache (<[Scenarios.token_contract := "UNK"]> ∅)
             (Scenarios.watching Scenarios.endpoint_a 100) in
  symbol_cache
    (snd (Scenarios.run
            [Scenarios.answering false (Reply "0x65")
               [Scenarios.transfer_log] Scenarios.silent] s))
  !! Scenarios.token_contract = Some "UNK".
Proof.
  cbv zeta. apply symbol_cache_entries_persist. apply lookup_insert_eq.
Defined.

End InvariantFacts.

(** ** DedupFilter: one batch *)

Module BatchFacts.

Import Decoder PollLoop PollLoopFacts.

Section Batch.

Variable utf8_decode_ignore : list Byte.byte -> string.
Variable env : Env.

Abbreviation process_logs := (PollLoop.process_logs utf8_decode_ignore env).

Lemma seen_iff (tx : string) (txs : list string) :
  existsb (String.eqb tx) txs = true <-> In tx txs.
Proof.
  rewrite existsb_exists. split.
  - intros (x & Hin & Heq). apply String.eqb_eq in Heq. now subst.
  - intros Hin. exists tx. split; [assumption|apply String.eqb_refl].
Qed.

(** What a batch does to the ring and the queue while the ring has room
    for the whole batch: [sent] are the payloads queued, [extra] is the
    hash of a log that was recorded and then made the loop raise. *)
Lemma process_logs_dedup i logs count s :
  (length (processed_txs s) + length logs <= 1000)%nat ->
  exists sent extra,
    zapier_queue (snd (process_logs i logs count s)) = zapier_queue s ++ sent /\
    processed_txs (snd (process_logs i logs count s))
    = processed_txs s ++ List.map Delivery.txHash sent ++ extra /\
    List.NoDup (List.map Delivery.txHash sent ++ extra) /\
    (forall h, In h (List.map Delivery.txHash sent ++ extra) ->
               ~ In h (processed_txs s)) /\
    (length (List.map Delivery.txHash sent ++ extra) <= length logs)%nat /\
    ((exists c, fst (process_logs i logs count s) = Ret c) ->
     extra = [] /\
     forall lg ev,
       In lg logs -> decode_log lg = Ret (Some ev) -> relevant ev = true ->
       In (ev_txHash ev) (processed_txs (snd (process_logs i logs count s)))).
Proof.
  revert i count s. induction logs as [|lg logs IH]; intros i count s Hcap.
  { exists [], []. cbn [PollLoop.process_logs pure fst snd List.map app].
    rewrite !app_nil_r. repeat split; auto.
    - constructor.
    - intros lg ev []. }
  cbn [length] in Hcap.
  (* the log is passed over *)
  assert (forall count',
             (forall ev, decode_log lg = Ret (Some ev) -> relevant ev = true ->
                         In (ev_txHash ev) (processed_txs s)) ->
             exists sent extra,
               zapier_queue (snd (process_logs (S i) logs count' s))
               = zapier_queue s ++ sent /\
               processed_txs (snd (process_logs (S i) logs count' s))
               = processed_txs s ++ List.map Delivery.txHash sent ++ extra /\
               List.NoDup (List.map Delivery.txHash sent ++ extra) /\
               (forall h, In h (List.map Delivery.txHash sent ++ extra) ->
                          ~ In h (processed_txs s)) /\
               (length (List.map Delivery.txHash sent ++ extra)
                <= length (lg :: logs))%nat /\
               ((exists c, fst (process_logs (S i) logs count' s) = Ret c) ->
                extra = [] /\
                forall lg' ev,
                  In lg' (lg :: logs) -> decode_log lg' = Ret (Some ev) ->
                  relevant ev = true ->
                  In (ev_txHash ev)
                     (processed_txs (snd (process_logs (S i) logs count' s)))))
    as Hskip.
  { intros count' Hlg.
    destruct (IH (S i) count' s) as (sent & extra & Q & T & N & D & L & R);
      [lia|].
    exists sent, extra. repeat split; try assumption.
    - cbn [length]. lia.
    - now apply R.
    - intros lg' ev [<-|Hin] Hdec Hrel.
      + rewrite T. apply in_or_app. left. now apply Hlg.
      + destruct R as [_ R]; [assumption|]. now apply (R lg' ev). }
  (* the loop ends at this log *)
  assert (forall s0 extra e,
             zapier_queue s0 = zapier_queue s ->
             processed_txs s0 = processed_txs s ++ extra ->
             (length extra <= 1)%nat ->
             (forall h, In h extra -> ~ In h (processed_txs s)) ->
             exists sent extra',
               zapier_queue (snd (@Exc Z e, s0)) = zapier_queue s ++ sent /\
               processed_txs (snd (@Exc Z e, s0))
               = processed_txs s ++ List.map Delivery.txHash sent ++ extra' /\
               List.NoDup (List.map Delivery.txHash sent ++ extra') /\
               (forall h, In h (List.map Delivery.txHash sent ++ extra') ->
                          ~ In h (processed_txs s)) /\
               (length (List.map Delivery.txHash sent ++ extra')
                <= length (lg :: logs))%nat /\
               ((exists c, fst (@Exc Z e, s0) = Ret c) ->
                extra' = [] /\
                forall lg' ev,
                  In lg' (lg :: logs) -> decode_log lg' = Ret (Some ev) ->
                  relevant ev = true ->
                  In (ev_txHash ev) (processed_txs (snd (@Exc Z e, s0)))))
    as Hstop.
  { intros s0 extra e Q T L D. exists [], extra.
    cbn [fst snd List.map app length]. rewrite app_nil_r.
    assert (List.NoDup extra) as N.
    { destruct extra as [|h [|h' extra']].
      - constructor.
      - constructor; [intros []|constructor].
      - simpl in L. lia. }
    split; [assumption|]. split; [assumption|]. split; [assumption|].
    split; [assumption|]. split; [lia|].
    intros [c Hc]. discriminate Hc. }
  cbn [PollLoop.process_logs]. rewrite bind_lift.
  destruct (decode_log lg) as [[ev|]|e] eqn:Hdec.
  - destruct (relevant ev) eqn:Hrel; cbn [negb].
    + rewrite bind_read.
      destruct (existsb (String.eqb (ev_txHash ev)) (processed_txs s))
        eqn:Hseen.
      * apply Hskip. intros ev' [= <-] _. now apply seen_iff.
      * assert (~ In (ev_txHash ev) (processed_txs s)) as Hnew.
        { intros Hin. apply seen_iff in Hin. congruence. }
        rewrite bind_update, bind_get_symbol.
        match goal with
        | |- context [make_payload env i ev ?x] => set (sym := x)
        end.
        match goal with
        | |- context [set_symbol_cache ?c ?st] =>
            set (s2 := set_symbol_cache c st)
        end.
        assert (processed_txs s2 = processed_txs s ++ [ev_txHash ev]) as T2.
        { unfold s2. cbn [processed_txs set_symbol_cache set_processed_txs].
          apply DedupFacts.deque_append_cases; lia. }
        assert (zapier_queue s2 = zapier_queue s) as Q2 by reflexivity.
        clearbody s2. rewrite bind_lift.
        destruct (true_div (ev_value ev)) as [u|e].
        -- unfold send_to_zapier. rewrite bind_update.
           set (p := make_payload env i ev sym).
           set (s3 := set_zapier_queue (zapier_queue s2 ++ [p]) s2).
           destruct (IH (S i) (count + 1) s3)
             as (sent & extra & Q & T & N & D & L & R).
           { unfold s3. cbn [processed_txs set_zapier_queue]. rewrite T2.
             rewrite length_app. cbn [length]. lia. }
           assert (zapier_queue s3 = zapier_queue s ++ [p]) as Q3
               by (unfold s3; cbn [zapier_queue set_zapier_queue]; now rewrite Q2).
           assert (processed_txs s3 = processed_txs s ++ [ev_txHash ev]) as T3
               by (unfold s3; cbn [processed_txs set_zapier_queue]; exact T2).
           clearbody s3. rewrite Q3 in Q. rewrite T3 in T, D.
           exists (p :: sent), extra. cbn [List.map app length].
           change (Delivery.txHash p) with (ev_txHash ev).
           repeat split.
           ++ rewrite Q, <- app_assoc. reflexivity.
           ++ rewrite T, <- app_assoc. reflexivity.
           ++ constructor; [|assumption]. intros Hin.
              apply (D _ Hin). apply in_or_app. right. now left.
           ++ intros h [<-|Hin]; [assumption|].
              intros Hs. apply (D _ Hin). apply in_or_app. now left.
           ++ lia.
           ++ now apply R.
           ++ intros lg' ev' [<-|Hin] Hdec' Hrel'.
              ** rewrite Hdec in Hdec'. injection Hdec' as <-.
                 rewrite T. apply in_or_app. left. apply in_or_app.
                 right. now left.
              ** destruct R as [_ R]; [assumption|]. now apply (R lg' ev').
        -- apply (Hstop s2 [ev_txHash ev] e); try assumption.
           ++ simpl. lia.
           ++ intros h [<-|[]]. assumption.
    + apply Hskip. intros ev' [= <-] Hrel'. congruence.
  - apply Hskip. intros ev' [=].
  - apply (Hstop s [] e); try reflexivity.
    + now rewrite app_nil_r.
    + simpl. lia.
    + intros h [].
Qed.

(** X8. While the ring has room for the whole batch, a batch queues at
    most one payload per transaction hash, and none for a hash that was in
    the ring before: of several transfers of one transaction that involve
    the watched address, only the first is delivered. *)
Theorem batch_queues_each_transaction_once i logs count s :
  (length (processed_txs s) + length logs <= 1000)%nat ->
  exists sent,
    zapier_queue (snd (process_logs i logs count s)) = zapier_queue s ++ sent /\
    List.NoDup (List.map Delivery.txHash sent) /\
    forall p, In p sent -> ~ In (Delivery.txHash p) (processed_txs s).
Proof.
  intros Hcap.
  destruct (process_logs_dedup i logs count s Hcap)
    as (sent & extra & Q & _ & N & D & _).
  exists sent. split; [exact Q|]. split.
  - now apply List.NoDup_app_remove_r in N.
  - intros p Hp. apply D. apply in_or_app. left. now apply in_map.
Qed.

(** A batch that ran to its end met no log on which [decode_log] raises. *)
Lemma process_logs_ret_decodes i logs count s c :
  fst (process_logs i logs count s) = Ret c ->
  forall lg, In lg logs -> exists o, decode_log lg = Ret o.
Proof.
  revert i count s. induction logs as [|lg logs IH]; intros i count s Hret lg' Hin.
  { destruct Hin. }
  cbn [PollLoop.process_logs] in Hret. rewrite bind_lift in Hret.
  destruct (decode_log lg) as [o|e] eqn:Hdec; [|discriminate].
  destruct Hin as [<-|Hin]; [eauto|].
  destruct o as [ev|]; [|now apply (IH _ _ _ Hret)].
  destruct (negb (relevant ev)); [now apply (IH _ _ _ Hret)|].
  rewrite bind_read in Hret.
  destruct (existsb _ _); [now apply (IH _ _ _ Hret)|].
  rewrite bind_update, bind_get_symbol, bind_lift in Hret.
  destruct (true_div (ev_value ev)); [|discriminate].
  unfold send_to_zapier in Hret. rewrite bind_update in Hret.
  now apply (IH _ _ _ Hret).
Qed.

(** A batch all of whose relevant transfers are in the ring has no
    effect. *)
Lemma process_logs_all_seen i logs count s :
  (forall lg, In lg logs -> exists o, decode_log lg = Ret o) ->
  (forall lg ev,
      In lg logs -> decode_log lg = Ret (Some ev) -> relevant ev = true ->
      In (ev_txHash ev) (processed_txs s)) ->
  process_logs i logs count s = (Ret count, s).
Proof.
  revert i. induction logs as [|lg logs IH]; intros i Hdec Hseen;
    [reflexivity|].
  assert (process_logs (S i) logs count s = (Ret count, s)) as Hrest.
  { apply IH.
    - intros lg' Hin. apply Hdec. now right.
    - intros lg' ev Hin. apply Hseen. now right. }
  cbn [PollLoop.process_logs]. rewrite bind_lift.
  destruct (Hdec lg (or_introl eq_refl)) as [[ev|] Ho]; rewrite Ho;
    [|exact Hrest].
  destruct (relevant ev) eqn:Hrel; cbn [negb]; [|exact Hrest].
  rewrite bind_read.
  assert (existsb (String.eqb (ev_txHash ev)) (processed_txs s) = true) as ->.
  { apply seen_iff. apply (Hseen lg ev); auto. now left. }
  exact Hrest.
Qed.

(** X9. While the ring has room for the whole batch, a batch that was
    processed to its end can be processed again without any effect: no
    payload is queued a second time and the state stays as it is. *)
Theorem batch_replay_has_no_effect i logs count s c :
  (length (processed_txs s) + length logs <= 1000)%nat ->
  fst (process_logs i logs count s) = Ret c ->
  forall i' count',
    process_logs i' logs count' (snd (process_logs i logs count s))
    = (Ret count', snd (process_logs i logs count s)).
Proof.
  intros Hcap Hret i' count'.
  destruct (process_logs_dedup i logs count s Hcap)
    as (sent & extra & _ & _ & _ & _ & _ & R).
  destruct R as [_ R]; [eauto|].
  apply process_logs_all_seen.
  - exact (process_logs_ret_decodes i logs count s c Hret).
  - exact R.
Qed.

(** X10. A relevant transfer whose value is too large for a float is
    recorded in the ring before the division raises, and is not queued.
    When the batch is fetched again the log is passed over as a
    duplicate: the transfer is not delivered while its hash is in the
    ring. *)
Theorem overflowing_transfer_is_lost i lg ev count s :
  decode_log lg = Ret (Some ev) ->
  relevant ev = true ->
  ~ In (ev_txHash ev) (processed_txs s) ->
  (length (processed_txs s) < 1000)%nat ->
  2 ^ 1024 - 2 ^ 970 <= Z.abs (ev_value ev) ->
  let r := process_logs i [lg] count s in
  fst r = Exc OverflowError /\
  zapier_queue (snd r) = zapier_queue s /\
  processed_txs (snd r) = processed_txs s ++ [ev_txHash ev] /\
  forall i' count', process_logs i' [lg] count' (snd r) = (Ret count', snd r).
Proof.
  intros Hdec Hrel Hnew Hroom Hbig. cbv zeta.
  assert (process_logs i [lg] count s
          = (Exc OverflowError,
             set_symbol_cache
               (snd (Symbol.get_symbol utf8_decode_ignore
                       (eth_call env (node s) (ev_token ev)) (ev_token ev)
                       (symbol_cache s)))
               (set_processed_txs (processed_txs s ++ [ev_txHash ev]) s)))
    as ->.
  { cbn [PollLoop.process_logs]. rewrite bind_lift, Hdec, Hrel. cbn [negb].
    rewrite bind_read.
    assert (existsb (String.eqb (ev_txHash ev)) (processed_txs s) = false)
      as ->.
    { destruct (existsb _ _) eqn:E; [|reflexivity].
      apply seen_iff in E. contradiction. }
    rewrite bind_update, bind_get_symbol, bind_lift.
    unfold true_div. apply Z.leb_le in Hbig. rewrite Hbig.
    destruct (DedupFacts.deque_append_cases (processed_txs s) (ev_txHash ev))
      as (_ & _ & Hfits); [lia|].
    rewrite (Hfits Hroom). reflexivity. }
  cbn [fst snd]. repeat split.
  intros i' count'. apply process_logs_all_seen.
  - intros lg' [<-|[]]. eauto.
  - intros lg' ev' [<-|[]] Hdec' _. rewrite Hdec in Hdec'.
    injection Hdec' as <-. cbn [processed_txs set_symbol_cache set_processed_txs].
    apply in_or_app. right. now left.
Qed.

End Batch.

(** The theorems at a batch with the same transfer twice. *)
Lemma batch_queues_each_transaction_once_witness :
  let env :=
    Scenarios.answering false (Reply "0x65")
      [Scenarios.transfer_log; Scenarios.transfer_log] Scenarios.silent in
  exists sent,
    zapier_queue
      (snd (PollLoop.process_logs Symbol.decode_ascii_only env 0
              [Scenarios.transfer_log; Scenarios.transfer_log] 0
              (Scenarios.watching Scenarios.endpoint_a 100)))
    = [] ++ sent /\
    List.NoDup (List.map Delivery.txHash sent) /\
    List.map Delivery.txHash sent = ["0xaaaa"].
Proof.
  cbv zeta.
  destruct (batch_queues_each_transaction_once Symbol.decode_ascii_only
              (Scenarios.answering false (Reply "0x65")
                 [Scenarios.transfer_log; Scenarios.transfer_log]
                 Scenarios.silent)
              0 [Scenarios.transfer_log; Scenarios.transfer_log] 0
              (Scenarios.watching Scenarios.endpoint_a 100))
    as (sent & Q & N & _).
  - simpl. lia.
  - exists sent. split; [exact Q|]. split; [exact N|].
    vm_compute in Q. cbn [app] in Q. subst sent. reflexivity.
Defined.

Lemma batch_replay_has_no_effect_witness :
  let env :=
    Scenarios.answering false (Reply "0x65") [Scenarios.transfer_log]
      Scenarios.silent in
  let s' :=
    snd (PollLoop.process_logs Symbol.decode_ascii_only env 0
           [Scenarios.transfer_log] 0
           (Scenarios.watching Scenarios.endpoint_a 100)) in
  PollLoop.process_logs Symbol.decode_ascii_only env 0
    [Scenarios.transfer_log] 0 s' = (Ret 0, s').
Proof.
  cbv zeta.
  apply (batch_replay_has_no_effect Symbol.decode_ascii_only _ 0
           [Scenarios.transfer_log] 0
           (Scenarios.watching Scenarios.endpoint_a 100) 1).
  - simpl. lia.
  - vm_compute. reflexivity.
Defined.

Lemma overflowing_transfer_is_lost_witness :
  let env :=
    Scenarios.answering false (Reply "0x65") [MoreScenarios.huge_value_log]
      Scenarios.silent in
  let r :=
    PollLoop.process_logs Symbol.decode_ascii_only env 0
      [MoreScenarios.huge_value_log] 0
      (Scenarios.watching Scenarios.endpoint_a 100) in
  fst r = Exc OverflowError /\
  zapier_queue (snd r) = [] /\
  processed_txs (snd r) = ["0xffff"].
Proof.
  cbv zeta.
  destruct (overflowing_transfer_is_lost Symbol.decode_ascii_only
              (Scenarios.answering false (Reply "0x65")
                 [MoreScenarios.huge_value_log] Scenarios.silent)
              0 MoreScenarios.huge_value_log
              MoreScenarios.huge_value_event 0
              (Scenarios.watching Scenarios.endpoint_a 100))
    as (H1 & H2 & H3 & _).
  - vm_compute. reflexivity.
  - vm_compute. reflexivity.
  - intros [].
  - simpl. lia.
  - vm_compute. intros H. discriminate H.
  - repeat split; assumption.
Defined.

End BatchFacts.

Module SelectionFacts.

Import Selector.

Lemma dict_set_in {V : Type} (d : list (string * V)) k v x :
  In x (dict_set d k v) -> x = (k, v) \/ In x d.
Proof.
  induction d as [|[k' v'] d IH]; cbn [dict_set].
  - intros [<-|[]]. now left.
  - destruct (String.eqb k' k).
    + intros [<-|H]; [now left|right; now right].
    + intros [<-|H]; [right; now left|].
      destruct (IH H) as [->|H']; [now left|right; now right].
Qed.

Lemma dict_set_nonempty {V : Type} (d : list (string * V)) k v :
  dict_set d k v <> [].
Proof.
  destruct d as [|[k' v'] d]; cbn [dict_set]; [discriminate|].
  destruct (String.eqb k' k); discriminate.
Qed.

Section WithProbes.

Variable probe : nat -> string -> Probe.

(** Every entry of the dict was put there by a probe that reported its
    height, a positive one. *)
Lemma collect_sound i nodes d results :
  collect probe i nodes d = Ret results ->
  forall n h lat,
    In (n, (h, lat)) results ->
    In (n, (h, lat)) d \/
    (0 < h /\
     exists j, nth_error nodes j = Some n /\
               get_latest_block (fst (probe (i + j)%nat n)) = Ret h).
Proof.
  revert i d. induction nodes as [|m nodes IH]; intros i d H n h lat Hin.
  - injection H as <-. now left.
  - cbn [collect] in H. unfold check_rpc in H.
    destruct (get_latest_block (fst (probe i m))) as [blk|e] eqn:Hb;
      [|discriminate].
    cbn [res_bind] in H.
    destruct (IH _ _ H n h lat Hin) as [Hd|(Hpos & j & Hj & Hh)].
    + unfold record in Hd. destruct (Z.ltb_spec 0 blk) as [Hblk|_].
      * apply dict_set_in in Hd. destruct Hd as [E|Hd]; [|now left].
        injection E as -> -> ->. right. split; [assumption|].
        exists 0%nat. rewrite Nat.add_0_r. auto.
      * now left.
    + right. split; [assumption|]. exists (S j).
      rewrite Nat.add_succ_r. auto.
Qed.

Lemma collect_keeps i nodes d results :
  collect probe i nodes d = Ret results -> d <> [] -> results <> [].
Proof.
  revert i d. induction nodes as [|m nodes IH]; intros i d H Hd.
  - now injection H as <-.
  - cbn [collect] in H. unfold check_rpc in H.
    destruct (get_latest_block (fst (probe i m))) as [blk|e]; [|discriminate].
    cbn [res_bind] in H. apply (IH _ _ H).
    unfold record. destruct (0 <? blk); [apply dict_set_nonempty|assumption].
Qed.

(** A probe that reports a positive height leaves an entry. *)
Lemma collect_positive i nodes d results j n h :
  collect probe i nodes d = Ret results ->
  nth_error nodes j = Some n ->
  get_latest_block (fst (probe (i + j)%nat n)) = Ret h ->
  0 < h ->
  results <> [].
Proof.
  revert i d j. induction nodes as [|m nodes IH]; intros i d j H Hj Hh Hpos.
  - destruct j; discriminate.
  - cbn [collect] in H. unfold check_rpc in H.
    destruct (get_latest_block (fst (probe i m))) as [blk|e] eqn:Hb;
      [|discriminate].
    cbn [res_bind] in H. destruct j as [|j].
    + injection Hj as ->. rewrite Nat.add_0_r, Hb in Hh. injection Hh as ->.
      apply (collect_keeps _ _ _ _ H). unfold record.
      destruct (Z.ltb_spec 0 h); [apply dict_set_nonempty|lia].
    + apply (IH (S i) _ j H Hj); [|assumption].
      now rewrite Nat.add_succ_r in Hh.
Qed.

Lemma get_best_rpc_inv RPCS best :
  get_best_rpc RPCS probe = Ret best ->
  exists first rest results,
    RPCS = first :: rest /\
    collect probe 0 RPCS [] = Ret results /\
    ((results = [] /\ best = (first, 0)) \/
     (exists lat, In (fst best, (snd best, lat)) results)).
Proof.
  unfold get_best_rpc. destruct RPCS as [|first rest]; [discriminate|].
  destruct (collect probe 0 (first :: rest) []) as [results|e]; [|discriminate].
  cbn [res_bind]. intros H. exists first, rest, results.
  split; [reflexivity|]. split; [reflexivity|].
  destruct results as [|x xs].
  - left. split; [reflexivity|]. now injection H.
  - right. destruct (_ <? _)%nat; [discriminate|]. injection H as <-.
    cbn [fst snd]. exists (snd (snd (max_from x xs))).
    pose proof (SelectorFacts.max_from_in x xs) as Hin.
    now destruct (max_from x xs) as [n [h lat]].
Qed.

(** What selection returns is a configured endpoint and a height that is
    not negative. *)
Lemma get_best_rpc_in RPCS best :
  get_best_rpc RPCS probe = Ret best ->
  In (fst best) RPCS /\ 0 <= snd best.
Proof.
  intros H.
  destruct (get_best_rpc_inv RPCS best H)
    as (first & rest & results & -> & Hc & [[_ ->]|[lat Hin]]).
  - cbn [fst snd]. split; [now left|lia].
  - destruct (collect_sound _ _ _ _ Hc _ _ _ Hin) as [[]|(Hpos & j & Hj & _)].
    split; [|lia]. now apply nth_error_In in Hj.
Qed.

(** X11. Selection returns either a configured endpoint together with the
    positive height that the probe of this endpoint reported, or, with
    height 0, the first configured endpoint, and this only when no probe
    reported a positive height. The list may name an endpoint twice. *)
Theorem get_best_rpc_reports_probed_height RPCS n h :
  get_best_rpc RPCS probe = Ret (n, h) ->
  (0 < h /\
   exists j, nth_error RPCS j = Some n /\
             get_latest_block (fst (probe j n)) = Ret h) \/
  (h = 0 /\ nth_error RPCS 0 = Some n /\
   forall j m b,
     nth_error RPCS j = Some m ->
     get_latest_block (fst (probe j m)) = Ret b -> b <= 0).
Proof.
  intros H.
  destruct (get_best_rpc_inv RPCS (n, h) H)
    as (first & rest & results & -> & Hc & [[-> E]|[lat Hin]]).
  - right. injection E as -> ->. split; [reflexivity|]. split; [reflexivity|].
    intros j m b Hj Hb. destruct (Z.le_gt_cases b 0) as [|Hpos]; [assumption|].
    exfalso. apply (collect_positive 0 _ [] [] j m b Hc Hj Hb); [lia|reflexivity].
  - left. cbn [fst snd] in Hin.
    destruct (collect_sound _ _ _ _ Hc _ _ _ Hin) as [[]|(Hpos & j & Hj & Hh)].
    split; [assumption|]. exists j. auto.
Qed.

(** X12. When the reply of any one endpoint makes its probe raise (a
    [null] result, or a numeral that [int] rejects), selection raises,
    whatever the other endpoints answer. *)
Theorem get_best_rpc_raises_with_one_probe RPCS j n e :
  nth_error RPCS j = Some n ->
  get_latest_block (fst (probe j n)) = Exc e ->
  exists e', get_best_rpc RPCS probe = Exc e'.
Proof.
  intros Hj He. unfold get_best_rpc.
  destruct RPCS as [|first rest]; [eauto|].
  destruct (SelectorFacts.collect_raises probe 0 (first :: rest) [] j n e Hj He)
    as [e' ->].
  cbn [res_bind]. eauto.
Qed.

End WithProbes.

Lemma get_best_rpc_reports_probed_height_witness :
  exists j,
    nth_error Scenarios.endpoints j = Some Scenarios.endpoint_b /\
    get_latest_block (fst (Scenarios.b_ahead j Scenarios.endpoint_b)) = Ret 105.
Proof.
  destruct (get_best_rpc_reports_probed_height Scenarios.b_ahead
              Scenarios.endpoints Scenarios.endpoint_b 105)
    as [(_ & H)|(H & _)].
  - vm_compute. reflexivity.
  - exact H.
  - discriminate H.
Defined.

Lemma get_best_rpc_raises_with_one_probe_witness :
  exists e',
    get_best_rpc Scenarios.endpoints MoreScenarios.b_null = Exc e'.
Proof.
  apply (get_best_rpc_raises_with_one_probe MoreScenarios.b_null
           Scenarios.endpoints 1 Scenarios.endpoint_b TypeError).
  - reflexivity.
  - reflexivity.
Defined.

End SelectionFacts.

Module ControlFacts.

Import Decoder PollLoop PollLoopFacts.

Section Control.

Variable RPCS : list string.
Variable utf8_decode_ignore : list Byte.byte -> string.

Section OneIteration.

Variable env : Env.

Abbreviation periodic_check := (PollLoop.periodic_check RPCS env).
Abbreviation failed_query := (PollLoop.failed_query RPCS env).
Abbreviation track_and_process :=
  (PollLoop.track_and_process utf8_decode_ignore env).
Abbreviation body := (PollLoop.body RPCS utf8_decode_ignore env).
Abbreviation handler := (PollLoop.handler RPCS env).
Abbreviation tick := (PollLoop.tick RPCS utf8_decode_ignore env).

(** *** The endpoint and the cursor *)

Lemma periodic_check_node s :
  In (node s) RPCS -> In (node (snd (periodic_check s))) RPCS.
Proof.
  intros Hn. unfold PollLoop.periodic_check.
  destruct (refresh_due env); [|exact Hn].
  rewrite bind_lift.
  destruct (Selector.get_best_rpc RPCS (probe_refresh env)) as [best|e] eqn:Hb;
    [|exact Hn].
  rewrite bind_read.
  destruct (negb (String.eqb (fst best) (node s))); [|exact Hn].
  rewrite bind_update. unfold lift. cbn [snd node set_node].
  now destruct (SelectionFacts.get_best_rpc_in _ _ _ Hb).
Qed.

Lemma failed_query_node s :
  In (node s) RPCS -> In (node (snd (failed_query s))) RPCS.
Proof.
  intros Hn. unfold PollLoop.failed_query. rewrite bind_update, bind_read.
  cbn [consecutive_errors set_consecutive_errors].
  destruct (3 <? consecutive_errors s + 1).
  - rewrite bind_bind, bind_lift.
    destruct (Selector.get_best_rpc RPCS (probe_failover env)) as [best|e] eqn:Hb;
      [|exact Hn].
    rewrite bind_bind, bind_update, bind_update. cbn.
    now destruct (SelectionFacts.get_best_rpc_in _ _ _ Hb).
  - rewrite bind_pure. exact Hn.
Qed.

Lemma track_and_process_cursor latest s :
  0 <= last_block s -> 0 <= last_block (snd (track_and_process latest s)).
Proof.
  intros Hl. destruct (Z.lt_ge_cases (last_block s) latest) as [Hnew|Hold].
  - destruct (track_and_process_effect utf8_decode_ignore env latest s Hnew)
      as (_ & _ & _ & _ & -> & _).
    unfold MAX_BLOCK_GAP.
    destruct (fst (track_and_process latest s));
      destruct (Z.ltb_spec 10 (latest - last_block s)); lia.
  - now rewrite (track_no_new_blocks utf8_decode_ignore env latest s Hold).
Qed.

Lemma track_and_process_control latest s :
  node (snd (track_and_process latest s)) = node s /\
  consecutive_errors (snd (track_and_process latest s)) = consecutive_errors s.
Proof.
  destruct (Z.lt_ge_cases (last_block s) latest) as [Hnew|Hold].
  - now destruct (track_and_process_effect utf8_decode_ignore env latest s Hnew)
      as (T1 & T2 & _).
  - now rewrite (track_no_new_blocks utf8_decode_ignore env latest s Hold).
Qed.

(** The endpoint after the [try] block is a configured one, the cursor is
    not negative, and the error count is at most 3 when the block ends
    normally and at most one more than before when it raises. *)
Lemma body_control s :
  (In (node s) RPCS -> In (node (snd (body s))) RPCS) /\
  (0 <= last_block s -> 0 <= last_block (snd (body s))) /\
  (0 <= consecutive_errors s ->
   0 <= consecutive_errors (snd (body s)) /\
   match fst (body s) with
   | Ret _ => consecutive_errors (snd (body s)) <= 3
   | Exc _ => consecutive_errors (snd (body s)) <= consecutive_errors s + 1
   end).
Proof.
  unfold PollLoop.body. rewrite snd_bind, fst_bind.
  pose proof (periodic_check_node s) as N1.
  destruct (periodic_check_effect RPCS env s) as (C1 & C2 & _).
  destruct (periodic_check s) as [[u|e] s1]; cbn [fst snd] in *.
  2: { split; [assumption|]. split; [lia|]. lia. }
  rewrite bind_read, bind_lift.
  destruct (Selector.get_latest_block (block_number env (node s1)))
    as [latest|e].
  2: { cbn [fst snd]. split; [assumption|]. split; [lia|]. lia. }
  destruct (latest =? 0).
  { pose proof (failed_query_node s1) as N2.
    destruct (failed_query_effect RPCS env s1) as (Q1 & _).
    split; [auto|]. split; [lia|]. intros He.
    unfold PollLoop.failed_query. rewrite bind_update, bind_read.
    cbn [consecutive_errors set_consecutive_errors].
    destruct (Z.ltb_spec 3 (consecutive_errors s1 + 1)) as [Hmany|Hfew].
    - rewrite bind_bind, bind_lift.
      destruct (Selector.get_best_rpc RPCS (probe_failover env)) as [best|e].
      + rewrite bind_bind, bind_update, bind_update. cbn. lia.
      + cbn. lia.
    - rewrite bind_pure. cbn. lia. }
  rewrite bind_update, snd_bind, fst_bind.
  set (s2 := set_consecutive_errors 0 s1).
  assert (node s2 = node s1 /\ last_block s2 = last_block s1 /\
          consecutive_errors s2 = 0) as (E1 & E2 & E3) by (simpl; auto).
  clearbody s2.
  destruct (track_and_process_control latest s2) as (T1 & T2).
  pose proof (track_and_process_cursor latest s2) as T3.
  destruct (track_and_process latest s2) as [[u'|e] s3]; cbn [fst snd] in *.
  - rewrite choose_sleep_state.
    split; [intros; rewrite T1, E1; auto|]. split; [intros; apply T3; lia|].
    intros He. split; [lia|].
    destruct (fst (choose_sleep s3)); lia.
  - split; [intros; rewrite T1, E1; auto|]. split; [intros; apply T3; lia|].
    intros He. lia.
Qed.

Lemma handler_control s :
  (In (node s) RPCS -> In (node (snd (handler s))) RPCS) /\
  (0 <= last_block s -> 0 <= last_block (snd (handler s))) /\
  match fst (handler s) with
  | Ret _ =>
      0 <= consecutive_errors s ->
      0 <= consecutive_errors (snd (handler s)) <= 5
  | Exc e =>
      5 < consecutive_errors s + 1 /\
      Selector.get_best_rpc RPCS (probe_handler env) = Exc e
  end.
Proof.
  unfold PollLoop.handler. rewrite bind_update, bind_read.
  cbn [consecutive_errors set_consecutive_errors].
  destruct (Z.ltb_spec 5 (consecutive_errors s + 1)) as [Hmany|Hfew].
  - rewrite bind_lift.
    destruct (Selector.get_best_rpc RPCS (probe_handler env)) as [best|e] eqn:Hb.
    + rewrite bind_update. cbn.
      destruct (SelectionFacts.get_best_rpc_in _ _ _ Hb) as (Hin & Hh).
      repeat split; auto; lia.
    + cbn. repeat split; auto.
  - cbn. repeat split; auto; lia.
Qed.

Lemma tick_control s :
  (In (node s) RPCS -> In (node (snd (tick s))) RPCS) /\
  (0 <= last_block s -> 0 <= last_block (snd (tick s))) /\
  (0 <= consecutive_errors s ->
   match fst (tick s) with
   | Normal _ => 0 <= consecutive_errors (snd (tick s)) <= 3
   | Recovered _ => 0 <= consecutive_errors (snd (tick s)) <= 5
   | Crashed e =>
       4 <= consecutive_errors s /\
       Selector.get_best_rpc RPCS (probe_handler env) = Exc e
   end).
Proof.
  unfold PollLoop.tick.
  destruct (body_control s) as (B1 & B2 & B3).
  destruct (body s) as [[k|e] s1]; cbn [fst snd] in *.
  - split; [assumption|]. split; [assumption|]. intros He.
    destruct (B3 He). lia.
  - destruct (handler_control s1) as (H1 & H2 & H3).
    destruct (handler s1) as [[u|e'] s2]; cbn [fst snd] in *.
    + split; [auto|]. split; [auto|]. intros He.
      destruct (B3 He). apply H3. lia.
    + split; [auto|]. split; [auto|]. intros He.
      destruct (B3 He). destruct H3. split; [lia|assumption].
Qed.

(** X13. An iteration ends the loop only through the re-selection of the
    exception handler: [get_best_rpc] raises inside the handler, and the
    iteration started with at least four consecutive errors counted. *)
Theorem loop_ends_only_in_handler_selection s e :
  0 <= consecutive_errors s ->
  fst (tick s) = Crashed e ->
  4 <= consecutive_errors s /\
  Selector.get_best_rpc RPCS (probe_handler env) = Exc e.
Proof.
  intros He Hc. destruct (tick_control s) as (_ & _ & H).
  specialize (H He). now rewrite Hc in H.
Qed.

End OneIteration.

(** X14. The active endpoint is a configured endpoint after any number of
    iterations, whatever the endpoints answer. *)
Theorem active_endpoint_is_configured envs s :
  In (node s) RPCS ->
  In (node (snd (run RPCS utf8_decode_ignore envs s))) RPCS.
Proof.
  revert s. induction envs as [|env envs IH]; intros s Hn; [exact Hn|].
  cbn [run]. destruct (tick_control env s) as (H & _).
  destruct (PollLoop.tick RPCS utf8_decode_ignore env s) as [[k|e|e] s'];
    cbn [fst snd] in *; auto.
Qed.

(** X15. A cursor that is not negative stays so over any number of
    iterations: neither the jump to [latest - 2] nor a re-selection, which
    may set it to 0, takes it below 0. *)
Theorem cursor_not_negative envs s :
  0 <= last_block s ->
  0 <= last_block (snd (run RPCS utf8_decode_ignore envs s)).
Proof.
  revert s. induction envs as [|env envs IH]; intros s Hn; [exact Hn|].
  cbn [run]. destruct (tick_control env s) as (_ & H & _).
  destruct (PollLoop.tick RPCS utf8_decode_ignore env s) as [[k|e|e] s'];
    cbn [fst snd] in *; auto.
Qed.

(** X16. While the loop is running the count of consecutive errors stays
    between 0 and 5. *)
Theorem consecutive_errors_bounded envs s :
  0 <= consecutive_errors s <= 5 ->
  fst (run RPCS utf8_decode_ignore envs s) = true ->
  0 <= consecutive_errors (snd (run RPCS utf8_decode_ignore envs s)) <= 5.
Proof.
  revert s. induction envs as [|env envs IH]; intros s He Hrun; [exact He|].
  cbn [run] in *. destruct (tick_control env s) as (_ & _ & H).
  destruct (PollLoop.tick RPCS utf8_decode_ignore env s) as [[k|e|e] s'];
    cbn [fst snd] in *.
  - apply IH; [|exact Hrun]. assert (0 <= consecutive_errors s) as H0 by lia.
    specialize (H H0). lia.
  - apply IH; [|exact Hrun]. apply H. lia.
  - discriminate.
Qed.

End Control.

Lemma loop_ends_only_in_handler_selection_witness :
  let s := set_consecutive_errors 5
             (Scenarios.watching Scenarios.endpoint_a 100) in
  fst (Scenarios.tick MoreScenarios.all_null s) = Crashed TypeError /\
  Selector.get_best_rpc Scenarios.endpoints
    (probe_handler MoreScenarios.all_null) = Exc TypeError.
Proof.
  cbv zeta. split; [vm_compute; reflexivity|].
  apply (loop_ends_only_in_handler_selection Scenarios.endpoints
           Symbol.decode_ascii_only MoreScenarios.all_null
           (set_consecutive_errors 5
              (Scenarios.watching Scenarios.endpoint_a 100))).
  - simpl. lia.
  - vm_compute. reflexivity.
Defined.

Lemma active_endpoint_is_configured_witness :
  In (node (snd (Scenarios.run Scenarios.outage
                   (Scenarios.watching Scenarios.endpoint_a 100))))
     Scenarios.endpoints.
Proof.
  apply active_endpoint_is_configured. simpl. now left.
Defined.

Lemma cursor_not_negative_witness :
  0 <= last_block (snd (Scenarios.run Scenarios.outage
                          (Scenarios.watching Scenarios.endpoint_a 100))).
Proof.
  apply cursor_not_negative. simpl. lia.
Defined.

Lemma consecutive_errors_bounded_witness :
  0 <= consecutive_errors
         (snd (Scenarios.run Scenarios.outage
                 (Scenarios.watching Scenarios.endpoint_a 100))) <= 5.
Proof.
  apply consecutive_errors_bounded.
  - simpl. lia.
  - vm_compute. reflexivity.
Defined.

End ControlFacts.

Module FailoverFacts.

Import Decoder PollLoop PollLoopFacts.

Section Failover.

Variable RPCS : list string.
Variable utf8_decode_ignore : list Byte.byte -> string.

Abbreviation tick := (PollLoop.tick RPCS utf8_decode_ignore).
Abbreviation run := (PollLoop.run RPCS utf8_decode_ignore).

(** An iteration whose height query gives 0, below the threshold of line
    224. *)
Lemma failed_tick_counts env s :
  refresh_due env = false ->
  Selector.get_latest_block (block_number env (node s)) = Ret 0 ->
  consecutive_errors s + 1 <= 3 ->
  tick env s
  = (Normal Backoff, set_consecutive_errors (consecutive_errors s + 1) s).
Proof.
  intros Hr Hq He. unfold PollLoop.tick, body, periodic_check. rewrite Hr.
  rewrite bind_pure, bind_read, bind_lift, Hq. cbn [Z.eqb].
  unfold failed_query. rewrite bind_update, bind_read.
  cbn [consecutive_errors set_consecutive_errors].
  destruct (Z.ltb_spec 3 (consecutive_errors s + 1)); [lia|].
  rewrite bind_pure. reflexivity.
Qed.

(** The same above the threshold. *)
Lemma failed_tick_reselects env s best :
  refresh_due env = false ->
  Selector.get_latest_block (block_number env (node s)) = Ret 0 ->
  3 < consecutive_errors s + 1 ->
  Selector.get_best_rpc RPCS (probe_failover env) = Ret best ->
  tick env s
  = (Normal Backoff,
     set_consecutive_errors 0
       (set_node (fst best)
          (set_consecutive_errors (consecutive_errors s + 1) s))).
Proof.
  intros Hr Hq He Hb. unfold PollLoop.tick, body, periodic_check. rewrite Hr.
  rewrite bind_pure, bind_read, bind_lift, Hq. cbn [Z.eqb].
  unfold failed_query. rewrite bind_update, bind_read.
  cbn [consecutive_errors set_consecutive_errors].
  destruct (Z.ltb_spec 3 (consecutive_errors s + 1)); [|lia].
  rewrite bind_bind, bind_lift, Hb, bind_bind, bind_update, bind_update.
  reflexivity.
Qed.

(** X17. An endpoint that stops answering the height query is kept for
    three iterations, which only count, and is replaced in the fourth by
    the endpoint that selection returns; the counter starts again at 0,
    and the cursor, the queue and the requests made are as before. *)
Theorem unanswered_endpoint_replaced_at_fourth_query e1 e2 e3 e4 s best :
  consecutive_errors s = 0 ->
  (forall env, In env [e1; e2; e3; e4] ->
     refresh_due env = false /\
     Selector.get_latest_block (block_number env (node s)) = Ret 0) ->
  Selector.get_best_rpc RPCS (probe_failover e4) = Ret best ->
  let s3 := snd (run [e1; e2; e3] s) in
  let s4 := snd (run [e1; e2; e3; e4] s) in
  node s3 = node s /\ consecutive_errors s3 = 3 /\
  fst (run [e1; e2; e3; e4] s) = true /\
  node s4 = fst best /\ consecutive_errors s4 = 0 /\
  last_block s4 = last_block s /\ requested s4 = requested s /\
  zapier_queue s4 = zapier_queue s.
Proof.
  intros H0 Hall Hb.
  destruct (Hall e1) as (R1 & Q1); [simpl; tauto|].
  destruct (Hall e2) as (R2 & Q2); [simpl; tauto|].
  destruct (Hall e3) as (R3 & Q3); [simpl; tauto|].
  destruct (Hall e4) as (R4 & Q4); [simpl; tauto|].
  cbv zeta. cbn [PollLoop.run].
  rewrite (failed_tick_counts e1 s R1 Q1) by lia.
  rewrite (failed_tick_counts e2) by (cbn; auto; lia).
  rewrite (failed_tick_counts e3) by (cbn; auto; lia).
  cbn [snd fst node consecutive_errors set_consecutive_errors].
  rewrite (failed_tick_reselects e4 _ best) by (cbn; auto; lia).
  cbn. repeat split; lia.
Qed.

End Failover.

Lemma unanswered_endpoint_replaced_at_fourth_query_witness :
  let quiet_a := Scenarios.answering false NoReply [] Scenarios.only_b_at_145 in
  let s4 := snd (Scenarios.run [quiet_a; quiet_a; quiet_a; quiet_a]
                   (Scenarios.watching Scenarios.endpoint_a 100)) in
  node s4 = Scenarios.endpoint_b /\ consecutive_errors s4 = 0 /\
  last_block s4 = 100.
Proof.
  cbv zeta.
  destruct (unanswered_endpoint_replaced_at_fourth_query
              Scenarios.endpoints Symbol.decode_ascii_only
              (Scenarios.answering false NoReply [] Scenarios.only_b_at_145)
              (Scenarios.answering false NoReply [] Scenarios.only_b_at_145)
              (Scenarios.answering false NoReply [] Scenarios.only_b_at_145)
              (Scenarios.answering false NoReply [] Scenarios.only_b_at_145)
              (Scenarios.watching Scenarios.endpoint_a 100)
              (Scenarios.endpoint_b, 145))
    as (_ & _ & _ & H1 & H2 & H3 & _).
  - reflexivity.
  - intros env [<-|[<-|[<-|[<-|[]]]]]; split; reflexivity.
  - vm_compute. reflexivity.
  - repeat split; assumption.
Defined.

End FailoverFacts.

Module CoverageFacts.

Import Decoder PollLoop PollLoopFacts Ranges Coverage.

Lemma contiguous_app (a b c : Z) (r1 r2 : list (Z * Z)) :
  contiguous a r1 b -> contiguous (b + 1) r2 c -> contiguous a (r1 ++ r2) c.
Proof.
  revert a. induction r1 as [|r r1 IH]; intros a H1 H2; cbn [contiguous app] in *.
  - subst b. now replace (a - 1 + 1) with a in H2 by lia.
  - destruct H1 as (E & L & H1). repeat split; auto.
Qed.

Section WithConfiguration.

Variable RPCS : list string.
Variable utf8_decode_ignore : list Byte.byte -> string.

Abbreviation tick := (PollLoop.tick RPCS utf8_decode_ignore).
Abbreviation run := (PollLoop.run RPCS utf8_decode_ignore).

Lemma bind_run {A B : Type} (m : M A) (k : A -> M B) (s : State) :
  bind m k s = match m s with
               | (Ret a, s1) => k a s1
               | (Exc e, s1) => (Exc e, s1)
               end.
Proof. reflexivity. Qed.

(** A [try] block that got no height to work with and ends normally went
    through the branch of line 222, which leaves cursor and requests
    alone. *)
Lemma body_unobserved env s k s' :
  observed_height RPCS env s = None ->
  body RPCS utf8_decode_ignore env s = (Ret k, s') ->
  last_block s' = last_block s /\ requested s' = requested s.
Proof.
  unfold PollLoop.observed_height, body. rewrite bind_run.
  destruct (periodic_check_effect RPCS env s) as (C1 & _ & _ & _ & C5).
  destruct (periodic_check RPCS env s) as [[u|e] s1]; cbn [fst snd] in *;
    [|discriminate].
  rewrite bind_read, bind_lift.
  destruct (Selector.get_latest_block (block_number env (node s1)))
    as [latest|e]; [|discriminate].
  destruct (latest =? 0); [|discriminate].
  intros _ H.
  destruct (failed_query_effect RPCS env s1) as (Q1 & _ & _ & Q4).
  rewrite H in Q1, Q4. cbn [snd] in Q1, Q4. split; congruence.
Qed.

Lemma tick_unobserved env s k :
  observed_height RPCS env s = None ->
  fst (tick env s) = Normal k ->
  last_block (snd (tick env s)) = last_block s /\
  requested (snd (tick env s)) = requested s.
Proof.
  intros Hobs. unfold PollLoop.tick.
  pose proof (body_unobserved env s) as Hb.
  destruct (body RPCS utf8_decode_ignore env s) as [[k'|e] s1].
  - intros _. cbn [snd]. now apply (Hb k' s1).
  - destruct (handler RPCS env s1) as [[u|e'] s2]; discriminate.
Qed.

(** A normal iteration within the cap asks for exactly the blocks between
    the old and the new cursor. *)
Lemma steady_tick env s k :
  fst (tick env s) = Normal k ->
  match observed_height RPCS env s with
  | Some latest => latest - last_block s <=? MAX_BLOCK_GAP
  | None => true
  end = true ->
  exists new,
    requested (snd (tick env s)) = requested s ++ new /\
    contiguous (last_block s + 1) new (last_block (snd (tick env s))).
Proof.
  intros Hk Hgap.
  destruct (observed_height RPCS env s) as [latest|] eqn:Hobs.
  - apply Z.leb_le in Hgap.
    destruct (Z.lt_ge_cases (last_block s) latest) as [Hnew|Hold].
    + destruct (tick_new_blocks RPCS utf8_decode_ignore env s latest Hobs Hnew)
        as (T1 & _ & [(_ & T3)|([e He] & _)]).
      2: { rewrite He in Hk. discriminate. }
      destruct (Z.ltb_spec MAX_BLOCK_GAP (latest - last_block s)); [lia|].
      eexists. split; [exact T1|].
      cbn [contiguous fst snd]. rewrite T3. repeat split; lia.
    + destruct (tick_no_new_blocks RPCS utf8_decode_ignore env s latest Hobs Hold)
        as (_ & T2 & T3 & _).
      exists []. rewrite app_nil_r. split; [exact T3|].
      cbn [contiguous]. lia.
  - destruct (tick_unobserved env s k Hobs Hk) as (T1 & T2).
    exists []. rewrite app_nil_r. split; [exact T2|].
    cbn [contiguous]. lia.
Qed.

(** X18. Over iterations that all end normally and never find the chain
    more than [MAX_BLOCK_GAP] blocks ahead, the loop goes on, and the
    ranges it asks logs for follow one another without gap or overlap
    from the block after the old cursor up to the new cursor: every block
    in between is asked for exactly once. *)
Theorem steady_run_requests_each_block_once envs s :
  steady RPCS utf8_decode_ignore envs s = true ->
  fst (run envs s) = true /\
  exists new,
    requested (snd (run envs s)) = requested s ++ new /\
    contiguous (last_block s + 1) new (last_block (snd (run envs s))).
Proof.
  revert s. induction envs as [|env envs IH]; intros s Hs.
  - cbn [PollLoop.run fst snd]. split; [reflexivity|].
    exists []. rewrite app_nil_r. split; [reflexivity|]. cbn [contiguous]. lia.
  - cbn [steady PollLoop.run] in *.
    pose proof (steady_tick env s) as Ht.
    destruct (tick env s) as [[k|e|e] s1]; cbn [fst snd] in *;
      try discriminate.
    apply andb_prop in Hs. destruct Hs as (Hgap & Hrest).
    destruct (Ht k eq_refl Hgap) as (new1 & R1 & G1).
    destruct (IH s1 Hrest) as (Hrun & new2 & R2 & G2).
    split; [exact Hrun|]. exists (new1 ++ new2). split.
    + rewrite R2, R1. now rewrite <- app_assoc.
    + eapply contiguous_app; eassumption.
Qed.

End WithConfiguration.

Lemma steady_run_requests_each_block_once_witness :
  let envs := [Scenarios.answering false (Reply "0x65") [] Scenarios.silent;
               Scenarios.answering false (Reply "0x67") [] Scenarios.silent] in
  let s := Scenarios.watching Scenarios.endpoint_a 100 in
  requested (snd (Scenarios.run envs s)) = [(101, 101); (102, 103)] /\
  exists new,
    requested (snd (Scenarios.run envs s)) = requested s ++ new /\
    contiguous 101 new (last_block (snd (Scenarios.run envs s))).
Proof.
  cbv zeta. split; [vm_compute; reflexivity|].
  apply (steady_run_requests_each_block_once Scenarios.endpoints
           Symbol.decode_ascii_only
           [Scenarios.answering false (Reply "0x65") [] Scenarios.silent;
            Scenarios.answering false (Reply "0x67") [] Scenarios.silent]
           (Scenarios.watching Scenarios.endpoint_a 100)).
  vm_compute. reflexivity.
Defined.

End CoverageFacts.

Module BacklogFacts.

Import Delivery DeliveryFacts.

(** No POST gets a response in the trace. *)
Lemma unanswered_step (s : State) (e : event) :
  (forall status, e <> PostReturns status) ->
  answered (step s e) = answered s.
Proof.
  intros He. destruct e as [p| |status|]; cbn [step].
  - reflexivity.
  - destruct (in_flight s), (zapier_queue s); reflexivity.
  - now destruct (He status).
  - destruct (in_flight s); reflexivity.
Qed.

(** X19. While every POST raises, under any interleaving of producer and
    worker, nothing is delivered and nothing is dropped: the payloads the
    system holds are those it held before followed by those produced
    since, in order. The queue has no bound. *)
Theorem failing_sink_keeps_every_payload (s : State) (trace : list event) :
  Forall (fun e => forall status, e <> PostReturns status) trace ->
  answered (run s trace) = answered s /\
  pending (run s trace) = pending s ++ produced trace.
Proof.
  revert s. induction trace as [|e trace IH]; intros s Hall.
  - cbn. now rewrite app_nil_r.
  - apply List.Forall_cons_iff in Hall. destruct Hall as (He & Hall).
    change (run s (e :: trace)) with (run (step s e) trace).
    destruct (IH (step s e) Hall) as (A & P). rewrite A, P.
    pose proof (unanswered_step s e He) as A1.
    split; [exact A1|].
    pose proof (in_order_step s e) as O. unfold in_order in O.
    rewrite A1, <- app_assoc in O. apply app_inv_head in O. rewrite O.
    rewrite <- app_assoc. f_equal.
    change (e :: trace) with ([e] ++ trace). now rewrite produced_app.
Qed.

Lemma failing_sink_keeps_every_payload_witness :
  let p1 := mkPayload "BUY" "HYPE" 1 "0xaaaa" 101 1700000000
              "0x1111111111111111111111111111111111111111"
              "0x07c249fa3902fd243ad0fa58047be8a3262b7104" "0xtoken" in
  let p2 := mkPayload "SELL" "HYPE" 2 "0xbbbb" 102 1700000000
              "0x07c249fa3902fd243ad0fa58047be8a3262b7104"
              "0x1111111111111111111111111111111111111111" "0xtoken" in
  pending (run (mkState [p1] None [])
             (turn [p2] PostRaises ++ turn [] PostRaises))
  = [p1; p2].
Proof.
  cbv zeta.
  match goal with
  | |- pending (run ?s ?t) = _ =>
      destruct (failing_sink_keeps_every_payload s t) as (_ & ->)
  end.
  - repeat constructor; discriminate.
  - reflexivity.
Defined.

End BacklogFacts.

Module PayloadFacts.

Import Decoder PollLoop PollLoopFacts.

Section Payloads.

Variable utf8_decode_ignore : list Byte.byte -> string.
Variable env : Env.

Abbreviation process_logs := (PollLoop.process_logs utf8_decode_ignore env).

Lemma get_symbol_entry reply token_addr (cache : gmap string string) :
  snd (Symbol.get_symbol utf8_decode_ignore reply token_addr cache)
    !! token_addr
  = Some (fst (Symbol.get_symbol utf8_decode_ignore reply token_addr cache)).
Proof.
  destruct (cache !! token_addr) as [v|] eqn:Hc.
  - unfold Symbol.get_symbol. rewrite Hc. exact Hc.
  - destruct (SymbolCacheFacts.get_symbol_miss utf8_decode_ignore reply
                token_addr cache Hc) as (sym & -> & _).
    apply lookup_insert_eq.
Qed.

(** X20. Every payload that a batch queues was made from a log of the
    batch that decodes to a transfer involving the watched address: it
    carries the hash, block and token of that transfer, and its symbol is
    the one the cache holds for the token after the batch. The batch
    removes or changes no cache entry. *)
Theorem batch_payloads_match_logs_and_cache i logs count s :
  let s' := snd (process_logs i logs count s) in
  (forall t v, symbol_cache s !! t = Some v -> symbol_cache s' !! t = Some v) /\
  exists sent,
    zapier_queue s' = zapier_queue s ++ sent /\
    Forall (fun p =>
              symbol_cache s' !! Delivery.token p = Some (Delivery.symbol p) /\
              exists lg ev,
                In lg logs /\ decode_log lg = Ret (Some ev) /\
                relevant ev = true /\
                Delivery.txHash p = ev_txHash ev /\
                Delivery.block p = ev_blockNumber ev /\
                Delivery.token p = ev_token ev) sent.
Proof.
  cbv zeta. revert i count s.
  induction logs as [|lg logs IH]; intros i count s.
  { cbn. split; [auto|]. exists []. now rewrite app_nil_r. }
  (* the log is passed over *)
  assert (forall i' count',
             process_logs i (lg :: logs) count s
             = process_logs i' logs count' s ->
             (forall t v, symbol_cache s !! t = Some v ->
                          symbol_cache (snd (process_logs i (lg :: logs) count s))
                            !! t = Some v) /\
             exists sent,
               zapier_queue (snd (process_logs i (lg :: logs) count s))
               = zapier_queue s ++ sent /\
               Forall (fun p =>
                 symbol_cache (snd (process_logs i (lg :: logs) count s))
                   !! Delivery.token p = Some (Delivery.symbol p) /\
                 exists lg' ev,
                   In lg' (lg :: logs) /\ decode_log lg' = Ret (Some ev) /\
                   relevant ev = true /\
                   Delivery.txHash p = ev_txHash ev /\
                   Delivery.block p = ev_blockNumber ev /\
                   Delivery.token p = ev_token ev) sent) as Hskip.
  { intros i' count' ->.
    destruct (IH i' count' s) as (Hp & sent & Hq & Hs).
    split; [exact Hp|]. exists sent. split; [exact Hq|].
    eapply List.Forall_impl; [|exact Hs].
    intros p (Hc & lg' & ev & Hin & Hrest).
    split; [exact Hc|]. exists lg', ev. split; [now right|exact Hrest]. }
  cbn [PollLoop.process_logs] in *. rewrite bind_lift in *.
  destruct (decode_log lg) as [[ev|]|e] eqn:Hdec.
  3: { cbn [snd]. split; [auto|]. exists []. now rewrite app_nil_r. }
  2: { apply (Hskip (S i) count). reflexivity. }
  destruct (relevant ev) eqn:Hrel; cbn [negb] in *.
  2: { apply (Hskip (S i) count). reflexivity. }
  rewrite bind_read in *.
  destruct (existsb (String.eqb (ev_txHash ev)) (processed_txs s)).
  { apply (Hskip (S i) count). reflexivity. }
  clear Hskip. rewrite bind_update, bind_get_symbol.
  set (s0 := set_processed_txs
               (deque_append (processed_txs s) (ev_txHash ev)) s).
  set (found := Symbol.get_symbol utf8_decode_ignore
                  (eth_call env (node s0) (ev_token ev)) (ev_token ev)
                  (symbol_cache s0)).
  set (s1 := set_symbol_cache (snd found) s0).
  assert (forall t v, symbol_cache s !! t = Some v ->
                      symbol_cache s1 !! t = Some v) as Hkeep.
  { intros t v Hv. unfold s1, found. cbn [symbol_cache set_symbol_cache].
    apply InvariantFacts.get_symbol_keeps_entries. exact Hv. }
  assert (symbol_cache s1 !! ev_token ev = Some (fst found)) as Hentry.
  { unfold s1, found. cbn [symbol_cache set_symbol_cache].
    apply get_symbol_entry. }
  assert (zapier_queue s1 = zapier_queue s) as Hq1 by reflexivity.
  clearbody s1. rewrite bind_lift.
  destruct (true_div (ev_value ev)) as [amt|e].
  2: { cbn [snd]. split; [exact Hkeep|]. exists [].
       rewrite app_nil_r. split; [exact Hq1|constructor]. }
  unfold send_to_zapier. rewrite bind_update.
  set (p := make_payload env i ev (fst found)).
  set (s2 := set_zapier_queue (zapier_queue s1 ++ [p]) s1).
  assert (symbol_cache s2 = symbol_cache s1) as Hc2 by reflexivity.
  assert (zapier_queue s2 = zapier_queue s ++ [p]) as Hq2
      by (unfold s2; cbn; now rewrite Hq1).
  clearbody s2.
  destruct (IH (S i) (count + 1) s2) as (Hp & sent & Hq & Hs).
  rewrite Hc2 in Hp. split; [auto|].
  exists (p :: sent). split.
  { rewrite Hq, Hq2. now rewrite <- app_assoc. }
  constructor.
  - split; [apply Hp; exact Hentry|].
    exists lg, ev. repeat split; auto. now left.
  - eapply List.Forall_impl; [|exact Hs].
    intros p' (Hc & lg' & ev' & Hin & Hrest).
    split; [exact Hc|]. exists lg', ev'. split; [now right|exact Hrest].
Qed.

End Payloads.

End PayloadFacts.

Module FetchErrorFacts.

Import Decoder PollLoop PollLoopFacts.

Section Fetch.

Variable env : Env.
Variable n : string.

Lemma fetch_loop_null (k fuel : nat) current end_block acc s :
  (Z.to_nat (end_block - current + 1) <= fuel)%nat ->
  current + Z.of_nat k * BATCH_SIZE <= end_block ->
  get_logs env n (current + Z.of_nat k * BATCH_SIZE)
    (Z.min (current + Z.of_nat k * BATCH_SIZE + BATCH_SIZE - 1) end_block)
  = Null ->
  fst (fetch_loop env fuel n current end_block acc s) = Exc TypeError.
Proof.
  revert fuel current acc s.
  induction k as [|k IH]; intros fuel current acc s Hfuel Hin Hnull.
  - rewrite Z.add_0_r in *. destruct fuel as [|fuel]; [lia|].
    cbn [PollLoop.fetch_loop].
    destruct (Z.leb_spec current end_block); [|lia].
    rewrite bind_update, Hnull, bind_raise. reflexivity.
  - unfold BATCH_SIZE in *. destruct fuel as [|fuel]; [lia|].
    cbn [PollLoop.fetch_loop].
    destruct (Z.leb_spec current end_block); [|lia].
    rewrite bind_update. unfold BATCH_SIZE.
    replace (Z.min (current + 100 - 1) end_block) with (current + 99) by lia.
    assert (forall acc' s',
               fst (fetch_loop env fuel n (current + 99 + 1) end_block acc' s')
               = Exc TypeError) as Hnext.
    { intros acc' s'. apply IH.
      - lia.
      - unfold BATCH_SIZE. lia.
      - unfold BATCH_SIZE.
        replace (current + 99 + 1 + Z.of_nat k * 100)
          with (current + Z.of_nat (S k) * 100) by lia.
        exact Hnull. }
    destruct (get_logs env n current (current + 99)) as [| |logs].
    + rewrite bind_pure. apply Hnext.
    + rewrite bind_raise. reflexivity.
    + rewrite bind_pure. apply Hnext.
Qed.

(** X21. When the reply to one of the chunk requests carries the result
    [null], [get_transfer_logs_batch] raises [TypeError]: the logs of the
    chunks before it are not returned. The chunks start at
    [start_block], [start_block + BATCH_SIZE], and so on. *)
Theorem get_transfer_logs_batch_null_raises (k : nat) start_block end_block s :
  start_block + Z.of_nat k * BATCH_SIZE <= end_block ->
  get_logs env n (start_block + Z.of_nat k * BATCH_SIZE)
    (Z.min (start_block + Z.of_nat k * BATCH_SIZE + BATCH_SIZE - 1) end_block)
  = Null ->
  fst (get_transfer_logs_batch env n start_block end_block s) = Exc TypeError.
Proof.
  intros Hin Hnull. unfold get_transfer_logs_batch.
  apply (fetch_loop_null k); [lia|exact Hin|exact Hnull].
Qed.

End Fetch.

Lemma get_transfer_logs_batch_null_raises_witness :
  let env :=
    {| refresh_due := false;
       probe_refresh := Scenarios.silent;
       probe_failover := Scenarios.silent;
       probe_handler := Scenarios.silent;
       block_number := fun _ => NoReply;
       get_logs := fun _ a _ => if a =? 101 then Null
                                else Reply [Scenarios.transfer_log];
       eth_call := fun _ _ => NoReply;
       now := fun _ => 0 |} in
  fst (get_transfer_logs_batch env Scenarios.endpoint_a 1 250
         (Scenarios.watching Scenarios.endpoint_a 0)) = Exc TypeError.
Proof.
  cbv zeta. apply (get_transfer_logs_batch_null_raises _ _ 1).
  - unfold BATCH_SIZE. simpl. lia.
  - reflexivity.
Defined.

End FetchErrorFacts.
